(** * daqa: the article filter, the wikitext cleaner and the cached,
      retrying question generator of [src/daqa/generate.py]

    A shallow embedding of [process_article], [is_meaningful_article],
    [is_include_only], [clean_wikitext], [is_redirect] and
    [generate_questions], with the pieces of the Python runtime they lean
    on ([str] methods, the backtracking [re] matcher, [hashlib.md5],
    [os.path.join]) written out, and the outside world (the article
    parser, the JSON codec, the chat API, the cache directory, logging and
    the clock) threaded explicitly. *)

From Stdlib Require Import NArith ZArith Lia List String Ascii Bool DecimalString
  Permutation.
From stdpp Require Import base option list gmap.

Local Open Scope N_scope.

(* ===================================================================== *)
(** ** Python [str]: a sequence of code points *)
(* ===================================================================== *)

(** [len], slicing and the [re] module all count code points, so a [str]
    is the list of its code points. *)
Abbreviation str := (list N).

Module PyStr.

(** Decoding of the UTF-8 bytes of a literal of this file into the code
    points Python sees for the same source text. *)
Fixpoint utf8_points (bs : list N) : str :=
  match bs with
  | [] => []
  | b0 :: t0 =>
      if b0 <? 0x80 then b0 :: utf8_points t0
      else if b0 <? 0xE0 then
        match t0 with
        | b1 :: t1 =>
            N.lor (N.shiftl (N.land b0 0x1F) 6) (N.land b1 0x3F) :: utf8_points t1
        | _ => []
        end
      else if b0 <? 0xF0 then
        match t0 with
        | b1 :: b2 :: t2 =>
            N.lor (N.shiftl (N.land b0 0x0F) 12)
              (N.lor (N.shiftl (N.land b1 0x3F) 6) (N.land b2 0x3F))
            :: utf8_points t2
        | _ => []
        end
      else
        match t0 with
        | b1 :: b2 :: b3 :: t3 =>
            N.lor (N.shiftl (N.land b0 0x07) 18)
              (N.lor (N.shiftl (N.land b1 0x3F) 12)
                 (N.lor (N.shiftl (N.land b2 0x3F) 6) (N.land b3 0x3F)))
            :: utf8_points t3
        | _ => []
        end
  end.

Fixpoint bytes_of_string (s : string) : str :=
  match s with
  | EmptyString => []
  | String a s' => N_of_ascii a :: bytes_of_string s'
  end.

(** The [str] written by a literal. *)
Definition lit (s : string) : str := utf8_points (bytes_of_string s).

(** [str.isspace] on one code point: the table of
    [_PyUnicode_IsWhitespace]. *)
Definition isspace (c : N) : bool :=
  ((0x09 <=? c) && (c <=? 0x0D))
  || ((0x1C <=? c) && (c <=? 0x20))
  || (c =? 0x85) || (c =? 0xA0) || (c =? 0x1680)
  || ((0x2000 <=? c) && (c <=? 0x200A))
  || (c =? 0x2028) || (c =? 0x2029) || (c =? 0x202F)
  || (c =? 0x205F) || (c =? 0x3000).

(** [s.lstrip()] *)
Fixpoint lstrip (s : str) : str :=
  match s with
  | c :: t => if isspace c then lstrip t else s
  | [] => []
  end.

(** [s.rstrip()] *)
Definition rstrip (s : str) : str := rev (lstrip (rev s)).

(** [s.strip()] *)
Definition strip (s : str) : str := rstrip (lstrip s).

(** [s.startswith(p)] *)
Fixpoint startswith (p s : str) : bool :=
  match p, s with
  | [], _ => true
  | a :: p', b :: s' => (a =? b) && startswith p' s'
  | _ :: _, [] => false
  end.

(** [s.endswith(p)] *)
Definition endswith (p s : str) : bool := startswith (rev p) (rev s).

(** [s.split()]: the maximal runs of non-whitespace code points.
    [split_acc w s] carries the word being read, reversed. *)
Fixpoint split_acc (w : str) (s : str) : list str :=
  match s with
  | [] => match w with [] => [] | _ => [rev w] end
  | c :: t =>
      if isspace c
      then match w with [] => split_acc [] t | _ => rev w :: split_acc [] t end
      else split_acc (c :: w) t
  end.

Definition split (s : str) : list str := split_acc [] s.

(** [s[:n]] for [n >= 0] *)
Definition slice_to (n : N) (s : str) : str := firstn (N.to_nat n) s.

(** [str(n)] for a natural number. *)
Definition str_of_nat (n : nat) : str :=
  bytes_of_string (NilZero.string_of_uint (Nat.to_uint n)).

(** [p in s] *)
Fixpoint contains (p s : str) : bool :=
  startswith p s || match s with [] => false | _ :: t => contains p t end.

End PyStr.

Import PyStr.

(* ===================================================================== *)
(** ** The [re] module: a backtracking matcher *)
(* ===================================================================== *)

Module Re.

(** The pattern syntax the program uses. *)
Inductive regex : Type :=
| Lit (c : N)                  (* a literal character *)
| NotIn (cs : str)             (* [^...] *)
| Dot                          (* . *)
| Space                        (* \s *)
| Eps                          (* the empty pattern *)
| Seq (r1 r2 : regex)          (* r1 r2 *)
| Alt (r1 r2 : regex)          (* r1|r2 *)
| Star (r : regex)             (* r*  *)
| Plus (r : regex)             (* r+  *)
| Opt (r : regex)              (* r?  *)
| StarLazy (r : regex)         (* r*? *)
| Group (i : nat) (r : regex). (* the i-th capturing group *)

(** A run of literal characters. *)
Definition lits (p : str) : regex := fold_right (fun c r => Seq (Lit c) r) Eps p.

(** The flags of a call.  [IGNORECASE] carries the interpreter's
    case-insensitive comparison [ieq p c] of a pattern character [p] with
    a text character [c] (its Unicode case tables). *)
Record flags : Type := { IGNORECASE : option (N -> N -> bool); DOTALL : bool }.

Definition no_flags : flags := {| IGNORECASE := None; DOTALL := false |}.
Definition re_DOTALL : flags := {| IGNORECASE := None; DOTALL := true |}.
Definition re_IGNORECASE (ieq : N -> N -> bool) : flags :=
  {| IGNORECASE := Some ieq; DOTALL := false |}.

(** The groups captured so far, latest first. *)
Definition captures : Type := list (nat * str).

Fixpoint group (i : nat) (caps : captures) : option str :=
  match caps with
  | [] => None
  | (j, t) :: rest => if Nat.eqb i j then Some t else group i rest
  end.

Definition answer : Type := captures * str.
Definition cont : Type := str -> captures -> option answer.

Definition or_else (a b : option answer) : option answer :=
  match a with Some x => Some x | None => b end.

Section Matcher.

Variable fl : flags.

Definition lit_ok (p c : N) : bool :=
  match IGNORECASE fl with
  | Some ieq => ieq p c
  | None => p =? c
  end.

Definition dot_ok (c : N) : bool :=
  if DOTALL fl then true else negb (c =? 0x0A).

Definition one (ok : N -> bool) (s : str) (caps : captures) (k : cont)
  : option answer :=
  match s with
  | c :: t => if ok c then k t caps else None
  | [] => None
  end.

(** Greedy repetition: one more round of [step] first, the rest of the
    pattern when that fails; a round must consume input.  [n] bounds the
    rounds by the length of the input. *)
Fixpoint greedy (step : str -> captures -> cont -> option answer)
    (n : nat) (s : str) (caps : captures) (k : cont) : option answer :=
  match n with
  | O => k s caps
  | S n' =>
      or_else
        (step s caps (fun s' caps' =>
           if (length s' <? length s)%nat then greedy step n' s' caps' k
           else None))
        (k s caps)
  end.

(** Lazy repetition: the rest of the pattern first. *)
Fixpoint lazy (step : str -> captures -> cont -> option answer)
    (n : nat) (s : str) (caps : captures) (k : cont) : option answer :=
  match n with
  | O => k s caps
  | S n' =>
      or_else
        (k s caps)
        (step s caps (fun s' caps' =>
           if (length s' <? length s)%nat then lazy step n' s' caps' k
           else None))
  end.

(** [run r s caps k]: match [r] at the head of [s], then hand the rest
    of the text to [k]; [None] makes the matcher backtrack. *)
Fixpoint run (r : regex) (s : str) (caps : captures) (k : cont)
  : option answer :=
  match r with
  | Lit p => one (lit_ok p) s caps k
  | NotIn cs => one (fun c => negb (existsb (fun p => lit_ok p c) cs)) s caps k
  | Dot => one dot_ok s caps k
  | Space => one isspace s caps k
  | Eps => k s caps
  | Seq r1 r2 => run r1 s caps (fun s' caps' => run r2 s' caps' k)
  | Alt r1 r2 => or_else (run r1 s caps k) (run r2 s caps k)
  | Star r1 => greedy (run r1) (length s) s caps k
  | Plus r1 =>
      run r1 s caps (fun s' caps' => greedy (run r1) (length s') s' caps' k)
  | Opt r1 => or_else (run r1 s caps k) (k s caps)
  | StarLazy r1 => lazy (run r1) (length s) s caps k
  | Group i r1 =>
      run r1 s caps (fun s' caps' =>
        k s' ((i, firstn (length s - length s') s) :: caps'))
  end.

(** A match starting exactly at the head of [s].  With [must_advance]
    an empty match is refused (the matcher then backtracks). *)
Definition match_here (r : regex) (must_advance : bool) (s : str)
  : option answer :=
  run r s [] (fun s' caps =>
    if must_advance && (length s' =? length s)%nat then None
    else Some (caps, s')).

(** What a left-to-right scan of the text yields: a character outside
    every match, or a match with its groups and its text. *)
Inductive piece : Type :=
| Gap (c : N)
| Hit (caps : captures) (matched : str).

(** The scan shared by [re.sub], [re.findall] and [re.search]:
    non-overlapping matches, leftmost first.  [skip] counts the
    characters of [s] still inside the previous match.  After an empty
    match the same position is tried again for a non-empty one. *)
Fixpoint scan (r : regex) (skip : nat) (s : str) : list piece :=
  match skip with
  | S n => match s with [] => [] | _ :: t => scan r n t end
  | O =>
      match match_here r false s with
      | None => match s with [] => [] | c :: t => Gap c :: scan r 0 t end
      | Some (caps, rest) =>
          let taken := (length s - length rest)%nat in
          Hit caps (firstn taken s) ::
          match s with
          | [] => []
          | c :: t =>
              match taken with
              | S n => scan r n t
              | O =>
                  match match_here r true s with
                  | Some (caps2, rest2) =>
                      let taken2 := (length s - length rest2)%nat in
                      Hit caps2 (firstn taken2 s) :: scan r (taken2 - 1) t
                  | None => Gap c :: scan r 0 t
                  end
              end
          end
      end
  end.

(** A replacement template: literal text and [\i] references. *)
Inductive repl_item : Type :=
| RText (t : str)
| RGroup (i : nat).

Definition expand (repl : list repl_item) (caps : captures) : str :=
  flat_map (fun it =>
    match it with
    | RText t => t
    | RGroup i => default [] (group i caps)
    end) repl.

(** [re.sub(r, repl, s)] *)
Definition sub (r : regex) (repl : list repl_item) (s : str) : str :=
  flat_map (fun p =>
    match p with
    | Gap c => [c]
    | Hit caps _ => expand repl caps
    end) (scan r 0 s).

(** [re.findall(r, s)] for a pattern without capturing groups. *)
Definition findall (r : regex) (s : str) : list str :=
  flat_map (fun p =>
    match p with
    | Gap _ => []
    | Hit _ m => [m]
    end) (scan r 0 s).

(** [re.search(r, s) is not None] *)
Definition search (r : regex) (s : str) : bool :=
  existsb (fun p => match p with Hit _ _ => true | Gap _ => false end)
    (scan r 0 s).

End Matcher.

End Re.

Import Re.

(* ===================================================================== *)
(** ** Exceptions *)
(* ===================================================================== *)

(** An instance of a subclass of [Exception]: its class and what
    [str(e)] gives. *)
Record exn : Type := Exception { exn_class : string; exn_str : str }.

Inductive result (A : Type) : Type :=
| Ok (a : A)
| Raise (e : exn).

Arguments Ok {A} a.
Arguments Raise {A} e.

Definition ZeroDivisionError : exn :=
  Exception "ZeroDivisionError" (lit "division by zero").

Definition UnicodeEncodeError : exn :=
  Exception "UnicodeEncodeError"
    (lit "'utf-8' codec can't encode character: surrogates not allowed").

Definition ValueError (msg : str) : exn := Exception "ValueError" msg.

(* ===================================================================== *)
(** ** [str.encode()] and [hashlib.md5] *)
(* ===================================================================== *)

Module Hash.

(** [s.encode()]: UTF-8, strict.  A surrogate code point cannot be
    encoded. *)
Definition utf8_char (c : N) : option (list N) :=
  if c <? 0x80 then Some [c]
  else if c <? 0x800 then
    Some [N.lor 0xC0 (N.shiftr c 6); N.lor 0x80 (N.land c 0x3F)]
  else if (0xD800 <=? c) && (c <=? 0xDFFF) then None
  else if c <? 0x10000 then
    Some [N.lor 0xE0 (N.shiftr c 12);
          N.lor 0x80 (N.land (N.shiftr c 6) 0x3F);
          N.lor 0x80 (N.land c 0x3F)]
  else if c <? 0x110000 then
    Some [N.lor 0xF0 (N.shiftr c 18);
          N.lor 0x80 (N.land (N.shiftr c 12) 0x3F);
          N.lor 0x80 (N.land (N.shiftr c 6) 0x3F);
          N.lor 0x80 (N.land c 0x3F)]
  else None.

Fixpoint encode (s : str) : result (list N) :=
  match s with
  | [] => Ok []
  | c :: t =>
      match utf8_char c, encode t with
      | Some bs, Ok rest => Ok (bs ++ rest)
      | None, _ => Raise UnicodeEncodeError
      | _, Raise e => Raise e
      end
  end.

(** MD5 (RFC 1321) on 32-bit words held in [N]. *)
Definition mask32 : N := 0xFFFFFFFF.
Definition add32 (a b : N) : N := N.land (a + b) mask32.
Definition not32 (a : N) : N := N.lxor a mask32.
Definition rotl32 (x c : N) : N :=
  N.land (N.lor (N.shiftl x c) (N.shiftr x (32 - c))) mask32.

Definition shifts : list N :=
  [7; 12; 17; 22; 7; 12; 17; 22; 7; 12; 17; 22; 7; 12; 17; 22;
   5; 9; 14; 20; 5; 9; 14; 20; 5; 9; 14; 20; 5; 9; 14; 20;
   4; 11; 16; 23; 4; 11; 16; 23; 4; 11; 16; 23; 4; 11; 16; 23;
   6; 10; 15; 21; 6; 10; 15; 21; 6; 10; 15; 21; 6; 10; 15; 21].

Definition sines : list N :=
  [0xd76aa478; 0xe8c7b756; 0x242070db; 0xc1bdceee;
   0xf57c0faf; 0x4787c62a; 0xa8304613; 0xfd469501;
   0x698098d8; 0x8b44f7af; 0xffff5bb1; 0x895cd7be;
   0x6b901122; 0xfd987193; 0xa679438e; 0x49b40821;
   0xf61e2562; 0xc040b340; 0x265e5a51; 0xe9b6c7aa;
   0xd62f105d; 0x02441453; 0xd8a1e681; 0xe7d3fbc8;
   0x21e1cde6; 0xc33707d6; 0xf4d50d87; 0x455a14ed;
   0xa9e3e905; 0xfcefa3f8; 0x676f02d9; 0x8d2a4c8a;
   0xfffa3942; 0x8771f681; 0x6d9d6122; 0xfde5380c;
   0xa4beea44; 0x4bdecfa9; 0xf6bb4b60; 0xbebfbc70;
   0x289b7ec6; 0xeaa127fa; 0xd4ef3085; 0x04881d05;
   0xd9d4d039; 0xe6db99e5; 0x1fa27cf8; 0xc4ac5665;
   0xf4292244; 0x432aff97; 0xab9423a7; 0xfc93a039;
   0x655b59c3; 0x8f0ccc92; 0xffeff47d; 0x85845dd1;
   0x6fa87e4f; 0xfe2ce6e0; 0xa3014314; 0x4e0811a1;
   0xf7537e82; 0xbd3af235; 0x2ad7d2bb; 0xeb86d391].

Definition le_bytes (width : nat) (x : N) : list N :=
  map (fun i => N.land (N.shiftr x (8 * N.of_nat i)) 0xFF) (seq 0 width).

Definition le_word (bs : list N) : N :=
  fold_right (fun b acc => b + 256 * acc) 0 bs.

(** The message followed by the bit 1, zeros up to 56 modulo 64, and the
    bit length on 8 bytes. *)
Definition pad (msg : list N) : list N :=
  let n := N.of_nat (length msg) in
  msg ++ [0x80]
      ++ repeat 0 (N.to_nat ((119 - n mod 64) mod 64))
      ++ le_bytes 8 (N.land (8 * n) 0xFFFFFFFFFFFFFFFF).

Fixpoint chunks (count width : nat) (bs : list N) : list (list N) :=
  match count with
  | O => []
  | S c => firstn width bs :: chunks c width (skipn width bs)
  end.

Definition state : Type := N * N * N * N.

Definition round (m : list N) (st : state) (i : nat) : state :=
  let '(a, b, c, d) := st in
  let '(f, g) :=
    if (i <? 16)%nat then
      (N.lor (N.land b c) (N.land (not32 b) d), i)
    else if (i <? 32)%nat then
      (N.lor (N.land d b) (N.land (not32 d) c), ((5 * i + 1) mod 16)%nat)
    else if (i <? 48)%nat then
      (N.lxor b (N.lxor c d), ((3 * i + 5) mod 16)%nat)
    else
      (N.lxor c (N.lor b (not32 d)), ((7 * i) mod 16)%nat) in
  let f' := add32 (add32 (add32 f a) (nth i sines 0)) (nth g m 0) in
  (d, add32 b (rotl32 f' (nth i shifts 0)), b, c).

Definition block (st : state) (chunk : list N) : state :=
  let m := map le_word (chunks 16 4 chunk) in
  let '(a, b, c, d) := fold_left (round m) (seq 0 64) st in
  let '(a0, b0, c0, d0) := st in
  (add32 a0 a, add32 b0 b, add32 c0 c, add32 d0 d).

Definition md5 (msg : list N) : list N :=
  let padded := pad msg in
  let '(a, b, c, d) :=
    fold_left block (chunks (length padded / 64) 64 padded)
      (0x67452301, 0xefcdab89, 0x98badcfe, 0x10325476) in
  le_bytes 4 a ++ le_bytes 4 b ++ le_bytes 4 c ++ le_bytes 4 d.

Definition hex_digit (d : N) : N := if d <? 10 then 0x30 + d else 0x57 + d.

(** [.hexdigest()] *)
Definition hexdigest (digest : list N) : str :=
  flat_map (fun b => [hex_digit (b / 16); hex_digit (b mod 16)]) digest.

End Hash.

(* ===================================================================== *)
(** ** JSON values and [json.dumps] *)
(* ===================================================================== *)

(** What [json.loads] returns.  A float is kept by its text. *)
#[warnings="-register-all"]
Inductive json : Type :=
| JNull
| JBool (b : bool)
| JInt (z : Z)
| JFloat (repr : str)
| JStr (s : str)
| JList (items : list json)
| JDict (fields : list (str * json)).

(** [json.dumps(_, ensure_ascii=False, indent=2)] *)
Module Json.

Definition hex4 (n : N) : str :=
  [Hash.hex_digit (n / 4096 mod 16); Hash.hex_digit (n / 256 mod 16);
   Hash.hex_digit (n / 16 mod 16); Hash.hex_digit (n mod 16)].

(** The escape of one character inside a string. *)
Definition escape_char (c : N) : str :=
  if c =? 0x5C then [0x5C; 0x5C]
  else if c =? 0x22 then [0x5C; 0x22]
  else if c =? 0x08 then [0x5C; 0x62]
  else if c =? 0x0C then [0x5C; 0x66]
  else if c =? 0x0A then [0x5C; 0x6E]
  else if c =? 0x0D then [0x5C; 0x72]
  else if c =? 0x09 then [0x5C; 0x74]
  else if c <? 0x20 then [0x5C; 0x75] ++ hex4 c
  else [c].

Definition encode_str (s : str) : str := [0x22] ++ flat_map escape_char s ++ [0x22].

(** [int.__repr__] *)
Definition int_repr (z : Z) : str :=
  bytes_of_string (NilZero.string_of_int (Z.to_int z)).

(** A new line and the indentation of a nesting level. *)
Definition newline_indent (level : nat) : str := 0x0A :: repeat 0x20 (2 * level).

Fixpoint dumps_at (level : nat) (j : json) : str :=
  match j with
  | JNull => [0x6E; 0x75; 0x6C; 0x6C]
  | JBool true => [0x74; 0x72; 0x75; 0x65]
  | JBool false => [0x66; 0x61; 0x6C; 0x73; 0x65]
  | JInt z => int_repr z
  | JFloat repr => repr
  | JStr s => encode_str s
  | JList [] => [0x5B; 0x5D]
  | JList (first :: rest) =>
      [0x5B] ++ newline_indent (S level) ++ dumps_at (S level) first
      ++ (fix items (l : list json) : str :=
            match l with
            | [] => []
            | x :: l' => [0x2C] ++ newline_indent (S level) ++ dumps_at (S level) x ++ items l'
            end) rest
      ++ newline_indent level ++ [0x5D]
  | JDict [] => [0x7B; 0x7D]
  | JDict ((k, v) :: rest) =>
      [0x7B] ++ newline_indent (S level) ++ encode_str k ++ [0x3A; 0x20]
      ++ dumps_at (S level) v
      ++ (fix items (l : list (str * json)) : str :=
            match l with
            | [] => []
            | (k', v') :: l' =>
                [0x2C] ++ newline_indent (S level) ++ encode_str k' ++ [0x3A; 0x20]
                ++ dumps_at (S level) v' ++ items l'
            end) rest
      ++ newline_indent level ++ [0x7D]
  end.

Definition dumps (j : json) : str := dumps_at 0 j.

End Json.

(* ===================================================================== *)
(** ** The article filter and the cleaner *)
(* ===================================================================== *)

(** [r1 r2 ... rn] *)
Definition seqs (rs : list regex) : regex := fold_right Seq Eps rs.

(** [r1|r2|...|rn] *)
Fixpoint alts (rs : list regex) : regex :=
  match rs with
  | [] => Eps
  | [r] => r
  | r :: rest => Alt r (alts rest)
  end.

(** [r'{{[^}]*}}'] *)
Definition template_re : regex :=
  seqs [lits (lit "{{"); Star (NotIn (lit "}")); lits (lit "}}")].

(** [r'\[\[Kategori:[^\]]*\]\]'] *)
Definition category_re : regex :=
  seqs [lits (lit "[[Kategori:"); Star (NotIn (lit "]")); lits (lit "]]")].

(** [r'\[http[^\]]*\]'] *)
Definition external_link_re : regex :=
  seqs [lits (lit "[http"); Star (NotIn (lit "]")); lits (lit "]")].

(** [r'<!--.*?-->'] *)
Definition comment_re : regex :=
  seqs [lits (lit "<!--"); StarLazy Dot; lits (lit "-->")].

(** [r'<ref[^>]*>.*?</ref>'] *)
Definition ref_re : regex :=
  seqs [lits (lit "<ref"); Star (NotIn (lit ">")); lits (lit ">");
        StarLazy Dot; lits (lit "</ref>")].

(** [r'\[\[(?:[^|\]]*\|)?([^\]]+)\]\]'] *)
Definition link_re : regex :=
  seqs [lits (lit "[[");
        Opt (seqs [Star (NotIn (lit "|]")); lits (lit "|")]);
        Group 1 (Plus (NotIn (lit "]")));
        lits (lit "]]")].

Definition clean_wikitext (text : str) : str :=
  let text := sub no_flags template_re [] text in
  let text := sub no_flags category_re [] text in
  let text := sub no_flags external_link_re [] text in
  let text := sub re_DOTALL comment_re [] text in
  let text := sub re_DOTALL ref_re [] text in
  let text := sub no_flags link_re [RGroup 1] text in
  strip text.

Definition is_meaningful_article (content : str) : bool :=
  let min_content_length := 300%nat in
  let min_word_count := 50%nat in
  let word_count := length (split content) in
  (min_content_length <=? length content)%nat && (min_word_count <=? word_count)%nat.

(** [r'{{[^}]*}}|\[\[Kategori:[^\]]*\]\]|\s'] *)
Definition markup_or_space_re : regex := alts [template_re; category_re; Space].

(** The patterns of [include_only_templates]. *)
Definition include_only_templates : list regex :=
  [ (* r'{{\s*(?:Include only|Kun til inklusion)' *)
    seqs [lits (lit "{{"); Star Space;
          alts [lits (lit "Include only"); lits (lit "Kun til inklusion")]];
    (* r'{{\s*(?:navbox|infoboks|Infoboks)' *)
    seqs [lits (lit "{{"); Star Space;
          alts [lits (lit "navbox"); lits (lit "infoboks"); lits (lit "Infoboks")]];
    (* r'{{\s*(?:tabel|Table)' *)
    seqs [lits (lit "{{"); Star Space;
          alts [lits (lit "tabel"); lits (lit "Table")]] ].

Definition include_only_starts : list str := [lit "}"; lit "|"; lit "</"].

(** [a / b] on two lengths, and [ratio > 0.8].  The quotient is kept as
    the pair it comes from and compared exactly, [a / b > 4 / 5]; the
    rounded quotient of the interpreter compares the same way with its
    [0.8] as long as the text has fewer than 10^15 words. *)
Definition true_div (a b : nat) : result (nat * nat) :=
  match b with
  | O => Raise ZeroDivisionError
  | S _ => Ok (a, b)
  end.

Definition gt_0_8 (ratio : nat * nat) : bool :=
  (4 * snd ratio <? 5 * fst ratio)%nat.

Section Filter.

(** The interpreter's case tables: [str.lower], and the comparison behind
    [re.IGNORECASE]. *)
Variable lower : str -> str.
Variable ieq : N -> N -> bool.

Definition is_redirect (text : str) : bool :=
  startswith (lit "#redirect") (lower (strip text)).

(** The loop over [include_only_templates]. *)
Fixpoint include_only_loop (templates : list regex) (content : str) : result bool :=
  match templates with
  | [] => Ok false
  | template :: rest =>
      if search (re_IGNORECASE ieq) template content then
        match true_div (length (findall (re_IGNORECASE ieq) template content))
                       (length (split content)) with
        | Raise e => Raise e
        | Ok template_ratio =>
            if gt_0_8 template_ratio then Ok true
            else include_only_loop rest content
        end
      else include_only_loop rest content
  end.

Definition is_include_only (content : str) : result bool :=
  let content := lstrip content in
  if existsb (fun start => startswith start content) include_only_starts then Ok true
  else
    let cleaned_content := sub no_flags markup_or_space_re [] content in
    match cleaned_content with
    | [] => Ok true
    | _ :: _ => include_only_loop include_only_templates content
    end.

End Filter.

(* ===================================================================== *)
(** ** The outside world *)
(* ===================================================================== *)

Inductive level : Type := DEBUG | INFO | WARNING | ERROR.

(** The arguments of [client.chat.completions.create]; the temperature
    [0.7] is kept as the fraction 7/10. *)
Record request : Type := Request {
  model : str;
  messages : list (str * str);
  temperature : N * N
}.

(** What the program does to its surroundings, in the order it does it. *)
Inductive event : Type :=
| Logged (lvl : level) (msg : str)
| Slept (seconds : N)
| Requested (req : request).

(** The cache directory as a map from path to text, the number of API
    calls made so far, and the events so far, oldest first. *)
Record world : Type := World {
  files : gmap str str;
  api_calls : nat;
  trace : list event
}.

(** A computation: it changes the world and returns or raises. *)
Definition M (A : Type) : Type := world -> result A * world.

Definition ret {A} (a : A) : M A := fun w => (Ok a, w).

Definition bind {A B} (m : M A) (f : A -> M B) : M B :=
  fun w =>
    match m w with
    | (Ok a, w') => f a w'
    | (Raise e, w') => (Raise e, w')
    end.

Definition raise {A} (e : exn) : M A := fun w => (Raise e, w).

(** A pure call that may raise. *)
Definition lift {A} (r : result A) : M A := fun w => (r, w).

(** [try: body  except Exception as e: handler e] *)
Definition try_except {A} (body : M A) (handler : exn -> M A) : M A :=
  fun w =>
    match body w with
    | (Ok a, w') => (Ok a, w')
    | (Raise e, w') => handler e w'
    end.

Declare Scope py_scope.
Delimit Scope py_scope with py.
Notation "x <- m ;; k" := (bind m (fun x => k))
  (at level 100, m at next level, right associativity) : py_scope.
Notation "m ;; k" := (bind m (fun _ => k))
  (at level 100, right associativity) : py_scope.
Local Open Scope py_scope.

Definition emit (e : event) : M unit :=
  fun w => (Ok tt, World (files w) (api_calls w) (trace w ++ [e])).

Definition logging_debug (msg : str) : M unit := emit (Logged DEBUG msg).
Definition logging_info (msg : str) : M unit := emit (Logged INFO msg).
Definition logging_warning (msg : str) : M unit := emit (Logged WARNING msg).
Definition logging_error (msg : str) : M unit := emit (Logged ERROR msg).

Definition time_sleep (seconds : N) : M unit := emit (Slept seconds).

Definition os_path_exists (path : str) : M bool :=
  fun w => (Ok (bool_decide (is_Some (files w !! path))), w).

(** [open(path, 'r', encoding='utf-8')] then [f.read()], on a path that
    exists.  The files of the world hold text: a file whose bytes are not
    UTF-8 is outside the model. *)
Definition read_text (path : str) : M str :=
  fun w => (Ok (default [] (files w !! path)), w).

(** [open(path, 'w', encoding='utf-8')] then [f.write(data)]: opening
    creates the file or empties it, and writing encodes the text at once;
    a text that cannot be encoded (it holds a surrogate) raises and
    leaves the file empty. *)
Definition write_text (path data : str) : M unit :=
  fun w =>
    match Hash.encode data with
    | Ok _ => (Ok tt, World (<[path := data]> (files w)) (api_calls w) (trace w))
    | Raise e => (Raise e, World (<[path := []]> (files w)) (api_calls w) (trace w))
    end.

(** [os.path.join(a, b)] *)
Definition os_path_join (a b : str) : str :=
  if startswith (lit "/") b then b
  else if bool_decide (a = []) || endswith (lit "/") a then a ++ b
  else a ++ lit "/" ++ b.

(* ===================================================================== *)
(** ** [process_article] and [generate_questions] *)
(* ===================================================================== *)

Record article : Type := Article { title : str; content : str }.

Definition max_retries : nat := 3.

Section Program.

(** The interpreter's case tables. *)
Variable lower : str -> str.
Variable ieq : N -> N -> bool.

(** [str(mwparserfromhell.parse(text))], or the exception [parse]
    raises. *)
Variable mw_parse : str -> result str.

(** [json.loads] *)
Variable json_loads : str -> result json.

(** [client.chat.completions.create]: what the [n]-th call (counting from
    0) does with a request: it raises, or returns a response whose
    [choices[0].message.content] is [None] or a text. *)
Variable chat_completions_create : nat -> request -> result (option str).

Definition process_article (title text : str) : M (option article) :=
  logging_debug (lit "Processing article: " ++ title) ;;
  if is_redirect lower text then
    logging_info (lit "Article " ++ title ++ lit " is a redirect, skipping") ;;
    ret None
  else
    match mw_parse text with
    | Raise e =>
        logging_error (lit "Error parsing wikitext for article " ++ title
                       ++ lit ": " ++ exn_str e) ;;
        ret (Some (Article title text))
    | Ok wikicode =>
        let content := clean_wikitext wikicode in
        include_only <- lift (is_include_only ieq content) ;;
        if include_only : bool then
          logging_info (lit "Article " ++ title
                        ++ lit " is an include only or primarily navbox, skipping") ;;
          ret None
        else if negb (is_meaningful_article content) then
          logging_info (lit "Article " ++ title ++ lit " is not meaningful, skipping") ;;
          ret None
        else
          logging_debug (lit "Processed article: " ++ title) ;;
          ret (Some (Article title content))
    end.

(** [hashlib.md5((title + content).encode()).hexdigest()] *)
Definition article_hash (a : article) : result str :=
  match Hash.encode (title a ++ content a) with
  | Ok bytes => Ok (Hash.hexdigest (Hash.md5 bytes))
  | Raise e => Raise e
  end.

Definition prompt (a : article) : str :=
  lit "
    Givet følgende Wikipedia-artikel, skal du generere 5 spørgsmål og deres svar baseret på indholdet. 
    Svaret skal stå direkte i den givne artikel, uden brug af anden viden. Svaret skal være kort, gerne kun 1 til 2 ord eller et tal.
    Spørgsmålet må gerne være svært, og omformuler gerne ord i teksten.
    Formater outputtet som en liste af `dict`s, hvor hver `dict` indeholder en 'spørgsmål' og en 'svar' nøgle.

    Titel: " ++ title a ++ lit "
    Indhold: " ++ slice_to 6000 (content a) ++ lit "

    Output kun listen af `dict`s, uden yderligere tekst. Sørg for at både spørgsmål og svar er på dansk.
    ".

Definition chat_request (a : article) : request :=
  Request (lit "gpt-4o")
    [(lit "system",
      lit "You are a helpful assistant that generates questions and answers based on given content in Danish.");
     (lit "user", prompt a)]
    (7, 10).

(** The call to the API: the event, the count, and the answer of the
    service. *)
Definition create (req : request) : M (option str) :=
  fun w =>
    (chat_completions_create (api_calls w) req,
     World (files w) (S (api_calls w)) (trace w ++ [Requested req])).

(** The body of the [try] of one attempt. *)
Definition attempt_body (a : article) (cache_file : str) (attempt : nat) : M json :=
  logging_debug (lit "Sending API request for article: " ++ title a
                 ++ lit " (Attempt " ++ str_of_nat (attempt + 1) ++ lit ")") ;;
  response <- create (chat_request a) ;;
  message_content <-
    match response with
    | None => raise (ValueError (lit "Empty response from API"))
    | Some text => ret text
    end ;;
  qa_pairs <- lift (json_loads message_content) ;;
  write_text cache_file (Json.dumps qa_pairs) ;;
  logging_debug (lit "Generated and cached questions for article: " ++ title a) ;;
  ret qa_pairs.

(** The [for attempt in range(max_retries)] loop and what follows it.
    [Some] is the [return] inside the [try]. *)
Fixpoint attempt_loop (a : article) (cache_file : str) (attempts : list nat) : M json :=
  match attempts with
  | [] =>
      logging_error (lit "Failed to generate Q&A pairs after " ++ str_of_nat max_retries
                     ++ lit " attempts for article: " ++ title a) ;;
      ret (JList [])
  | attempt :: rest =>
      returned <-
        try_except
          (qa_pairs <- attempt_body a cache_file attempt ;; ret (Some qa_pairs))
          (fun e =>
             logging_warning (lit "Error occurred while generating Q&A pairs: " ++ exn_str e) ;;
             (if (attempt <? max_retries - 1)%nat then time_sleep 2 else ret tt) ;;
             ret None) ;;
      match returned with
      | Some qa_pairs => ret qa_pairs
      | None => attempt_loop a cache_file rest
      end
  end.

Definition cache_path (cache_dir hash : str) : str :=
  os_path_join cache_dir (hash ++ lit ".json").

Definition generate_questions (a : article) (cache_dir : str) : M json :=
  logging_debug (lit "Generating questions for article: " ++ title a) ;;
  hash <- lift (article_hash a) ;;
  let cache_file := cache_path cache_dir hash in
  cached <- os_path_exists cache_file ;;
  if cached : bool then
    logging_debug (lit "Loading cached questions for article: " ++ title a) ;;
    text <- read_text cache_file ;;
    lift (json_loads text)
  else
    attempt_loop a cache_file (seq 0 max_retries).

End Program.

(* ===================================================================== *)
(** ** Vocabulary of the statements *)
(* ===================================================================== *)

(** The literal text every pattern of [clean_wikitext] starts with. *)
Definition markup_openers : list str :=
  [lit "{{"; lit "[[Kategori:"; lit "[http"; lit "<!--"; lit "<ref"; lit "[["].

(** A plain text: none of them occurs in it. *)
Definition no_markup (x : str) : bool :=
  forallb (fun opener => negb (contains opener x)) markup_openers.

(** [c not in cs] *)
Definition outside (cs : str) (c : N) : bool := negb (existsb (fun p => p =? c) cs).

(** Where a run of [ok] characters ends: at the end of the text, or
    before a character that is not [ok]. *)
Definition stops (ok : N -> bool) (rest : str) : Prop :=
  match rest with [] => True | c :: _ => ok c = false end.

(** What makes a step of the matcher well behaved.  Two continuations
    agree up to [s] when they agree on the texts no longer than [s]; a
    step is local when it only looks at its continuation there, strict
    when it can only succeed through its continuation, and sound when its
    answers are answers of its continuation on a rest of the text. *)
Definition agree_upto (s : str) (k1 k2 : cont) : Prop :=
  forall s' caps', (length s' <= length s)%nat -> k1 s' caps' = k2 s' caps'.

Definition local (step : str -> captures -> cont -> option answer) : Prop :=
  forall s caps k1 k2, agree_upto s k1 k2 -> step s caps k1 = step s caps k2.

Definition strict (step : str -> captures -> cont -> option answer) : Prop :=
  forall s caps, step s caps (fun _ _ => None) = None.

Definition rest_of (s s' : str) : Prop := exists m, s = m ++ s'.

Definition sound (step : str -> captures -> cont -> option answer) : Prop :=
  forall s caps k ans,
    step s caps k = Some ans ->
    exists s' caps', rest_of s s' /\ k s' caps' = Some ans.

(** The world after some more events. *)
Definition after (w : world) (es : list event) : world :=
  World (files w) (api_calls w) (trace w ++ es).

(** The value under a key of a JSON object. *)
Fixpoint dict_get (key : str) (fields : list (str * json)) : option json :=
  match fields with
  | [] => None
  | (k, v) :: rest => if bool_decide (k = key) then Some v else dict_get key rest
  end.



(** The exception an attempt ends with, given what the service did: a
    transport error, an empty response, or a body that does not parse;
    [None] when the body parses and the attempt goes on to the write. *)
Definition attempt_error (json_loads : str -> result json)
    (response : result (option str)) : option exn :=
  match response with
  | Raise e => Some e
  | Ok None => Some (ValueError (lit "Empty response from API"))
  | Ok (Some body) =>
      match json_loads body with
      | Raise e => Some e
      | Ok _ => None
      end
  end.

(** What a failed attempt leaves in the trace. *)
Definition failed_attempt (a : article) (attempt : nat) (e : exn) : list event :=
  [Logged DEBUG (lit "Sending API request for article: " ++ title a
                 ++ lit " (Attempt " ++ str_of_nat (attempt + 1) ++ lit ")");
   Requested (chat_request a);
   Logged WARNING (lit "Error occurred while generating Q&A pairs: " ++ exn_str e)]
  ++ (if (attempt <? max_retries - 1)%nat then [Slept 2] else []).

(** What a successful attempt leaves in the trace. *)
Definition successful_attempt (a : article) (attempt : nat) : list event :=
  [Logged DEBUG (lit "Sending API request for article: " ++ title a
                 ++ lit " (Attempt " ++ str_of_nat (attempt + 1) ++ lit ")");
   Requested (chat_request a);
   Logged DEBUG (lit "Generated and cached questions for article: " ++ title a)].

(** A JSON text written with ['] where JSON has the double quote. *)
Definition json_lit (s : string) : str :=
  map (fun c => if c =? 0x27 then 0x22 else c) (lit s).

(* ===================================================================== *)
(** ** Concrete surroundings for the examples *)
(* ===================================================================== *)

Module Demo.

(** The case tables on ASCII text. *)
Definition ascii_lower_char (c : N) : N :=
  if (0x41 <=? c) && (c <=? 0x5A) then c + 0x20 else c.

Definition ascii_lower (s : str) : str := map ascii_lower_char s.

Definition ascii_ieq (p c : N) : bool := ascii_lower_char p =? ascii_lower_char c.

(** A parser that gives the text back, and one that raises. *)
Definition parse_ok (text : str) : result str := Ok text.

Definition parser_error : exn := Exception "ParserError" (lit "parsing failed").

Definition parse_raises (text : str) : result str := Raise parser_error.

(** A short article and a long one. *)
Definition aarhus : article := Article (lit "Aarhus") (lit "Aarhus er en by.").

Definition long_text : str :=
  concat (repeat (lit "[[Aarhus]] er en by i [[Jylland|det jyske]]. ") 20).

Definition long_content : str :=
  strip (concat (repeat (lit "Aarhus er en by i det jyske. ") 20)).

(** Five question/answer records, the body that carries them, and a
    [json.loads] that knows this body only. *)
Definition qa (q a : string) : json :=
  JDict [(lit "spørgsmål", JStr (lit q)); (lit "svar", JStr (lit a))].

Definition five_pairs : json :=
  JList [qa "Hvad er Aarhus?" "En by";
         qa "Hvor ligger Aarhus?" "Jylland";
         qa "Hvilket land?" "Danmark";
         qa "Er Aarhus en by?" "Ja";
         qa "Hvad hedder byen?" "Aarhus"].

Definition body : str :=
  json_lit "[{'spørgsmål': 'Hvad er Aarhus?', 'svar': 'En by'}, {'spørgsmål': 'Hvor ligger Aarhus?', 'svar': 'Jylland'}, {'spørgsmål': 'Hvilket land?', 'svar': 'Danmark'}, {'spørgsmål': 'Er Aarhus en by?', 'svar': 'Ja'}, {'spørgsmål': 'Hvad hedder byen?', 'svar': 'Aarhus'}]".

Definition json_error : exn :=
  Exception "JSONDecodeError" (lit "Expecting value: line 1 column 1 (char 0)").

Definition loads (s : str) : result json :=
  if bool_decide (s = body) then Ok five_pairs
  else if bool_decide (s = Json.dumps five_pairs) then Ok five_pairs
  else Raise json_error.

(** A service that is down, and one that answers on the second call. *)
Definition connection_error : exn :=
  Exception "APIConnectionError" (lit "Connection error.").

Definition api_down (n : nat) (req : request) : result (option str) :=
  Raise connection_error.


(** The digest of [aarhus], its cache file, and three worlds: an empty
    cache, a cache that holds the answer, a cache that holds a broken
    file. *)
Definition aarhus_hash : str := lit "50ee229134a5873c0e382297b0509773".

Definition aarhus_file : str := lit "qa_cache/50ee229134a5873c0e382297b0509773.json".

Definition empty_world : world := World ∅ 0 [].

Definition cached_world : world :=
  World {[ aarhus_file := Json.dumps five_pairs ]} 0 [].

Definition broken_world : world :=
  World {[ aarhus_file := lit "[{" ]} 0 [].

End Demo.

(* ===================================================================== *)
(** ** Vocabulary of the further statements *)
(* ===================================================================== *)

(** A text made of whitespace, closed templates and category links only. *)
Inductive markup_item : Type :=
| Blank (c : N)
| Template (body : str)
| Category (body : str).

Definition item_text (it : markup_item) : str :=
  match it with
  | Blank c => [c]
  | Template body => lit "{{" ++ body ++ lit "}}"
  | Category body => lit "[[Kategori:" ++ body ++ lit "]]"
  end.

Definition item_ok (it : markup_item) : bool :=
  match it with
  | Blank c => isspace c
  | Template body => forallb (outside (lit "}")) body
  | Category body => forallb (outside (lit "]")) body
  end.

Definition items_text (its : list markup_item) : str := concat (map item_text its).

(** A marker that does not overlap itself: no proper suffix of it starts it. *)
Definition unbordered (p : str) : bool :=
  forallb (fun k => negb (startswith (skipn k p) p)) (seq 1 (length p - 1)).

(** An event that is a log record. *)
Definition is_log (e : event) : bool :=
  match e with Logged _ _ => true | _ => false end.

(** [w'] comes from [w] by at most [n] API calls, more events, and
    changes to the file [cache_file] only. *)
Definition within (cache_file : str) (n : nat) (w w' : world) : Prop :=
  (api_calls w <= api_calls w' <= api_calls w + n)%nat
  /\ (exists tr, trace w' = trace w ++ tr)
  /\ forall path, path <> cache_file -> files w' !! path = files w !! path.

(** A Unicode scalar value: a code point that is not a surrogate. *)
Definition scalar (c : N) : bool :=
  (c <? 0x110000) && negb ((0xD800 <=? c) && (c <=? 0xDFFF)).

(** A lowercase hexadecimal digit. *)
Definition hex (c : N) : bool :=
  ((0x30 <=? c) && (c <=? 0x39)) || ((0x61 <=? c) && (c <=? 0x66)).


(* ===================================================================== *)
(** ** The [articles] table *)
(* ===================================================================== *)

(** A row of [articles(id INTEGER PRIMARY KEY, title TEXT, content TEXT)]
    as the importer writes it; a table is its rows in insertion order. *)
Record db_row : Type := DbRow { row_id : Z; row_title : str; row_content : str }.

(** [SELECT title, content FROM articles WHERE id = ?] and [fetchone()] *)
Fixpoint select_article (db : list db_row) (article_id : Z) : option (str * str) :=
  match db with
  | [] => None
  | r :: rest =>
      if (row_id r =? article_id)%Z then Some (row_title r, row_content r)
      else select_article rest article_id
  end.

(** The largest id in use. *)
Fixpoint max_rowid (db : list db_row) : option Z :=
  match db with
  | [] => None
  | r :: rest =>
      Some (match max_rowid rest with
            | None => row_id r
            | Some m => Z.max (row_id r) m
            end)
  end.

(** [INSERT INTO articles (title, content) VALUES (?, ?)]: the new row
    gets 1 in an empty table and one more than the largest id
    otherwise (below the largest 64-bit id, where SQLite does so). *)
Definition insert_article (db : list db_row) (title content : str) : list db_row :=
  let new_id := match max_rowid db with None => 1%Z | Some m => (m + 1)%Z end in
  db ++ [DbRow new_id title content].

(* ===================================================================== *)
(** ** [process_articles] and the selection of ids in [main] *)
(* ===================================================================== *)

Definition TypeError (msg : str) : exn := Exception "TypeError" msg.

(** [KeyError(key)] for a key that [repr] writes between two ['] as it
    is. *)
Definition KeyError (key : str) : exn :=
  Exception "KeyError" (lit "'" ++ key ++ lit "'").

(** [type(j).__name__] *)
Definition type_name (j : json) : str :=
  match j with
  | JNull => lit "NoneType"
  | JBool _ => lit "bool"
  | JInt _ => lit "int"
  | JFloat _ => lit "float"
  | JStr _ => lit "str"
  | JList _ => lit "list"
  | JDict _ => lit "dict"
  end.

(** What [for qa in j] goes through: the items of a list, the keys of a
    dict, the characters of a string; other values are not iterable. *)
Definition iter_json (j : json) : result (list json) :=
  match j with
  | JList items => Ok items
  | JDict fields => Ok (map (fun kv => JStr (fst kv)) fields)
  | JStr s => Ok (map (fun c => JStr [c]) s)
  | _ => Raise (TypeError (lit "'" ++ type_name j ++ lit "' object is not iterable"))
  end.

(** [j[key]] for a string [key] (the messages are those of CPython 3.11). *)
Definition subscript (j : json) (key : str) : result json :=
  match j with
  | JDict fields =>
      match dict_get key fields with
      | Some v => Ok v
      | None => Raise (KeyError key)
      end
  | JList _ => Raise (TypeError (lit "list indices must be integers or slices, not str"))
  | JStr _ => Raise (TypeError (lit "string indices must be integers, not 'str'"))
  | _ => Raise (TypeError (lit "'" ++ type_name j ++ lit "' object is not subscriptable"))
  end.

(** A row of the dataset. *)
Record qa_entry : Type := QaEntry {
  entry_title : str;
  entry_context : str;
  entry_question : json;
  entry_answer : json
}.

(** The [for qa in qa_pairs] loop of one article.  The dataset is the
    list of its rows, oldest first, and [dataset.add_item] gives the
    dataset with the row appended, the values as they are. *)
Fixpoint add_items (title context : str) (items : list json) (dataset : list qa_entry)
  : result (list qa_entry) :=
  match items with
  | [] => Ok dataset
  | qa :: rest =>
      match subscript qa (lit "spørgsmål") with
      | Raise e => Raise e
      | Ok question =>
          match subscript qa (lit "svar") with
          | Raise e => Raise e
          | Ok answer =>
              add_items title context rest
                (dataset ++ [QaEntry title context question answer])
          end
      end
  end.

Section Batch.

Variable lower : str -> str.
Variable ieq : N -> N -> bool.
Variable mw_parse : str -> result str.
Variable json_loads : str -> result json.
Variable chat_completions_create : nat -> request -> result (option str).

(** The [for article_id in article_ids] loop, from a dataset on. *)
Fixpoint process_articles_from (db : list db_row) (cache_dir : str)
    (article_ids : list Z) (dataset : list qa_entry) : M (list qa_entry) :=
  match article_ids with
  | [] => ret dataset
  | article_id :: rest =>
      match select_article db article_id with
      | None => process_articles_from db cache_dir rest dataset
      | Some (title, text) =>
          article <- process_article lower ieq mw_parse title text ;;
          match article with
          | None => process_articles_from db cache_dir rest dataset
          | Some article =>
              qa_pairs <- generate_questions json_loads chat_completions_create
                            article cache_dir ;;
              items <- lift (iter_json qa_pairs) ;;
              dataset <- lift (add_items title (content article) items dataset) ;;
              process_articles_from db cache_dir rest dataset
          end
      end
  end.

Definition process_articles (db : list db_row) (article_ids : list Z) (cache_dir : str)
  : M (list qa_entry) :=
  process_articles_from db cache_dir article_ids [].

End Batch.

(** [l[:n]] for any integer [n]. *)
Definition slice_upto (n : Z) (l : list Z) : list Z :=
  if (n <? 0)%Z then firstn (Z.to_nat (Z.of_nat (length l) + n)) l
  else firstn (Z.to_nat n) l.

(** [list(range(1, n + 1))] *)
Definition range_1 (n : nat) : list Z := map Z.of_nat (seq 1 n).

Section Selection.

(** [random.seed(seed)] then [random.shuffle(l)]: the list as the
    generator leaves it. *)
Variable shuffle : Z -> list Z -> list Z.

(** The ids [main] hands to [process_articles]: [limit] is [args.limit]
    ([None] without [--limit]), [total_articles] the count of rows. *)
Definition selected_article_ids (limit : option Z) (seed : Z) (total_articles : nat)
  : list Z :=
  let article_count :=
    match limit with
    | Some n => if (n =? 0)%Z then Z.of_nat total_articles else n
    | None => Z.of_nat total_articles
    end in
  let article_ids := range_1 total_articles in
  slice_upto article_count (shuffle seed article_ids).

End Selection.

(* ===================================================================== *)
(** ** [preprocess_wikipedia_dump] *)
(* ===================================================================== *)

(** An element of the parsed export: its tag with the namespace in
    braces, its text and its children. *)
#[warnings="-register-all"]
Inductive element : Type :=
| Element (tag : str) (text : option str) (children : list element).

Definition tag_of (e : element) : str := match e with Element tag _ _ => tag end.
Definition text_of (e : element) : option str := match e with Element _ text _ => text end.
Definition children_of (e : element) : list element :=
  match e with Element _ _ children => children end.

Definition wiki : str := lit "http://www.mediawiki.org/xml/export-0.11/".

(** The tag [wiki:name] stands for. *)
Definition wiki_tag (name : str) : str := lit "{" ++ wiki ++ lit "}" ++ name.

(** [elem.find('.//wiki:name', namespaces=ns)]: the first element below
    [elem], in document order, with that tag. *)
Fixpoint find_below (tag : str) (e : element) : option element :=
  match e with
  | Element _ _ children =>
      (fix first (cs : list element) : option element :=
         match cs with
         | [] => None
         | c :: rest =>
             if bool_decide (tag_of c = tag) then Some c
             else match find_below tag c with
                  | Some found => Some found
                  | None => first rest
                  end
         end) children
  end.

(** [bool(s)] for a text that may be [None]. *)
Definition truthy (s : option str) : bool :=
  match s with
  | Some (_ :: _) => true
  | _ => false
  end.

(** What the body of [if elem.tag.endswith('page')] inserts. *)
Definition page_row (elem : element) : option (str * str) :=
  match find_below (wiki_tag (lit "title")) elem, find_below (wiki_tag (lit "text")) elem with
  | Some title_elem, Some text_elem =>
      match text_of title_elem, text_of text_elem with
      | Some title, Some content =>
          if truthy (Some title) && truthy (Some content) then Some (title, content)
          else None
      | _, _ => None
      end
  | _, _ => None
  end.

(** The [end] events of [iterparse] below and at an element, in order:
    the rows inserted, and the element as the loop leaves it
    ([elem.clear()] empties a page). *)
Fixpoint walk (e : element) : list (str * str) * element :=
  match e with
  | Element tag text children =>
      let '(rows, children') :=
        (fix each (cs : list element) : list (str * str) * list element :=
           match cs with
           | [] => ([], [])
           | c :: rest =>
               let '(rows_c, c') := walk c in
               let '(rows_rest, rest') := each rest in
               (rows_c ++ rows_rest, c' :: rest')
           end) children in
      let elem := Element tag text children' in
      if endswith (lit "page") tag then
        (rows ++ match page_row elem with Some row => [row] | None => [] end,
         Element tag None [])
      else (rows, elem)
  end.

Definition preprocess_wikipedia_dump (document : element) (db : list db_row)
  : list db_row :=
  fold_left (fun db row => insert_article db (fst row) (snd row)) (fst (walk document)) db.

(* ---------- vocabulary for the statements ---------- *)

(** The id the next insertion gets. *)
Definition next_rowid (db : list db_row) : Z :=
  match max_rowid db with None => 1%Z | Some m => (m + 1)%Z end.

(** [walk] on a list of siblings. *)
Definition walk_all (cs : list element) : list (str * str) * list element :=
  (flat_map (fun c => fst (walk c)) cs, map (fun c => snd (walk c)) cs).

(** Is [tag] the tag of the element or of an element below it? *)
Fixpoint has_tag (tag : str) (e : element) : bool :=
  match e with
  | Element t _ children =>
      bool_decide (t = tag) || existsb (has_tag tag) children
  end.

(** A page as an export has it: a title, and a revision with a text. *)
Definition simple_page (title text : option str) : element :=
  Element (wiki_tag (lit "page")) None
    [Element (wiki_tag (lit "title")) title [];
     Element (wiki_tag (lit "revision")) None
       [Element (wiki_tag (lit "text")) text []]].

(** The row of such a page, when it has one. *)
Definition simple_row (page : option str * option str) : option (str * str) :=
  match page with
  | (Some (a :: title), Some (b :: text)) => Some (a :: title, b :: text)
  | _ => None
  end.

(** The question and the answer of a record that has both. *)
Definition record_values (qa : json) : option (json * json) :=
  match qa with
  | JDict fields =>
      match dict_get (lit "spørgsmål") fields, dict_get (lit "svar") fields with
      | Some question, Some answer => Some (question, answer)
      | _, _ => None
      end
  | _ => None
  end.

(** How many articles [main] selects. *)
Definition selected_count (limit : option Z) (total_articles : nat) : nat :=
  match limit with
  | None => total_articles
  | Some n =>
      if (n =? 0)%Z then total_articles
      else if (n <? 0)%Z then Z.to_nat (Z.of_nat total_articles + n)
      else Nat.min (Z.to_nat n) total_articles
  end.

(** The question/answer values of records that all have both keys. *)
Fixpoint records (items : list json) : option (list (json * json)) :=
  match items with
  | [] => Some []
  | qa :: rest =>
      match record_values qa, records rest with
      | Some values, Some more => Some (values :: more)
      | _, _ => None
      end
  end.

(** The question/answer values of an answer whose items are all records
    with both keys; [None] for any other answer but an empty one. *)
Definition answer_rows (qa : json) : option (list (json * json)) :=
  match qa with
  | JList items => records items
  | JDict [] => Some []
  | JStr [] => Some []
  | _ => None
  end.

(** The rows a list of question/answer values gives. *)
Definition entries (title context : str) (pairs : list (json * json)) : list qa_entry :=
  map (fun qa => QaEntry title context (fst qa) (snd qa)) pairs.

(** The files of the cache directory. *)
Definition cache_file_of (cache_dir path : str) : Prop :=
  exists h, path = cache_path cache_dir h.

(** The passes of [clean_wikitext] before the link pass. *)
Definition early_passes (text : str) : str :=
  sub re_DOTALL ref_re []
    (sub re_DOTALL comment_re []
       (sub no_flags external_link_re []
          (sub no_flags category_re []
             (sub no_flags template_re [] text)))).

(** The exceptions of a record that is not a dict or lacks a key. *)
Definition bad_record (e : exn) : Prop :=
  exn_class e = "KeyError"%string \/ exn_class e = "TypeError"%string.

(** A run whose rows come after those of [dataset]. *)
Definition extend {A} (dataset : list A) (run : result (list A) * world)
  : result (list A) * world :=
  match run with
  | (Ok new, w) => (Ok (dataset ++ new), w)
  | (Raise e, w) => (Raise e, w)
  end.

(** [w'] comes from [w] by at most [max_retries] API calls for each of
    [n] articles, more events, and changes to cache files only. *)
Definition batch_frame (cache_dir : str) (n : nat) (w w' : world) : Prop :=
  (api_calls w <= api_calls w' <= api_calls w + max_retries * n)%nat
  /\ (exists tr, trace w' = trace w ++ tr)
  /\ forall path, ~ cache_file_of cache_dir path -> files w' !! path = files w !! path.

(** Where a row of the dataset comes from: an id of the batch, whose
    article is not a redirect; the context is the cleaned text of the
    article, which is meaningful, or its raw text when the parser
    raised. *)
Definition row_source (lower : str -> str) (mw_parse : str -> result str)
    (db : list db_row) (article_ids : list Z) (row : qa_entry) : Prop :=
  exists article_id text,
    In article_id article_ids
    /\ select_article db article_id = Some (entry_title row, text)
    /\ is_redirect lower text = false
    /\ match mw_parse text with
       | Ok wikicode =>
           entry_context row = clean_wikitext wikicode
           /\ is_meaningful_article (entry_context row) = true
       | Raise _ => entry_context row = text
       end.

(** A title and a content that are not empty. *)
Definition row_ok (row : str * str) : Prop := fst row <> [] /\ snd row <> [].

(** The rows of the table for [rows], with the ids from [start] on. *)
Fixpoint number_from (start : Z) (rows : list (str * str)) : list db_row :=
  match rows with
  | [] => []
  | row :: rest => DbRow start (fst row) (snd row) :: number_from (start + 1) rest
  end.

(* ===================================================================== *)
(** ** Further instances for the statements at concrete inputs *)
(* ===================================================================== *)

Module Sample.

(** A table with an article, a redirect and a stub. *)
Definition db : list db_row :=
  [DbRow 1 (lit "Aarhus") Demo.long_text;
   DbRow 2 (lit "Århus") (lit "#REDIRECT [[Aarhus]]");
   DbRow 3 (lit "Odense") (lit "Odense er en by.")].

(** The article [process_article] keeps of the first row. *)
Definition long_aarhus : article := Article (lit "Aarhus") Demo.long_content.

(** A service that answers every call with [Demo.body]. *)
Definition api_answers (n : nat) (req : request) : result (option str) :=
  Ok (Some Demo.body).




(** A service whose second record has no answer, and a [json.loads] for
    it. *)
Definition incomplete_body : str :=
  json_lit "[{'spørgsmål': 'Hvad er Aarhus?', 'svar': 'En by'}, {'spørgsmål': 'Hvor ligger Aarhus?'}]".

Definition incomplete : json :=
  JList [Demo.qa "Hvad er Aarhus?" "En by";
         JDict [(lit "spørgsmål", JStr (lit "Hvor ligger Aarhus?"))]].

Definition api_incomplete (n : nat) (req : request) : result (option str) :=
  Ok (Some incomplete_body).

Definition loads_incomplete (s : str) : result json :=
  if bool_decide (s = incomplete_body) then Ok incomplete else Raise Demo.json_error.

(** The question/answer values of [Demo.five_pairs]. *)
Definition five_values : list (json * json) :=
  [(JStr (lit "Hvad er Aarhus?"), JStr (lit "En by"));
   (JStr (lit "Hvor ligger Aarhus?"), JStr (lit "Jylland"));
   (JStr (lit "Hvilket land?"), JStr (lit "Danmark"));
   (JStr (lit "Er Aarhus en by?"), JStr (lit "Ja"));
   (JStr (lit "Hvad hedder byen?"), JStr (lit "Aarhus"))].

(** A shuffle that reverses the list, whatever the seed. *)
Definition reverse (seed : Z) (l : list Z) : list Z := rev l.

(** An export of three pages, the second without a text, and the same
    first page in the namespace of an older export. *)
Definition export : element :=
  Element (wiki_tag (lit "mediawiki")) None
    [simple_page (Some (lit "Aarhus")) (Some (lit "Aarhus er en by."));
     simple_page (Some (lit "Tom")) None;
     simple_page (Some (lit "Odense")) (Some (lit "Odense er en by."))].

Definition old_tag (name : str) : str :=
  lit "{http://www.mediawiki.org/xml/export-0.10/}" ++ name.

Definition old_export : element :=
  Element (old_tag (lit "mediawiki")) None
    [Element (old_tag (lit "page")) None
       [Element (old_tag (lit "title")) (Some (lit "Aarhus")) [];
        Element (old_tag (lit "revision")) None
          [Element (old_tag (lit "text")) (Some (lit "Aarhus er en by.")) []]]].






End Sample.

(* ===================================================================== *)
(** ** Examples *)
(* ===================================================================== *)

Example lit_utf8 : lit "København" = [75; 248; 98; 101; 110; 104; 97; 118; 110].
Proof. reflexivity. Qed.

Example split_words :
  split (lit "  en to
 tre ") = [lit "en"; lit "to"; lit "tre"].
Proof. reflexivity. Qed.

Example strip_both : strip (lit " 	a b
") = lit "a b".
Proof. reflexivity. Qed.

Example str_of_nat_3 : str_of_nat 3 = lit "3" /\ str_of_nat 120 = lit "120".
Proof. split; reflexivity. Qed.

Example sub_xstar :
  sub no_flags (Star (Lit 120)) [RText (lit "-")] (lit "abxd") = lit "-a-b--d-".
Proof. reflexivity. Qed.

Example md5_empty :
  Hash.encode (lit "") = Ok [] /\
  Hash.hexdigest (Hash.md5 []) = lit "d41d8cd98f00b204e9800998ecf8427e".
Proof. split; vm_compute; reflexivity. Qed.

Example md5_abc :
  exists bs, Hash.encode (lit "abc") = Ok bs /\
    Hash.hexdigest (Hash.md5 bs) = lit "900150983cd24fb0d6963f7d28e17f72".
Proof. eexists; split; vm_compute; reflexivity. Qed.

Example md5_two_blocks :
  exists bs,
    Hash.encode (lit "København" ++ repeat 120 120) = Ok bs /\
    length bs = 130%nat /\
    Hash.hexdigest (Hash.md5 bs) = lit "53f758238303d6a9fcef498a14a3fb74".
Proof. eexists; split; [|split]; vm_compute; reflexivity. Qed.

Example md5_full_block :
  Hash.hexdigest (Hash.md5 (repeat 97 64)) = lit "014842d480b571495a4a0363793f7367".
Proof. vm_compute; reflexivity. Qed.

Example clean_link :
  clean_wikitext (lit "[[København|byen]] er en by.") = lit "byen er en by.".
Proof. vm_compute. reflexivity. Qed.

Example clean_mixed :
  clean_wikitext (lit " {{Infoboks|a=1}}'''X''' er<ref name=a>kilde</ref> en [[by]] i [[Danmark|DK]].<!-- skjult
 --> [http://x.dk link] [[Kategori:Byer]] [[a|]]
") = lit "'''X''' er en by i DK.   a|".
Proof. vm_compute. reflexivity. Qed.

Example redirect_scenario :
  is_redirect Demo.ascii_lower (lit "#REDIRECT [[Other Page]]") = true.
Proof. reflexivity. Qed.

Example infobox_scenario :
  is_include_only Demo.ascii_ieq (clean_wikitext (lit "{{Infobox|x=1}}")) = Ok true.
Proof. vm_compute. reflexivity. Qed.

Example dumps_empty :
  Json.dumps (JList []) = json_lit "[]" /\ Json.dumps (JDict []) = json_lit "{}"
  /\ Json.dumps (JList [JList []]) = json_lit "[
  []
]".
Proof. repeat split; reflexivity. Qed.

Example dumps_scalars :
  Json.dumps (JList [JInt 1; JInt (-20); JNull; JBool true; JBool false;
                     JStr [0x61; 0x0A; 0x09; 0x01; 0xE9; 0x7F]])
  = json_lit "[
  1,
  -20,
  null,
  true,
  false,
  'a\n\t\u0001é" ++ [0x7F] ++ json_lit "'
]".
Proof. vm_compute. reflexivity. Qed.

Example dumps_escapes :
  Json.dumps (JStr [0x22; 0x5C]) = [0x22; 0x5C; 0x22; 0x5C; 0x5C; 0x22].
Proof. reflexivity. Qed.

Example dumps_nested :
  Json.dumps
    (JList [JDict [(lit "spørgsmål", JStr (lit "Hvad er Aarhus?")); (lit "svar", JStr (lit "En by"))];
            JDict [(lit "a", JList [JList []; JDict [];
                                    JList [JInt 1; JList [JInt 2; JDict [(lit "k", JList [])]]]])]])
  = json_lit "[
  {
    'spørgsmål': 'Hvad er Aarhus?',
    'svar': 'En by'
  },
  {
    'a': [
      [],
      {},
      [
        1,
        [
          2,
          {
            'k': []
          }
        ]
      ]
    ]
  }
]".
Proof. vm_compute. reflexivity. Qed.


(* ===================================================================== *)
(** ** Facts about [str] methods *)
(* ===================================================================== *)

Section StrFacts.

Implicit Types s t p ws : str.

Lemma lstrip_split s :
  exists ws, s = ws ++ lstrip s /\ forallb isspace ws = true.
Proof.
  induction s as [|c t IH]; simpl.
  - exists []. split; reflexivity.
  - destruct (isspace c) eqn:Hc.
    + destruct IH as (ws & Heq & Hws).
      exists (c :: ws). simpl. rewrite Hc, Hws. split; [congruence | reflexivity].
    + exists []. split; reflexivity.
Qed.

Lemma lstrip_length s : (length (lstrip s) <= length s)%nat.
Proof.
  induction s as [|c t IH]; simpl; [lia|].
  destruct (isspace c); simpl; lia.
Qed.

Lemma lstrip_head s c t : lstrip s = c :: t -> isspace c = false.
Proof.
  induction s as [|d u IH]; simpl; [discriminate|].
  destruct (isspace d) eqn:Hd; [exact IH|].
  intros [= <- _]. exact Hd.
Qed.

Lemma lstrip_fixed s c t : s = c :: t -> isspace c = false -> lstrip s = s.
Proof. intros -> Hc. simpl. rewrite Hc. reflexivity. Qed.

Lemma lstrip_idem s : lstrip (lstrip s) = lstrip s.
Proof.
  destruct (lstrip s) as [|c t] eqn:E; [reflexivity|].
  eapply lstrip_fixed; [reflexivity | eapply lstrip_head; eassumption].
Qed.

Lemma forallb_isspace_rev ws : forallb isspace (rev ws) = forallb isspace ws.
Proof.
  induction ws as [|c t IH]; simpl; [reflexivity|].
  rewrite forallb_app, IH. simpl. rewrite andb_true_r. apply andb_comm.
Qed.

Lemma rstrip_split s :
  exists ws, s = rstrip s ++ ws /\ forallb isspace ws = true.
Proof.
  unfold rstrip. destruct (lstrip_split (rev s)) as (ws & Heq & Hws).
  exists (rev ws). split.
  - rewrite <- rev_app_distr, <- Heq, rev_involutive. reflexivity.
  - rewrite forallb_isspace_rev. exact Hws.
Qed.

Lemma rstrip_idem s : rstrip (rstrip s) = rstrip s.
Proof. unfold rstrip. rewrite rev_involutive, lstrip_idem. reflexivity. Qed.

(** Trimming the right end leaves a text without leading whitespace
    without leading whitespace. *)
Lemma lstrip_rstrip s : lstrip s = s -> lstrip (rstrip s) = rstrip s.
Proof.
  intros Hs. destruct (rstrip_split s) as (ws & Heq & _).
  destruct (rstrip s) as [|c t] eqn:E; [reflexivity|].
  destruct (isspace c) eqn:Hc.
  - exfalso. rewrite Heq in Hs. simpl in Hs. rewrite Hc in Hs.
    pose proof (lstrip_length (t ++ ws)) as Hlen.
    rewrite Hs in Hlen. simpl in Hlen. lia.
  - simpl. rewrite Hc. reflexivity.
Qed.

Lemma strip_idem s : strip (strip s) = strip s.
Proof.
  unfold strip. rewrite (lstrip_rstrip (lstrip s) (lstrip_idem s)).
  apply rstrip_idem.
Qed.

Lemma startswith_app p s t : startswith p s = true -> startswith p (s ++ t) = true.
Proof.
  revert s. induction p as [|a p IH]; intros s; simpl; [reflexivity|].
  destruct s as [|b s]; simpl; [discriminate|].
  intros [Hab Hp]%andb_prop. rewrite Hab. simpl. apply IH, Hp.
Qed.

(** A prefix with no whitespace in it cannot reach into a whitespace
    tail. *)
Lemma startswith_before_space p s ws :
  forallb (fun c => negb (isspace c)) p = true ->
  forallb isspace ws = true ->
  startswith p (s ++ ws) = true -> startswith p s = true.
Proof.
  intros Hp Hws. revert s. induction p as [|a p IH]; intros s; simpl; [reflexivity|].
  simpl in Hp. apply andb_prop in Hp as [Ha Hp].
  destruct s as [|b s]; simpl.
  - destruct ws as [|b ws]; simpl; [discriminate|].
    simpl in Hws. apply andb_prop in Hws as [Hb _].
    intros [Hab _]%andb_prop. apply N.eqb_eq in Hab. subst b.
    rewrite Hb in Ha. discriminate.
  - intros [Hab Hrest]%andb_prop. rewrite Hab. simpl. apply IH; assumption.
Qed.

Lemma contains_cons p c s :
  contains p (c :: s) = false ->
  startswith p (c :: s) = false /\ contains p s = false.
Proof. simpl contains. intros H. apply orb_false_elim in H. exact H. Qed.

Lemma contains_nil p : p <> [] -> contains p [] = false.
Proof. destruct p; [congruence | reflexivity]. Qed.

Lemma contains_app_l p s t : contains p (s ++ t) = false -> contains p s = false.
Proof.
  induction s as [|c s IH].
  - destruct p as [|a p]; [|reflexivity]. destruct t; simpl; discriminate.
  - change ((c :: s) ++ t) with (c :: (s ++ t)). intros H.
    apply contains_cons in H as [H1 H2]. simpl contains.
    rewrite (IH H2), orb_false_r.
    destruct (startswith p (c :: s)) eqn:E; [|reflexivity].
    apply (startswith_app _ _ t) in E.
    change ((c :: s) ++ t) with (c :: (s ++ t)) in E. congruence.
Qed.

Lemma contains_app_r p s t : contains p (s ++ t) = false -> contains p t = false.
Proof.
  induction s as [|c s IH]; [trivial|].
  change ((c :: s) ++ t) with (c :: (s ++ t)). intros H.
  apply contains_cons in H as [_ H2]. exact (IH H2).
Qed.

Lemma contains_lstrip p s : contains p s = false -> contains p (lstrip s) = false.
Proof.
  destruct (lstrip_split s) as (ws & Heq & _). intros H.
  rewrite Heq in H. exact (contains_app_r _ _ _ H).
Qed.

Lemma contains_rstrip p s : contains p s = false -> contains p (rstrip s) = false.
Proof.
  destruct (rstrip_split s) as (ws & Heq & _). intros H.
  rewrite Heq in H. exact (contains_app_l _ _ _ H).
Qed.

Lemma contains_strip p s : contains p s = false -> contains p (strip s) = false.
Proof. intros H. apply contains_rstrip, contains_lstrip, H. Qed.

(** [lstrip s] is [strip s] followed by whitespace. *)
Lemma lstrip_strip_tail s :
  exists ws, lstrip s = strip s ++ ws /\ forallb isspace ws = true.
Proof. unfold strip. apply rstrip_split. Qed.

(** A text with no words is all whitespace. *)
Lemma split_acc_nil w s : split_acc w s = [] -> w = [] /\ forallb isspace s = true.
Proof.
  revert w. induction s as [|c t IH]; intros w; simpl.
  - destruct w; [auto | discriminate].
  - destruct (isspace c) eqn:Hc.
    + destruct w; [|discriminate]. intros H. destruct (IH _ H). auto.
    + intros H. destruct (IH _ H) as [Hw _]. discriminate.
Qed.

Lemma split_nil s : split s = [] -> forallb isspace s = true.
Proof. intros H. exact (proj2 (split_acc_nil _ _ H)). Qed.

End StrFacts.

(* ===================================================================== *)
(** ** Facts about the matcher *)
(* ===================================================================== *)

Section ReFacts.

Variable fl : flags.
Hypothesis case_sensitive : IGNORECASE fl = None.

(** A run of literals matches exactly where the text starts with it. *)
Lemma run_lits p s caps k :
  run fl (lits p) s caps k =
  if startswith p s then k (skipn (length p) s) caps else None.
Proof.
  revert s. induction p as [|a p IH]; intros s; [reflexivity|].
  change (lits (a :: p)) with (Seq (Lit a) (lits p)).
  destruct s as [|b s]; [reflexivity|].
  simpl. unfold lit_ok. rewrite case_sensitive.
  destruct (a =? b); simpl; [apply IH | reflexivity].
Qed.

(** A pattern headed by a run of literals cannot match where the text
    does not start with that run. *)
Lemma match_here_head p rest adv s :
  startswith p s = false ->
  match_here fl (seqs (lits p :: rest)) adv s = None.
Proof.
  intros H. unfold match_here. change (seqs (lits p :: rest)) with (Seq (lits p) (seqs rest)).
  simpl. rewrite run_lits, H. reflexivity.
Qed.

(** The two equations of [scan] at a position outside a match. *)
Lemma scan_nil r :
  scan fl r 0 [] =
  match match_here fl r false [] with
  | None => []
  | Some (caps, rest) => [Hit caps (firstn (0 - length rest) [])]
  end.
Proof. reflexivity. Qed.

Lemma scan_cons r c t :
  scan fl r 0 (c :: t) =
  match match_here fl r false (c :: t) with
  | None => Gap c :: scan fl r 0 t
  | Some (caps, rest) =>
      let taken := (length (c :: t) - length rest)%nat in
      Hit caps (firstn taken (c :: t)) ::
      match taken with
      | S n => scan fl r n t
      | O =>
          match match_here fl r true (c :: t) with
          | Some (caps2, rest2) =>
              let taken2 := (length (c :: t) - length rest2)%nat in
              Hit caps2 (firstn taken2 (c :: t)) :: scan fl r (taken2 - 1) t
          | None => Gap c :: scan fl r 0 t
          end
      end
  end.
Proof. reflexivity. Qed.

(** Where the head of the pattern occurs nowhere, the scan finds no
    match. *)
Lemma scan_head_absent p rest s :
  p <> [] -> contains p s = false ->
  scan fl (seqs (lits p :: rest)) 0 s = map (Gap) s.
Proof.
  intros Hp. induction s as [|c t IH]; intros H.
  - rewrite scan_nil, match_here_head; [reflexivity|].
    destruct p; [congruence | reflexivity].
  - apply contains_cons in H as [H1 H2].
    rewrite scan_cons, (match_here_head _ _ _ _ H1).
    simpl map. rewrite (IH H2). reflexivity.
Qed.

Lemma sub_head_absent p rest repl s :
  p <> [] -> contains p s = false ->
  sub fl (seqs (lits p :: rest)) repl s = s.
Proof.
  intros Hp H. unfold sub. rewrite (scan_head_absent _ _ _ Hp H).
  clear H. induction s as [|c t IH]; simpl; [reflexivity|]. rewrite IH. reflexivity.
Qed.

(** The equations of [run]. *)
Lemma run_NotIn cs s caps k :
  run fl (NotIn cs) s caps k = one (outside cs) s caps k.
Proof.
  simpl. unfold one, outside. destruct s as [|c t]; [reflexivity|].
  replace (existsb (fun p => lit_ok fl p c) cs) with (existsb (fun p => p =? c) cs); [reflexivity|].
  induction cs as [|p cs IH]; [reflexivity|]. simpl. unfold lit_ok at 1. rewrite case_sensitive, IH. reflexivity.
Qed.

Lemma run_Seq r1 r2 s caps k :
  run fl (Seq r1 r2) s caps k = run fl r1 s caps (fun s' caps' => run fl r2 s' caps' k).
Proof. reflexivity. Qed.

Lemma run_Eps s caps k : run fl Eps s caps k = k s caps.
Proof. reflexivity. Qed.

Lemma run_Opt r s caps k :
  run fl (Opt r) s caps k = or_else (run fl r s caps k) (k s caps).
Proof. reflexivity. Qed.

Lemma run_Star r s caps k :
  run fl (Star r) s caps k = greedy (run fl r) (length s) s caps k.
Proof. reflexivity. Qed.

Lemma run_Plus r s caps k :
  run fl (Plus r) s caps k =
  run fl r s caps (fun s' caps' => greedy (run fl r) (length s') s' caps' k).
Proof. reflexivity. Qed.

Lemma run_Group i r s caps k :
  run fl (Group i r) s caps k =
  run fl r s caps (fun s' caps' => k s' ((i, firstn (length s - length s') s) :: caps')).
Proof. reflexivity. Qed.

Lemma one_stops ok rest caps k : stops ok rest -> one ok rest caps k = None.
Proof. destruct rest as [|c t]; simpl; [reflexivity|]. intros ->. reflexivity. Qed.

(** A greedy class takes the whole run when the rest of the pattern
    accepts what follows. *)
Lemma greedy_takes_run cs xs rest caps k ans :
  forallb (outside cs) xs = true -> stops (outside cs) rest ->
  k rest caps = Some ans ->
  forall n, (length (xs ++ rest) <= n)%nat ->
  greedy (run fl (NotIn cs)) n (xs ++ rest) caps k = Some ans.
Proof.
  intros Hxs Hstop Hk. induction xs as [|x xs IH]; intros n Hn.
  - simpl app. destruct n; cbn [greedy]; [exact Hk|].
    rewrite run_NotIn, (one_stops _ _ _ _ Hstop). exact Hk.
  - simpl in Hxs. apply andb_prop in Hxs as [Hx Hxs].
    destruct n; [simpl in Hn; lia|].
    cbn [greedy app]. rewrite run_NotIn. cbn [one length]. rewrite Hx.
    replace (length (xs ++ rest) <? S (length (xs ++ rest)))%nat with true
      by (symmetry; apply Nat.ltb_lt; lia).
    rewrite (IH Hxs n); [reflexivity|]. simpl in Hn. lia.
Qed.

(** It gives up when the rest of the pattern accepts none of the
    places it can stop at. *)
Lemma greedy_gives_up cs xs rest caps k :
  forallb (outside cs) xs = true -> stops (outside cs) rest ->
  (forall i, (i <= length xs)%nat -> k (skipn i xs ++ rest) caps = None) ->
  forall n, greedy (run fl (NotIn cs)) n (xs ++ rest) caps k = None.
Proof.
  intros Hxs Hstop. induction xs as [|x xs IH]; intros Hk n.
  - simpl app. specialize (Hk 0%nat ltac:(simpl; lia)). simpl in Hk.
    destruct n; cbn [greedy]; [exact Hk|].
    rewrite run_NotIn, (one_stops _ _ _ _ Hstop). exact Hk.
  - simpl in Hxs. apply andb_prop in Hxs as [Hx Hxs].
    pose proof (Hk 0%nat ltac:(simpl; lia)) as Hk0. simpl in Hk0.
    destruct n; [exact Hk0|].
    cbn [greedy app]. rewrite run_NotIn. cbn [one length]. rewrite Hx.
    replace (length (xs ++ rest) <? S (length (xs ++ rest)))%nat with true
      by (symmetry; apply Nat.ltb_lt; lia).
    rewrite (IH Hxs); [exact Hk0|].
    intros i Hi. apply (Hk (S i)). simpl. lia.
Qed.

Lemma startswith_self p x : startswith p (p ++ x) = true.
Proof. induction p as [|a p IH]; simpl; [reflexivity|]. rewrite N.eqb_refl. exact IH. Qed.

Lemma skipn_self (p x : str) : skipn (length p) (p ++ x) = x.
Proof. induction p as [|a p IH]; simpl; [reflexivity | exact IH]. Qed.

Lemma firstn_taken (m rest : str) :
  firstn (length (m ++ rest) - length rest) (m ++ rest) = m.
Proof.
  rewrite length_app. replace (length m + length rest - length rest)%nat with (length m) by lia.
  induction m as [|a m IH]; simpl; [destruct rest; reflexivity|]. rewrite IH. reflexivity.
Qed.

(** A literal run at the head of the text. *)
Lemma run_lits_here p x caps k :
  run fl (lits p) (p ++ x) caps k = k x caps.
Proof. rewrite run_lits, startswith_self, skipn_self. reflexivity. Qed.

Lemma scan_skip r (m rest : str) : scan fl r (length m) (m ++ rest) = scan fl r 0 rest.
Proof. induction m as [|a m IH]; simpl; [destruct rest; reflexivity | exact IH]. Qed.

(** A non-empty match at the head of the text is replaced, and the scan
    goes on behind it. *)
Lemma sub_hit r repl (m rest : str) caps :
  m <> [] ->
  match_here fl r false (m ++ rest) = Some (caps, rest) ->
  sub fl r repl (m ++ rest) = expand repl caps ++ sub fl r repl rest.
Proof.
  intros Hm Hmatch. unfold sub. destruct m as [|c m]; [congruence|].
  change ((c :: m) ++ rest) with (c :: (m ++ rest)) in *.
  rewrite scan_cons, Hmatch. cbv zeta.
  replace (length (c :: m ++ rest) - length rest)%nat with (S (length m))
    by (simpl; rewrite length_app; lia).
  rewrite scan_skip. reflexivity.
Qed.

End ReFacts.

(** *** The bound on the rounds of a repetition *)

Section Rounds.

Variable fl : flags.

Lemma one_local ok : local (one ok).
Proof.
  intros [|c t] caps k1 k2 H; simpl; [reflexivity|].
  destruct (ok c); [|reflexivity]. apply H. simpl. lia.
Qed.

Lemma greedy_local step : local step -> forall n, local (greedy step n).
Proof.
  intros Hstep n. induction n as [|n IH]; intros s caps k1 k2 H; simpl.
  - apply H. lia.
  - rewrite (H s caps) by lia. f_equal.
    apply Hstep. intros s' caps' Hlen.
    destruct (length s' <? length s)%nat eqn:E; [|reflexivity].
    apply IH. intros s'' caps'' Hlen'. apply H. lia.
Qed.

Lemma lazy_local step : local step -> forall n, local (lazy step n).
Proof.
  intros Hstep n. induction n as [|n IH]; intros s caps k1 k2 H; simpl.
  - apply H. lia.
  - rewrite (H s caps) by lia. f_equal.
    apply Hstep. intros s' caps' Hlen.
    destruct (length s' <? length s)%nat eqn:E; [|reflexivity].
    apply IH. intros s'' caps'' Hlen'. apply H. lia.
Qed.

Lemma run_local r : local (run fl r).
Proof.
  induction r as [p|cs| | | |r1 IH1 r2 IH2|r1 IH1 r2 IH2|r IH|r IH|r IH|r IH|i r IH];
    intros s caps k1 k2 H; cbn [run].
  - apply one_local, H.
  - apply one_local, H.
  - apply one_local, H.
  - apply one_local, H.
  - apply H. lia.
  - apply IH1. intros s' caps' Hlen. apply IH2.
    intros s'' caps'' Hlen'. apply H. lia.
  - rewrite (IH1 s caps k1 k2 H), (IH2 s caps k1 k2 H). reflexivity.
  - apply greedy_local; assumption.
  - apply IH. intros s' caps' Hlen. apply greedy_local; [exact IH|].
    intros s'' caps'' Hlen'. apply H. lia.
  - rewrite (IH s caps k1 k2 H), (H s caps) by lia. reflexivity.
  - apply lazy_local; assumption.
  - apply IH. intros s' caps' Hlen. apply H. exact Hlen.
Qed.

Lemma one_strict ok : strict (one ok).
Proof. intros [|c t] caps; simpl; [reflexivity|]. destruct (ok c); reflexivity. Qed.

Lemma greedy_strict step : local step -> strict step -> forall n, strict (greedy step n).
Proof.
  intros Hl Hs n. induction n as [|n IH]; intros s caps; simpl; [reflexivity|].
  rewrite (Hl s caps _ (fun _ _ => None)); [rewrite Hs; reflexivity|].
  intros s' caps' _. destruct (length s' <? length s)%nat; [apply IH | reflexivity].
Qed.

Lemma lazy_strict step : local step -> strict step -> forall n, strict (lazy step n).
Proof.
  intros Hl Hs n. induction n as [|n IH]; intros s caps; simpl; [reflexivity|].
  rewrite (Hl s caps _ (fun _ _ => None)); [apply Hs|].
  intros s' caps' _. destruct (length s' <? length s)%nat; [apply IH | reflexivity].
Qed.

Lemma run_strict r : strict (run fl r).
Proof.
  induction r as [p|cs| | | |r1 IH1 r2 IH2|r1 IH1 r2 IH2|r IH|r IH|r IH|r IH|i r IH];
    intros s caps; cbn [run]; try apply one_strict; try reflexivity.
  - rewrite (run_local r1 s caps _ (fun _ _ => None)); [apply IH1|].
    intros s' caps' _. apply IH2.
  - rewrite IH1, IH2. reflexivity.
  - apply greedy_strict; [apply run_local | exact IH].
  - rewrite (run_local r s caps _ (fun _ _ => None)); [apply IH|].
    intros s' caps' _. apply greedy_strict; [apply run_local | exact IH].
  - rewrite IH. reflexivity.
  - apply lazy_strict; [apply run_local | exact IH].
  - apply IH.
Qed.

(** The bound on the rounds of a repetition is never what stops it: any
    bound from the length of the text on gives the same. *)
Lemma greedy_bound step :
  local step -> strict step ->
  forall n m s caps k,
    (length s <= n)%nat -> (length s <= m)%nat ->
    greedy step n s caps k = greedy step m s caps k.
Proof.
  intros Hl Hs n. induction n as [|n IH]; intros m s caps k Hn Hm.
  - destruct m as [|m]; [reflexivity|]. cbn [greedy].
    rewrite (Hl s caps _ (fun _ _ => None)); [rewrite Hs; reflexivity|].
    intros s' caps' _.
    destruct (length s' <? length s)%nat eqn:E; [|reflexivity].
    apply Nat.ltb_lt in E. lia.
  - destruct m as [|m].
    + cbn [greedy].
      rewrite (Hl s caps _ (fun _ _ => None)); [rewrite Hs; reflexivity|].
      intros s' caps' _.
      destruct (length s' <? length s)%nat eqn:E; [|reflexivity].
      apply Nat.ltb_lt in E. lia.
    + cbn [greedy]. f_equal. apply Hl. intros s' caps' _.
      destruct (length s' <? length s)%nat eqn:E; [|reflexivity].
      apply Nat.ltb_lt in E. apply IH; lia.
Qed.

Lemma lazy_bound step :
  local step -> strict step ->
  forall n m s caps k,
    (length s <= n)%nat -> (length s <= m)%nat ->
    lazy step n s caps k = lazy step m s caps k.
Proof.
  intros Hl Hs n. induction n as [|n IH]; intros m s caps k Hn Hm.
  - destruct m as [|m]; [reflexivity|]. cbn [lazy].
    rewrite (Hl s caps _ (fun _ _ => None)); [rewrite Hs; destruct (k s caps); reflexivity|].
    intros s' caps' _.
    destruct (length s' <? length s)%nat eqn:E; [|reflexivity].
    apply Nat.ltb_lt in E. lia.
  - destruct m as [|m].
    + cbn [lazy].
      rewrite (Hl s caps _ (fun _ _ => None)); [rewrite Hs; destruct (k s caps); reflexivity|].
      intros s' caps' _.
      destruct (length s' <? length s)%nat eqn:E; [|reflexivity].
      apply Nat.ltb_lt in E. lia.
    + cbn [lazy]. f_equal. apply Hl. intros s' caps' _.
      destruct (length s' <? length s)%nat eqn:E; [|reflexivity].
      apply Nat.ltb_lt in E. apply IH; lia.
Qed.

(** Hence the textbook equations of the two repetitions. *)
Lemma run_Star_unfold r s caps k :
  run fl (Star r) s caps k =
  or_else
    (run fl r s caps (fun s' caps' =>
       if (length s' <? length s)%nat then run fl (Star r) s' caps' k else None))
    (k s caps).
Proof.
  cbn [run]. rewrite (greedy_bound _ (run_local r) (run_strict r) _ (S (length s)))
    by lia.
  cbn [greedy]. f_equal. apply run_local. intros s' caps' _.
  destruct (length s' <? length s)%nat eqn:E; [|reflexivity].
  apply Nat.ltb_lt in E.
  apply (greedy_bound _ (run_local r) (run_strict r)); lia.
Qed.

Lemma run_StarLazy_unfold r s caps k :
  run fl (StarLazy r) s caps k =
  or_else
    (k s caps)
    (run fl r s caps (fun s' caps' =>
       if (length s' <? length s)%nat then run fl (StarLazy r) s' caps' k else None)).
Proof.
  cbn [run]. rewrite (lazy_bound _ (run_local r) (run_strict r) _ (S (length s)))
    by lia.
  cbn [lazy]. f_equal. apply run_local. intros s' caps' _.
  destruct (length s' <? length s)%nat eqn:E; [|reflexivity].
  apply Nat.ltb_lt in E.
  apply (lazy_bound _ (run_local r) (run_strict r)); lia.
Qed.

End Rounds.

(** *** What a match leaves *)

Section Answers.

Variable fl : flags.

Lemma rest_of_refl s : rest_of s s.
Proof. exists []. reflexivity. Qed.

Lemma rest_of_trans s1 s2 s3 : rest_of s1 s2 -> rest_of s2 s3 -> rest_of s1 s3.
Proof. intros [m1 ->] [m2 ->]. exists (m1 ++ m2). rewrite app_assoc. reflexivity. Qed.

Lemma rest_of_cons c t : rest_of (c :: t) t.
Proof. exists [c]. reflexivity. Qed.

Lemma one_sound ok : sound (one ok).
Proof.
  intros [|c t] caps k ans; simpl; [discriminate|].
  destruct (ok c); [|discriminate]. intros H.
  exists t, caps. split; [apply rest_of_cons | exact H].
Qed.

Lemma or_else_Some a b ans : or_else a b = Some ans -> a = Some ans \/ b = Some ans.
Proof. destruct a; simpl; auto. Qed.

Lemma greedy_sound step : sound step -> forall n, sound (greedy step n).
Proof.
  intros Hstep n. induction n as [|n IH]; intros s caps k ans; cbn [greedy].
  - intros H. exists s, caps. split; [apply rest_of_refl | exact H].
  - intros [H|H]%or_else_Some.
    + apply Hstep in H as (s' & caps' & Hrest & H).
      destruct (length s' <? length s)%nat; [|discriminate].
      apply IH in H as (s'' & caps'' & Hrest' & H).
      exists s'', caps''. split; [exact (rest_of_trans _ _ _ Hrest Hrest') | exact H].
    + exists s, caps. split; [apply rest_of_refl | exact H].
Qed.

Lemma lazy_sound step : sound step -> forall n, sound (lazy step n).
Proof.
  intros Hstep n. induction n as [|n IH]; intros s caps k ans; cbn [lazy].
  - intros H. exists s, caps. split; [apply rest_of_refl | exact H].
  - intros [H|H]%or_else_Some.
    + exists s, caps. split; [apply rest_of_refl | exact H].
    + apply Hstep in H as (s' & caps' & Hrest & H).
      destruct (length s' <? length s)%nat; [|discriminate].
      apply IH in H as (s'' & caps'' & Hrest' & H).
      exists s'', caps''. split; [exact (rest_of_trans _ _ _ Hrest Hrest') | exact H].
Qed.

Lemma run_sound r : sound (run fl r).
Proof.
  induction r as [p|cs| | | |r1 IH1 r2 IH2|r1 IH1 r2 IH2|r IH|r IH|r IH|r IH|i r IH];
    intros s caps k ans; cbn [run]; try apply one_sound.
  - intros H. exists s, caps. split; [apply rest_of_refl | exact H].
  - intros H. apply IH1 in H as (s1 & caps1 & Hrest1 & H).
    apply IH2 in H as (s2 & caps2 & Hrest2 & H).
    exists s2, caps2. split; [exact (rest_of_trans _ _ _ Hrest1 Hrest2) | exact H].
  - intros [H|H]%or_else_Some; [exact (IH1 _ _ _ _ H) | exact (IH2 _ _ _ _ H)].
  - apply greedy_sound, IH.
  - intros H. apply IH in H as (s1 & caps1 & Hrest1 & H).
    apply (greedy_sound _ IH) in H as (s2 & caps2 & Hrest2 & H).
    exists s2, caps2. split; [exact (rest_of_trans _ _ _ Hrest1 Hrest2) | exact H].
  - intros [H|H]%or_else_Some; [exact (IH _ _ _ _ H)|].
    exists s, caps. split; [apply rest_of_refl | exact H].
  - apply lazy_sound, IH.
  - intros H. apply IH in H as (s1 & caps1 & Hrest1 & H). eauto.
Qed.

(** What a match leaves is a rest of the text, so [scan] counts the
    characters of the match right. *)
Lemma match_here_rest r adv s caps rest :
  match_here fl r adv s = Some (caps, rest) ->
  exists m, s = m ++ rest /\ length m = (length s - length rest)%nat
            /\ firstn (length s - length rest) s = m.
Proof.
  unfold match_here. intros H. apply run_sound in H as (s' & caps' & [m ->] & H).
  destruct (adv && (length s' =? length (m ++ s'))%nat); [discriminate|].
  injection H as <- <-. exists m. rewrite length_app.
  replace (length m + length s' - length s')%nat with (length m) by lia.
  split; [reflexivity|]. split; [reflexivity|].
  clear. induction m as [|a m IH]; simpl; [destruct s'; reflexivity|]. rewrite IH. reflexivity.
Qed.

End Answers.


Lemma skipn_incl (l : str) i c : In c (skipn i l) -> In c l.
Proof.
  revert l. induction i as [|i IH]; intros l; [trivial|].
  destruct l as [|a l]; simpl; [trivial|]. intros H. right. exact (IH l H).
Qed.

Lemma outside_narrow c : outside (lit "|]") c = true -> outside (lit "]") c = true.
Proof.
  unfold outside. simpl. rewrite !orb_false_r. intros H.
  apply negb_true_iff in H. apply orb_false_elim in H as [_ H]. rewrite H. reflexivity.
Qed.

Lemma outside_bar c : outside (lit "|]") c = true -> (0x7C =? c) = false.
Proof.
  unfold outside. simpl. rewrite !orb_false_r. intros H.
  apply negb_true_iff in H. apply orb_false_elim in H as [H _]. exact H.
Qed.

(** The label part of a link: [([^\]]+)\]\]] on a non-empty run without
    [\]] followed by [\]\]]. *)
Lemma run_label label tail caps k ans :
  label <> [] -> forallb (outside (lit "]")) label = true ->
  k tail ((1%nat, label) :: caps) = Some ans ->
  run no_flags (seqs [Group 1 (Plus (NotIn (lit "]"))); lits (lit "]]")])
    (label ++ lit "]]" ++ tail) caps k
  = Some ans.
Proof.
  intros Hne Hlabel Hk. destruct label as [|c label]; [congruence|].
  simpl in Hlabel. apply andb_prop in Hlabel as [Hc Hlabel].
  change (seqs [Group 1 (Plus (NotIn (lit "]"))); lits (lit "]]")])
    with (Seq (Group 1 (Plus (NotIn (lit "]")))) (Seq (lits (lit "]]")) Eps)).
  rewrite run_Seq, run_Group, run_Plus, (run_NotIn no_flags eq_refl).
  change ((c :: label) ++ lit "]]" ++ tail) with (c :: (label ++ lit "]]" ++ tail)).
  cbn [one]. rewrite Hc.
  erewrite (greedy_takes_run no_flags eq_refl (lit "]") label (lit "]]" ++ tail));
    [reflexivity | exact Hlabel | reflexivity | | lia].
  rewrite run_Seq, (run_lits_here no_flags eq_refl), run_Eps.
  change (c :: label ++ lit "]]" ++ tail) with ((c :: label) ++ (lit "]]" ++ tail)).
  rewrite firstn_taken. exact Hk.
Qed.

(** The whole pattern on a link with a label. *)
Lemma match_link_label target label tail :
  forallb (outside (lit "|]")) target = true ->
  label <> [] -> forallb (outside (lit "]")) label = true ->
  match_here no_flags link_re false
    (lit "[[" ++ target ++ lit "|" ++ label ++ lit "]]" ++ tail)
  = Some ([(1%nat, label)], tail).
Proof.
  intros Htarget Hne Hlabel. unfold match_here, link_re.
  change (seqs (lits (lit "[[") :: ?rs)) with (Seq (lits (lit "[[")) (seqs rs)).
  rewrite run_Seq, (run_lits_here no_flags eq_refl).
  change (seqs (Opt ?r :: ?rs)) with (Seq (Opt r) (seqs rs)).
  rewrite run_Seq, run_Opt.
  change (seqs [Star ?r; ?l]) with (Seq (Star r) (Seq l Eps)).
  rewrite run_Seq, run_Star.
  erewrite (greedy_takes_run no_flags eq_refl (lit "|]") target
              (lit "|" ++ label ++ lit "]]" ++ tail));
    [reflexivity | exact Htarget | reflexivity | | lia].
  rewrite run_Seq, (run_lits_here no_flags eq_refl), run_Eps.
  apply (run_label _ _ _ _ _ Hne Hlabel). reflexivity.
Qed.

(** The whole pattern on a link without a label. *)
Lemma match_link_target target tail :
  target <> [] -> forallb (outside (lit "|]")) target = true ->
  match_here no_flags link_re false (lit "[[" ++ target ++ lit "]]" ++ tail)
  = Some ([(1%nat, target)], tail).
Proof.
  intros Hne Htarget. unfold match_here, link_re.
  change (seqs (lits (lit "[[") :: ?rs)) with (Seq (lits (lit "[[")) (seqs rs)).
  rewrite run_Seq, (run_lits_here no_flags eq_refl).
  change (seqs (Opt ?r :: ?rs)) with (Seq (Opt r) (seqs rs)).
  rewrite run_Seq, run_Opt.
  change (seqs [Star ?r; ?l]) with (Seq (Star r) (Seq l Eps)).
  rewrite run_Seq, run_Star.
  rewrite (greedy_gives_up no_flags eq_refl (lit "|]") target (lit "]]" ++ tail));
    [ | exact Htarget | reflexivity | ].
  - cbn [or_else]. apply run_label; [exact Hne | | reflexivity].
    apply forallb_forall. intros c Hc. apply outside_narrow.
    rewrite forallb_forall in Htarget. apply Htarget, Hc.
  - intros i Hi. rewrite run_Seq, (run_lits no_flags eq_refl).
    replace (startswith (lit "|") (skipn i target ++ lit "]]" ++ tail)) with false;
      [reflexivity|].
    symmetry. destruct (skipn i target) as [|c t] eqn:E; [reflexivity|].
    change (lit "|") with [0x7C]. cbn [app startswith].
    rewrite outside_bar; [reflexivity|].
    rewrite forallb_forall in Htarget. apply Htarget.
    apply (skipn_incl _ i). rewrite E. left. reflexivity.
Qed.

Lemma no_markup_strip x : no_markup x = true -> no_markup (strip x) = true.
Proof.
  unfold no_markup. rewrite !forallb_forall. intros H p Hp.
  specialize (H p Hp). apply negb_true_iff in H. apply negb_true_iff.
  apply contains_strip, H.
Qed.

Ltac nonempty := vm_compute; let E := fresh in intros E; discriminate E.

(** On a text without markup the cleaner only trims. *)
Lemma clean_wikitext_no_markup x : no_markup x = true -> clean_wikitext x = strip x.
Proof.
  unfold no_markup, markup_openers. simpl forallb.
  rewrite !andb_true_iff, !negb_true_iff.
  intros (H1 & H2 & H3 & H4 & H5 & H6 & _).
  unfold clean_wikitext, template_re, category_re, external_link_re,
    comment_re, ref_re, link_re.
  rewrite (sub_head_absent no_flags eq_refl (lit "{{") _ [] x ltac:(nonempty) H1).
  rewrite (sub_head_absent no_flags eq_refl (lit "[[Kategori:") _ [] x ltac:(nonempty) H2).
  rewrite (sub_head_absent no_flags eq_refl (lit "[http") _ [] x ltac:(nonempty) H3).
  rewrite (sub_head_absent re_DOTALL eq_refl (lit "<!--") _ [] x ltac:(nonempty) H4).
  rewrite (sub_head_absent re_DOTALL eq_refl (lit "<ref") _ [] x ltac:(nonempty) H5).
  rewrite (sub_head_absent no_flags eq_refl (lit "[[") _ [RGroup 1] x ltac:(nonempty) H6).
  reflexivity.
Qed.

(* ===================================================================== *)
(** ** [is_include_only] never divides by zero *)
(* ===================================================================== *)

Lemma startswith_space_head a p c t :
  isspace a = false -> isspace c = true -> startswith (a :: p) (c :: t) = false.
Proof.
  intros Ha Hc. simpl. destruct (a =? c) eqn:E; [|reflexivity].
  apply N.eqb_eq in E. congruence.
Qed.

(** On whitespace the pattern of [cleaned_content] takes one character
    at a time. *)
Lemma match_here_space c t :
  isspace c = true ->
  match_here no_flags markup_or_space_re false (c :: t) = Some ([], t).
Proof.
  intros Hc. unfold match_here, markup_or_space_re, template_re, category_re.
  cbn [alts]. cbn [run].
  change (seqs (lits (lit "{{") :: ?r)) with (Seq (lits (lit "{{")) (seqs r)).
  change (seqs (lits (lit "[[Kategori:") :: ?r))
    with (Seq (lits (lit "[[Kategori:")) (seqs r)).
  cbn [run]. rewrite !(run_lits no_flags eq_refl).
  change (lit "{{") with (0x7B :: lit "{").
  change (lit "[[Kategori:") with (0x5B :: lit "[Kategori:").
  rewrite (startswith_space_head 0x7B _ c t eq_refl Hc).
  rewrite (startswith_space_head 0x5B _ c t eq_refl Hc).
  cbn [or_else one]. rewrite Hc. reflexivity.
Qed.

Lemma sub_all_space s :
  forallb isspace s = true -> sub no_flags markup_or_space_re [] s = [].
Proof.
  unfold sub. induction s as [|c t IH]; intros H.
  - reflexivity.
  - simpl in H. apply andb_prop in H as [Hc Ht].
    rewrite scan_cons, (match_here_space c t Hc).
    cbv zeta. replace (length (c :: t) - length t)%nat with 1%nat by (simpl; lia).
    simpl flat_map. apply IH, Ht.
Qed.

Section FilterFacts.

Variable ieq : N -> N -> bool.

(** The loop raises only on a text without words. *)
Lemma include_only_loop_returns templates content :
  split content <> [] ->
  exists b, include_only_loop ieq templates content = Ok b.
Proof.
  intros Hw. induction templates as [|template rest IH]; simpl.
  - eauto.
  - destruct (search _ template content); [|exact IH].
    destruct (split content) as [|w ws] eqn:E; [congruence|].
    simpl. destruct (gt_0_8 _); [eauto | exact IH].
Qed.

Lemma is_include_only_returns content :
  exists b, is_include_only ieq content = Ok b.
Proof.
  unfold is_include_only.
  destruct (existsb _ include_only_starts); [eauto|].
  destruct (sub no_flags markup_or_space_re [] (lstrip content)) as [|c t] eqn:E; [eauto|].
  apply include_only_loop_returns. intros Hs.
  apply split_nil, sub_all_space in Hs. congruence.
Qed.

End FilterFacts.

(* ===================================================================== *)
(** ** [process_article] *)
(* ===================================================================== *)

Lemma after_after w es es' : after (after w es) es' = after w (es ++ es').
Proof. unfold after. simpl. rewrite app_assoc. reflexivity. Qed.

Lemma emit_after e w : emit e w = (Ok tt, after w [e]).
Proof. reflexivity. Qed.

Section ArticleFacts.

Variable lower : str -> str.
Variable ieq : N -> N -> bool.
Variable mw_parse : str -> result str.

(** Whitespace has no case: lowering leaves a whitespace tail alone. *)
Hypothesis lower_space_tail :
  forall s ws, forallb isspace ws = true -> lower (s ++ ws) = lower s ++ ws.

Lemma is_redirect_lstrip text :
  startswith (lit "#redirect") (lower (lstrip text)) = true ->
  is_redirect lower text = true.
Proof.
  intros H. unfold is_redirect.
  destruct (lstrip_strip_tail text) as (ws & Heq & Hws).
  rewrite Heq, (lower_space_tail _ _ Hws) in H.
  exact (startswith_before_space (lit "#redirect") _ ws eq_refl Hws H).
Qed.

Lemma process_article_redirect title text w :
  is_redirect lower text = true ->
  process_article lower ieq mw_parse title text w =
  (Ok None,
   after w [Logged DEBUG (lit "Processing article: " ++ title);
            Logged INFO (lit "Article " ++ title ++ lit " is a redirect, skipping")]).
Proof.
  intros H. unfold process_article, logging_debug, logging_info, bind, ret.
  rewrite emit_after, H, emit_after, after_after. reflexivity.
Qed.

(** C3: when the parser raises on a text that is not a redirect, the
    article is kept, with the raw text as its content. *)
Theorem parse_failure_keeps_raw_text title text e w :
  is_redirect lower text = false ->
  mw_parse text = Raise e ->
  process_article lower ieq mw_parse title text w =
  (Ok (Some (Article title text)),
   after w [Logged DEBUG (lit "Processing article: " ++ title);
            Logged ERROR (lit "Error parsing wikitext for article " ++ title
                          ++ lit ": " ++ exn_str e)]).
Proof.
  intros Hred Hparse. unfold process_article, logging_debug, logging_error, bind, ret.
  rewrite emit_after, Hred, Hparse, emit_after, after_after. reflexivity.
Qed.

(** C4: a text that starts with [#redirect] once its leading whitespace
    is trimmed and its case folded is skipped, whatever follows. *)
Theorem redirect_is_skipped title text w :
  startswith (lit "#redirect") (lower (lstrip text)) = true ->
  fst (process_article lower ieq mw_parse title text w) = Ok None.
Proof.
  intros H. rewrite process_article_redirect; [reflexivity|].
  apply is_redirect_lstrip, H.
Qed.

(** What [process_article] returns once the text is parsed. *)
Lemma process_article_parsed title text wikicode w :
  is_redirect lower text = false ->
  mw_parse text = Ok wikicode ->
  fst (process_article lower ieq mw_parse title text w) =
  match is_include_only ieq (clean_wikitext wikicode) with
  | Raise e => Raise e
  | Ok true => Ok None
  | Ok false =>
      if is_meaningful_article (clean_wikitext wikicode)
      then Ok (Some (Article title (clean_wikitext wikicode)))
      else Ok None
  end.
Proof.
  intros Hred Hparse. unfold process_article, logging_debug, logging_info, bind, ret, lift.
  rewrite emit_after, Hred, Hparse.
  destruct (is_include_only ieq (clean_wikitext wikicode)) as [[|]|e]; try reflexivity.
  destruct (is_meaningful_article (clean_wikitext wikicode)); reflexivity.
Qed.

(** C5: a parsed text whose cleaned content has fewer than 300
    characters or fewer than 50 words is skipped. *)
Theorem short_content_is_skipped title text wikicode w :
  mw_parse text = Ok wikicode ->
  (length (clean_wikitext wikicode) < 300
   \/ length (split (clean_wikitext wikicode)) < 50)%nat ->
  fst (process_article lower ieq mw_parse title text w) = Ok None.
Proof.
  intros Hparse Hshort.
  destruct (is_redirect lower text) eqn:Hred.
  - rewrite process_article_redirect; [reflexivity | exact Hred].
  - rewrite (process_article_parsed _ _ _ _ Hred Hparse).
    destruct (is_include_only_returns ieq (clean_wikitext wikicode)) as [b ->].
    destruct b; [reflexivity|].
    replace (is_meaningful_article (clean_wikitext wikicode)) with false; [reflexivity|].
    symmetry. unfold is_meaningful_article. apply andb_false_iff.
    rewrite !Nat.leb_gt. destruct Hshort; [left | right]; assumption.
Qed.

(** C10: an article kept after a successful parse carries the cleaned
    text, which has at least 300 characters and 50 words and is not
    include-only, and its raw text was not a redirect. *)
Theorem kept_article_invariant title text wikicode w a w' :
  process_article lower ieq mw_parse title text w = (Ok (Some a), w') ->
  mw_parse text = Ok wikicode ->
  a = Article title (clean_wikitext wikicode)
  /\ (300 <= length (content a))%nat
  /\ (50 <= length (split (content a)))%nat
  /\ is_include_only ieq (content a) = Ok false
  /\ is_redirect lower text = false.
Proof.
  intros Hrun Hparse.
  destruct (is_redirect lower text) eqn:Hred.
  - rewrite (process_article_redirect _ _ _ Hred) in Hrun. discriminate.
  - apply (f_equal fst) in Hrun. simpl in Hrun.
    rewrite (process_article_parsed _ _ _ _ Hred Hparse) in Hrun.
    destruct (is_include_only ieq (clean_wikitext wikicode)) as [[|]|e] eqn:Hinc;
      try discriminate.
    destruct (is_meaningful_article (clean_wikitext wikicode)) eqn:Hm; [|discriminate].
    injection Hrun as <-. simpl.
    unfold is_meaningful_article in Hm. apply andb_prop in Hm as [Hlen Hwords].
    apply Nat.leb_le in Hlen, Hwords. auto.
Qed.

End ArticleFacts.

(* ===================================================================== *)
(** ** [generate_questions] *)
(* ===================================================================== *)

Section GeneratorFacts.

Variable json_loads : str -> result json.
Variable chat_completions_create : nat -> request -> result (option str).

Local Abbreviation generate := (generate_questions json_loads chat_completions_create).
Local Abbreviation loop := (attempt_loop json_loads chat_completions_create).

Lemma attempt_fails a cache_file attempt rest e w :
  attempt_error json_loads (chat_completions_create (api_calls w) (chat_request a)) = Some e ->
  loop a cache_file (attempt :: rest) w =
  loop a cache_file rest
    (World (files w) (S (api_calls w)) (trace w ++ failed_attempt a attempt e)).
Proof.
  intros H. unfold attempt_error in H.
  cbn [attempt_loop]. unfold bind at 1. unfold try_except.
  unfold bind at 1. unfold attempt_body.
  unfold bind at 1. unfold logging_debug at 1. rewrite emit_after.
  unfold bind at 1. unfold create at 1. cbn [after api_calls files trace].
  destruct (chat_completions_create (api_calls w) (chat_request a)) as [[body|]|e'].
  - unfold bind at 1. unfold ret at 1. unfold bind at 1. unfold lift at 1.
    destruct (json_loads body) as [qa|e'']; [discriminate|].
    injection H as ->.
    unfold failed_attempt, bind, logging_warning, time_sleep, emit, ret.
    destruct (attempt <? max_retries - 1)%nat; cbn [files api_calls trace];
      rewrite <- !app_assoc; reflexivity.
  - injection H as <-.
    unfold failed_attempt, bind, raise, logging_warning, time_sleep, emit, ret.
    destruct (attempt <? max_retries - 1)%nat; cbn [files api_calls trace];
      rewrite <- !app_assoc; reflexivity.
  - injection H as ->.
    unfold failed_attempt, bind, logging_warning, time_sleep, emit, ret.
    destruct (attempt <? max_retries - 1)%nat; cbn [files api_calls trace];
      rewrite <- !app_assoc; reflexivity.
Qed.

Lemma attempt_succeeds a cache_file attempt rest body qa written w :
  chat_completions_create (api_calls w) (chat_request a) = Ok (Some body) ->
  json_loads body = Ok qa ->
  Hash.encode (Json.dumps qa) = Ok written ->
  loop a cache_file (attempt :: rest) w =
  (Ok qa,
   World (<[cache_file := Json.dumps qa]> (files w)) (S (api_calls w))
         (trace w ++ successful_attempt a attempt)).
Proof.
  intros Hresp Hbody Hwrite.
  cbn [attempt_loop]. unfold bind at 1. unfold try_except.
  unfold bind at 1. unfold attempt_body.
  unfold bind at 1. unfold logging_debug at 1. rewrite emit_after.
  unfold bind at 1. unfold create at 1. cbn [after api_calls files trace].
  rewrite Hresp. unfold bind at 1. unfold ret at 1. unfold bind at 1. unfold lift at 1.
  rewrite Hbody.
  unfold successful_attempt, bind, write_text. rewrite Hwrite.
  unfold logging_debug, emit, ret.
  cbn [files api_calls trace]. rewrite <- !app_assoc. reflexivity.
Qed.

(** An attempt whose answer parses but cannot be written: the write
    raises inside the [try], the file is left empty and the attempt
    counts as failed. *)
Lemma attempt_write_fails a cache_file attempt rest body qa e w :
  chat_completions_create (api_calls w) (chat_request a) = Ok (Some body) ->
  json_loads body = Ok qa ->
  Hash.encode (Json.dumps qa) = Raise e ->
  loop a cache_file (attempt :: rest) w =
  loop a cache_file rest
    (World (<[cache_file := []]> (files w)) (S (api_calls w))
           (trace w ++ failed_attempt a attempt e)).
Proof.
  intros Hresp Hbody Hwrite.
  cbn [attempt_loop]. unfold bind at 1. unfold try_except.
  unfold bind at 1. unfold attempt_body.
  unfold bind at 1. unfold logging_debug at 1. rewrite emit_after.
  unfold bind at 1. unfold create at 1. cbn [after api_calls files trace].
  rewrite Hresp. unfold bind at 1. unfold ret at 1. unfold bind at 1. unfold lift at 1.
  rewrite Hbody.
  unfold bind at 1. unfold write_text at 1. rewrite Hwrite.
  unfold failed_attempt, bind, logging_warning, time_sleep, emit, ret.
  destruct (attempt <? max_retries - 1)%nat; cbn [files api_calls trace];
    rewrite <- !app_assoc; reflexivity.
Qed.

(** The two ways [generate_questions] goes on after the cache lookup. *)
Lemma generate_miss a cache_dir h w :
  article_hash a = Ok h ->
  files w !! cache_path cache_dir h = None ->
  generate a cache_dir w =
  loop a (cache_path cache_dir h) (seq 0 max_retries)
    (after w [Logged DEBUG (lit "Generating questions for article: " ++ title a)]).
Proof.
  intros Hh Hmiss. unfold generate_questions, bind, logging_debug, lift, os_path_exists.
  rewrite emit_after, Hh. cbn [after files]. rewrite Hmiss.
  rewrite bool_decide_eq_false_2; [reflexivity|].
  intros [x Hx]. discriminate.
Qed.

Lemma generate_hit a cache_dir h text w :
  article_hash a = Ok h ->
  files w !! cache_path cache_dir h = Some text ->
  generate a cache_dir w =
  (json_loads text,
   after w [Logged DEBUG (lit "Generating questions for article: " ++ title a);
            Logged DEBUG (lit "Loading cached questions for article: " ++ title a)]).
Proof.
  intros Hh Hhit. unfold generate_questions, bind, logging_debug, lift, os_path_exists,
    read_text.
  rewrite emit_after, Hh. cbn [after files]. rewrite Hhit.
  rewrite bool_decide_eq_true_2 by eauto.
  rewrite emit_after, after_after. cbn [after files]. rewrite Hhit. reflexivity.
Qed.


(** C1: when all three attempts fail, [generate_questions] sleeps 2
    after the first and after the second, logs, and returns the empty
    list; no file is written. *)
Theorem all_attempts_fail_returns_empty a cache_dir h errs w :
  article_hash a = Ok h ->
  files w !! cache_path cache_dir h = None ->
  (forall k, (k < max_retries)%nat ->
     attempt_error json_loads (chat_completions_create (api_calls w + k) (chat_request a))
     = Some (errs k)) ->
  generate a cache_dir w =
  (Ok (JList []),
   World (files w) (api_calls w + 3)
     (trace w ++
      [Logged DEBUG (lit "Generating questions for article: " ++ title a);
       Logged DEBUG (lit "Sending API request for article: " ++ title a
                     ++ lit " (Attempt 1)");
       Requested (chat_request a);
       Logged WARNING (lit "Error occurred while generating Q&A pairs: "
                       ++ exn_str (errs 0%nat));
       Slept 2;
       Logged DEBUG (lit "Sending API request for article: " ++ title a
                     ++ lit " (Attempt 2)");
       Requested (chat_request a);
       Logged WARNING (lit "Error occurred while generating Q&A pairs: "
                       ++ exn_str (errs 1%nat));
       Slept 2;
       Logged DEBUG (lit "Sending API request for article: " ++ title a
                     ++ lit " (Attempt 3)");
       Requested (chat_request a);
       Logged WARNING (lit "Error occurred while generating Q&A pairs: "
                       ++ exn_str (errs 2%nat));
       Logged ERROR (lit "Failed to generate Q&A pairs after 3 attempts for article: "
                     ++ title a)])).
Proof.
  intros Hh Hmiss Hfail.
  rewrite (generate_miss _ _ _ _ Hh Hmiss).
  pose proof (Hfail 0%nat ltac:(unfold max_retries; lia)) as H0.
  pose proof (Hfail 1%nat ltac:(unfold max_retries; lia)) as H1.
  pose proof (Hfail 2%nat ltac:(unfold max_retries; lia)) as H2.
  rewrite Nat.add_0_r in H0.
  replace (api_calls w + 1)%nat with (S (api_calls w)) in H1 by lia.
  replace (api_calls w + 2)%nat with (S (S (api_calls w))) in H2 by lia.
  change (seq 0 max_retries) with [0; 1; 2]%nat.
  erewrite attempt_fails; [|exact H0]. cbn [after files api_calls trace].
  erewrite attempt_fails; [|exact H1]. cbn [files api_calls trace].
  erewrite attempt_fails; [|exact H2]. cbn [files api_calls trace].
  cbn [attempt_loop]. unfold bind, logging_error, emit, ret. cbn [files api_calls trace].
  replace (api_calls w + 3)%nat with (S (S (S (api_calls w)))) by lia.
  f_equal. f_equal. unfold after, failed_attempt. cbn [trace].
  rewrite <- !app_assoc. reflexivity.
Qed.

(** C2: the key depends on [title + content] only; with an artifact
    under that key [generate_questions] returns what it deserializes to
    and calls no API, so two calls in a row make no call either. *)
Theorem cache_hit_makes_no_api_call a1 a2 cache_dir h text w :
  title a1 ++ content a1 = title a2 ++ content a2 ->
  article_hash a1 = Ok h ->
  files w !! cache_path cache_dir h = Some text ->
  article_hash a2 = Ok h
  /\ generate a2 cache_dir w =
     (json_loads text,
      after w [Logged DEBUG (lit "Generating questions for article: " ++ title a2);
               Logged DEBUG (lit "Loading cached questions for article: " ++ title a2)])
  /\ (let (r1, w1) := generate a2 cache_dir w in
      let (r2, w2) := generate a2 cache_dir w1 in
      r2 = r1 /\ api_calls w2 = api_calls w /\ files w2 = files w).
Proof.
  intros Hkey Hh Hhit.
  assert (Hh2 : article_hash a2 = Ok h).
  { unfold article_hash in *. rewrite <- Hkey. exact Hh. }
  split; [exact Hh2|]. split; [exact (generate_hit _ _ _ _ _ Hh2 Hhit)|].
  rewrite (generate_hit _ _ _ _ _ Hh2 Hhit).
  rewrite (generate_hit a2 cache_dir h text); [|exact Hh2|exact Hhit].
  auto.
Qed.


(** C9: a cache file that does not parse makes [generate_questions]
    raise what [json.loads] raises: no attempt is made, nothing is
    returned. *)
Theorem corrupted_cache_propagates a cache_dir h text e w :
  article_hash a = Ok h ->
  files w !! cache_path cache_dir h = Some text ->
  json_loads text = Raise e ->
  generate a cache_dir w =
  (Raise e,
   after w [Logged DEBUG (lit "Generating questions for article: " ++ title a);
            Logged DEBUG (lit "Loading cached questions for article: " ++ title a)]).
Proof.
  intros Hh Hhit Hbad. rewrite (generate_hit _ _ _ _ _ Hh Hhit), Hbad. reflexivity.
Qed.

End GeneratorFacts.

(* ===================================================================== *)
(** ** [clean_wikitext] *)
(* ===================================================================== *)

(** C7: on a plain text, in which no markup opens, cleaning is
    idempotent. *)
Theorem clean_wikitext_idempotent x :
  no_markup x = true ->
  clean_wikitext (clean_wikitext x) = clean_wikitext x.
Proof.
  intros H. rewrite (clean_wikitext_no_markup x H).
  rewrite (clean_wikitext_no_markup _ (no_markup_strip x H)).
  apply strip_idem.
Qed.


(* ===================================================================== *)
(** ** The statements at concrete inputs *)
(* ===================================================================== *)

Lemma ascii_lower_space c : isspace c = true -> Demo.ascii_lower_char c = c.
Proof.
  intros H. unfold Demo.ascii_lower_char.
  destruct ((0x41 <=? c) && (c <=? 0x5A)) eqn:E; [|reflexivity].
  exfalso. apply andb_prop in E as [E1 E2].
  apply N.leb_le in E1, E2. unfold isspace in H.
  repeat (apply orb_prop in H as [H|H]);
    repeat match goal with
           | H : _ && _ = true |- _ => apply andb_prop in H as [? ?]
           | H : (_ <=? _) = true |- _ => apply N.leb_le in H
           | H : (_ =? _) = true |- _ => apply N.eqb_eq in H
           end; lia.
Qed.

Lemma ascii_lower_space_tail s ws :
  forallb isspace ws = true -> Demo.ascii_lower (s ++ ws) = Demo.ascii_lower s ++ ws.
Proof.
  intros H. unfold Demo.ascii_lower. rewrite map_app. f_equal.
  induction ws as [|c ws IH]; [reflexivity|].
  simpl in H. apply andb_prop in H as [Hc Hws].
  simpl. rewrite (ascii_lower_space c Hc), (IH Hws). reflexivity.
Qed.

Lemma clean_wikitext_idempotent_witness :
  no_markup (lit "  Aarhus er en by.  ") = true
  /\ clean_wikitext (clean_wikitext (lit "  Aarhus er en by.  "))
     = clean_wikitext (lit "  Aarhus er en by.  ").
Proof.
  split; [reflexivity|].
  apply (clean_wikitext_idempotent (lit "  Aarhus er en by.  ")). reflexivity.
Defined.

Lemma parse_failure_keeps_raw_text_witness :
  is_redirect Demo.ascii_lower (lit "Aarhus er en by.") = false
  /\ Demo.parse_raises (lit "Aarhus er en by.") = Raise Demo.parser_error
  /\ process_article Demo.ascii_lower Demo.ascii_ieq Demo.parse_raises
       (lit "Aarhus") (lit "Aarhus er en by.") Demo.empty_world
     = (Ok (Some (Article (lit "Aarhus") (lit "Aarhus er en by."))),
        after Demo.empty_world
          [Logged DEBUG (lit "Processing article: " ++ lit "Aarhus");
           Logged ERROR (lit "Error parsing wikitext for article " ++ lit "Aarhus"
                         ++ lit ": " ++ exn_str Demo.parser_error)]).
Proof.
  split; [reflexivity|]. split; [reflexivity|].
  apply (parse_failure_keeps_raw_text Demo.ascii_lower Demo.ascii_ieq Demo.parse_raises);
    reflexivity.
Defined.

Lemma redirect_is_skipped_witness :
  (forall s ws, forallb isspace ws = true ->
     Demo.ascii_lower (s ++ ws) = Demo.ascii_lower s ++ ws)
  /\ startswith (lit "#redirect")
       (Demo.ascii_lower (lstrip (lit "  #Redirect [[Aarhus]] og mere "))) = true
  /\ fst (process_article Demo.ascii_lower Demo.ascii_ieq Demo.parse_ok
            (lit "Århus") (lit "  #Redirect [[Aarhus]] og mere ") Demo.empty_world)
     = Ok None.
Proof.
  split; [exact ascii_lower_space_tail|]. split; [reflexivity|].
  apply (redirect_is_skipped Demo.ascii_lower Demo.ascii_ieq Demo.parse_ok
           ascii_lower_space_tail).
  reflexivity.
Defined.

Lemma short_content_is_skipped_witness :
  Demo.parse_ok (lit "[[Aarhus]] er en by.") = Ok (lit "[[Aarhus]] er en by.")
  /\ (length (clean_wikitext (lit "[[Aarhus]] er en by.")) < 300
      \/ length (split (clean_wikitext (lit "[[Aarhus]] er en by."))) < 50)%nat
  /\ fst (process_article Demo.ascii_lower Demo.ascii_ieq Demo.parse_ok
            (lit "Aarhus") (lit "[[Aarhus]] er en by.") Demo.empty_world)
     = Ok None.
Proof.
  assert (Hshort : (length (clean_wikitext (lit "[[Aarhus]] er en by.")) < 300
                    \/ length (split (clean_wikitext (lit "[[Aarhus]] er en by."))) < 50)%nat).
  { left. vm_compute. lia. }
  split; [reflexivity|]. split; [exact Hshort|].
  exact (short_content_is_skipped Demo.ascii_lower Demo.ascii_ieq Demo.parse_ok
           (lit "Aarhus") (lit "[[Aarhus]] er en by.") (lit "[[Aarhus]] er en by.")
           Demo.empty_world eq_refl Hshort).
Defined.

Lemma kept_article_invariant_witness :
  process_article Demo.ascii_lower Demo.ascii_ieq Demo.parse_ok
    (lit "Aarhus") Demo.long_text Demo.empty_world
  = (Ok (Some (Article (lit "Aarhus") Demo.long_content)),
     after Demo.empty_world
       [Logged DEBUG (lit "Processing article: Aarhus");
        Logged DEBUG (lit "Processed article: Aarhus")])
  /\ Demo.parse_ok Demo.long_text = Ok Demo.long_text
  /\ Article (lit "Aarhus") Demo.long_content
     = Article (lit "Aarhus") (clean_wikitext Demo.long_text)
  /\ (300 <= length Demo.long_content)%nat
  /\ (50 <= length (split Demo.long_content))%nat
  /\ is_include_only Demo.ascii_ieq Demo.long_content = Ok false
  /\ is_redirect Demo.ascii_lower Demo.long_text = false.
Proof.
  assert (Hrun :
    process_article Demo.ascii_lower Demo.ascii_ieq Demo.parse_ok
      (lit "Aarhus") Demo.long_text Demo.empty_world
    = (Ok (Some (Article (lit "Aarhus") Demo.long_content)),
       after Demo.empty_world
         [Logged DEBUG (lit "Processing article: Aarhus");
          Logged DEBUG (lit "Processed article: Aarhus")])).
  { vm_compute. reflexivity. }
  split; [exact Hrun|]. split; [reflexivity|].
  exact (kept_article_invariant Demo.ascii_lower Demo.ascii_ieq Demo.parse_ok
           (lit "Aarhus") Demo.long_text Demo.long_text Demo.empty_world _ _ Hrun eq_refl).
Defined.

Lemma all_attempts_fail_witness :
  article_hash Demo.aarhus = Ok Demo.aarhus_hash
  /\ files Demo.empty_world !! cache_path (lit "qa_cache") Demo.aarhus_hash = None
  /\ (forall k, (k < max_retries)%nat ->
        attempt_error Demo.loads
          (Demo.api_down (api_calls Demo.empty_world + k) (chat_request Demo.aarhus))
        = Some Demo.connection_error)
  /\ (let run := generate_questions Demo.loads Demo.api_down Demo.aarhus
                   (lit "qa_cache") Demo.empty_world in
      fst run = Ok (JList [])
      /\ files (snd run) = files Demo.empty_world
      /\ api_calls (snd run) = 3%nat
      /\ List.filter (fun e => match e with Slept _ => true | _ => false end)
           (trace (snd run)) = [Slept 2; Slept 2]).
Proof.
  assert (Hh : article_hash Demo.aarhus = Ok Demo.aarhus_hash)
    by (vm_compute; reflexivity).
  assert (Hmiss : files Demo.empty_world !! cache_path (lit "qa_cache") Demo.aarhus_hash
                  = None) by (vm_compute; reflexivity).
  assert (Hdown : forall k, (k < max_retries)%nat ->
            attempt_error Demo.loads
              (Demo.api_down (api_calls Demo.empty_world + k) (chat_request Demo.aarhus))
            = Some ((fun _ => Demo.connection_error) k))
    by (intros; reflexivity).
  split; [exact Hh|]. split; [exact Hmiss|]. split; [exact Hdown|].
  cbv zeta.
  rewrite (all_attempts_fail_returns_empty Demo.loads Demo.api_down Demo.aarhus
             (lit "qa_cache") Demo.aarhus_hash (fun _ => Demo.connection_error)
             Demo.empty_world Hh Hmiss Hdown).
  repeat split.
Defined.

Lemma cache_hit_makes_no_api_call_witness :
  title (Article (lit "Aar") (lit "husAarhus er en by."))
    ++ content (Article (lit "Aar") (lit "husAarhus er en by."))
  = title Demo.aarhus ++ content Demo.aarhus
  /\ article_hash (Article (lit "Aar") (lit "husAarhus er en by.")) = Ok Demo.aarhus_hash
  /\ files Demo.cached_world !! cache_path (lit "qa_cache") Demo.aarhus_hash
     = Some (Json.dumps Demo.five_pairs)
  /\ article_hash Demo.aarhus = Ok Demo.aarhus_hash
  /\ generate_questions Demo.loads Demo.api_down Demo.aarhus (lit "qa_cache")
       Demo.cached_world
     = (Demo.loads (Json.dumps Demo.five_pairs),
        after Demo.cached_world
          [Logged DEBUG (lit "Generating questions for article: " ++ title Demo.aarhus);
           Logged DEBUG (lit "Loading cached questions for article: " ++ title Demo.aarhus)])
  /\ (let (r1, w1) := generate_questions Demo.loads Demo.api_down Demo.aarhus
                        (lit "qa_cache") Demo.cached_world in
      let (r2, w2) := generate_questions Demo.loads Demo.api_down Demo.aarhus
                        (lit "qa_cache") w1 in
      r2 = r1 /\ api_calls w2 = api_calls Demo.cached_world
      /\ files w2 = files Demo.cached_world).
Proof.
  assert (Hh : article_hash (Article (lit "Aar") (lit "husAarhus er en by."))
               = Ok Demo.aarhus_hash) by (vm_compute; reflexivity).
  assert (Hhit : files Demo.cached_world !! cache_path (lit "qa_cache") Demo.aarhus_hash
                 = Some (Json.dumps Demo.five_pairs)) by (vm_compute; reflexivity).
  split; [reflexivity|]. split; [exact Hh|]. split; [exact Hhit|].
  exact (cache_hit_makes_no_api_call Demo.loads Demo.api_down
           (Article (lit "Aar") (lit "husAarhus er en by.")) Demo.aarhus
           (lit "qa_cache") Demo.aarhus_hash (Json.dumps Demo.five_pairs)
           Demo.cached_world eq_refl Hh Hhit).
Defined.



Lemma corrupted_cache_witness :
  article_hash Demo.aarhus = Ok Demo.aarhus_hash
  /\ files Demo.broken_world !! cache_path (lit "qa_cache") Demo.aarhus_hash
     = Some (lit "[{")
  /\ Demo.loads (lit "[{") = Raise Demo.json_error
  /\ generate_questions Demo.loads Demo.api_down Demo.aarhus (lit "qa_cache")
       Demo.broken_world
     = (Raise Demo.json_error,
        after Demo.broken_world
          [Logged DEBUG (lit "Generating questions for article: " ++ title Demo.aarhus);
           Logged DEBUG (lit "Loading cached questions for article: " ++ title Demo.aarhus)]).
Proof.
  assert (Hh : article_hash Demo.aarhus = Ok Demo.aarhus_hash)
    by (vm_compute; reflexivity).
  assert (Hhit : files Demo.broken_world !! cache_path (lit "qa_cache") Demo.aarhus_hash
                 = Some (lit "[{")) by (vm_compute; reflexivity).
  assert (Hbad : Demo.loads (lit "[{") = Raise Demo.json_error)
    by (vm_compute; reflexivity).
  split; [exact Hh|]. split; [exact Hhit|]. split; [exact Hbad|].
  exact (corrupted_cache_propagates Demo.loads Demo.api_down Demo.aarhus
           (lit "qa_cache") Demo.aarhus_hash (lit "[{") Demo.json_error
           Demo.broken_world Hh Hhit Hbad).
Defined.

(* ===================================================================== *)
(** ** More on the cleaner and the filter *)
(* ===================================================================== *)

Lemma run_class_then cs lead close body tail caps k ans :
  forallb (outside cs) body = true ->
  stops (outside cs) (close ++ tail) ->
  k tail caps = Some ans ->
  run no_flags (seqs [lits lead; Star (NotIn cs); lits close])
    (lead ++ body ++ close ++ tail) caps k = Some ans.
Proof.
  intros Hbody Hstop Hk.
  change (seqs [lits lead; Star (NotIn cs); lits close])
    with (Seq (lits lead) (Seq (Star (NotIn cs)) (Seq (lits close) Eps))).
  rewrite run_Seq, (run_lits_here no_flags eq_refl), run_Seq, run_Star.
  erewrite (greedy_takes_run no_flags eq_refl cs body (close ++ tail));
    [reflexivity | exact Hbody | exact Hstop | | lia].
  rewrite run_Seq, (run_lits_here no_flags eq_refl), run_Eps. exact Hk.
Qed.

Lemma match_class_then cs lead close body tail :
  forallb (outside cs) body = true ->
  stops (outside cs) (close ++ tail) ->
  match_here no_flags (seqs [lits lead; Star (NotIn cs); lits close]) false
    (lead ++ body ++ close ++ tail) = Some ([], tail).
Proof.
  intros Hbody Hstop. unfold match_here.
  apply run_class_then; [exact Hbody | exact Hstop | reflexivity].
Qed.

Lemma sub_class_then cs lead close body tail repl :
  lead <> [] ->
  forallb (outside cs) body = true ->
  stops (outside cs) (close ++ tail) ->
  sub no_flags (seqs [lits lead; Star (NotIn cs); lits close]) repl
    (lead ++ body ++ close ++ tail)
  = expand repl [] ++ sub no_flags (seqs [lits lead; Star (NotIn cs); lits close]) repl tail.
Proof.
  intros Hlead Hbody Hstop.
  pose proof (match_class_then cs lead close body tail Hbody Hstop) as Hm.
  replace (lead ++ body ++ close ++ tail) with ((lead ++ body ++ close) ++ tail) in *
    by (rewrite <- !app_assoc; reflexivity).
  apply (sub_hit no_flags); [|exact Hm].
  destruct lead; [congruence | discriminate].
Qed.

Lemma template_removed body tail :
  forallb (outside (lit "}")) body = true ->
  sub no_flags template_re [] (lit "{{" ++ body ++ lit "}}" ++ tail)
  = sub no_flags template_re [] tail.
Proof.
  intros H. unfold template_re.
  rewrite (sub_class_then (lit "}") (lit "{{") (lit "}}") body tail []);
    [reflexivity | vm_compute; discriminate | exact H | reflexivity].
Qed.

Lemma external_link_removed body tail :
  forallb (outside (lit "]")) body = true ->
  sub no_flags external_link_re [] (lit "[http" ++ body ++ lit "]" ++ tail)
  = sub no_flags external_link_re [] tail.
Proof.
  intros H. unfold external_link_re.
  rewrite (sub_class_then (lit "]") (lit "[http") (lit "]") body tail []);
    [reflexivity | vm_compute; discriminate | exact H | reflexivity].
Qed.

(** *** Lazy runs *)

Lemma startswith_long p u x :
  (length p <= length u)%nat -> startswith p (u ++ x) = startswith p u.
Proof.
  revert u. induction p as [|a p IH]; intros u H; [reflexivity|].
  destruct u as [|b u]; [simpl in H; lia|].
  simpl. rewrite IH; [reflexivity | simpl in H; lia].
Qed.

Lemma startswith_skip p u x :
  (length u <= length p)%nat -> startswith p (u ++ x) = true ->
  startswith (skipn (length u) p) x = true.
Proof.
  revert p. induction u as [|b u IH]; intros p Hlen H; [exact H|].
  destruct p as [|a p]; [simpl in Hlen; lia|].
  simpl in H. apply andb_prop in H as [_ H].
  simpl. apply IH; [simpl in Hlen; lia | exact H].
Qed.

Lemma contains_skipn p s i : contains p s = false -> contains p (skipn i s) = false.
Proof.
  intros H. rewrite <- (firstn_skipn i s) in H. exact (contains_app_r _ _ _ H).
Qed.

Lemma contains_head p s : contains p s = false -> startswith p s = false.
Proof. destruct s; simpl; intros H; apply orb_false_elim in H; apply H. Qed.

(** Before the end of a body that does not hold the closing marker, the
    marker does not start, whatever follows the marker. *)
Lemma closer_not_early p body tail i :
  unbordered p = true -> contains p body = false -> (i < length body)%nat ->
  startswith p (skipn i body ++ p ++ tail) = false.
Proof.
  intros Hp Hbody Hi.
  pose proof (contains_head _ _ (contains_skipn p body i Hbody)) as Hu.
  assert (Hne : (0 < length (skipn i body))%nat) by (rewrite length_skipn; lia).
  set (u := skipn i body) in *.
  destruct (startswith p (u ++ p ++ tail)) eqn:E; [exfalso|reflexivity].
  destruct (Nat.le_gt_cases (length p) (length u)) as [Hlong|Hshort].
  - rewrite (startswith_long _ _ _ Hlong) in E. congruence.
  - apply startswith_skip in E; [|lia].
    rewrite startswith_long in E by (rewrite length_skipn; lia).
    unfold unbordered in Hp. rewrite forallb_forall in Hp.
    specialize (Hp (length u)). rewrite E in Hp. simpl in Hp.
    assert (In (length u) (seq 1 (length p - 1))) by (apply in_seq; lia).
    specialize (Hp H). discriminate.
Qed.

Lemma run_Dot_all s caps k : run re_DOTALL Dot s caps k = one (fun _ => true) s caps k.
Proof. reflexivity. Qed.

Lemma run_StarLazy r fl s caps k :
  run fl (StarLazy r) s caps k = lazy (run fl r) (length s) s caps k.
Proof. reflexivity. Qed.

(** A lazy [.*?] stops at the first place where the rest of the pattern
    matches. *)
Lemma lazy_takes_first xs rest caps k ans :
  (forall i, (i < length xs)%nat -> k (skipn i xs ++ rest) caps = None) ->
  k rest caps = Some ans ->
  forall n, (length (xs ++ rest) <= n)%nat ->
  lazy (run re_DOTALL Dot) n (xs ++ rest) caps k = Some ans.
Proof.
  induction xs as [|x xs IH]; intros Hearly Hk n Hn.
  - simpl app. destruct n; cbn [lazy]; rewrite Hk; reflexivity.
  - destruct n; [simpl in Hn; lia|].
    pose proof (Hearly 0%nat ltac:(simpl; lia)) as H0. simpl in H0.
    cbn [lazy app]. rewrite H0. cbn [or_else].
    rewrite run_Dot_all. cbn [one length].
    replace (length (xs ++ rest) <? S (length (xs ++ rest)))%nat with true
      by (symmetry; apply Nat.ltb_lt; lia).
    apply IH; [|exact Hk|simpl in Hn; lia].
    intros i Hi. apply (Hearly (S i)). simpl. lia.
Qed.

Lemma run_until close body tail caps k ans :
  unbordered close = true -> contains close body = false ->
  k tail caps = Some ans ->
  run re_DOTALL (seqs [StarLazy Dot; lits close]) (body ++ close ++ tail) caps k
  = Some ans.
Proof.
  intros Hclose Hbody Hk.
  change (seqs [StarLazy Dot; lits close]) with (Seq (StarLazy Dot) (Seq (lits close) Eps)).
  rewrite run_Seq, run_StarLazy.
  apply lazy_takes_first; [| |lia].
  - intros i Hi. rewrite run_Seq, (run_lits re_DOTALL eq_refl).
    rewrite (closer_not_early close body tail i Hclose Hbody Hi). reflexivity.
  - rewrite run_Seq, (run_lits_here re_DOTALL eq_refl), run_Eps. exact Hk.
Qed.

Lemma lead_nonempty (lead rest : str) c t : lead = c :: t -> lead ++ rest <> [].
Proof. intros ->. discriminate. Qed.

Lemma comment_removed body tail :
  contains (lit "-->") body = false ->
  sub re_DOTALL comment_re [] (lit "<!--" ++ body ++ lit "-->" ++ tail)
  = sub re_DOTALL comment_re [] tail.
Proof.
  intros H.
  assert (Hm : match_here re_DOTALL comment_re false
                 ((lit "<!--" ++ body ++ lit "-->") ++ tail) = Some ([], tail)).
  { rewrite <- !app_assoc. unfold match_here, comment_re.
    change (seqs (lits (lit "<!--") :: ?rs)) with (Seq (lits (lit "<!--")) (seqs rs)).
    rewrite run_Seq, (run_lits_here re_DOTALL eq_refl).
    apply run_until; [reflexivity | exact H | reflexivity]. }
  assert (Hnn : lit "<!--" ++ body ++ lit "-->" <> [])
    by (apply (lead_nonempty _ _ 0x3C (lit "!--")); reflexivity).
  replace (lit "<!--" ++ body ++ lit "-->" ++ tail)
    with ((lit "<!--" ++ body ++ lit "-->") ++ tail)
    by (rewrite <- !app_assoc; reflexivity).
  rewrite (sub_hit re_DOTALL _ [] _ _ _ Hnn Hm).
  reflexivity.
Qed.

Lemma ref_removed attrs body tail :
  forallb (outside (lit ">")) attrs = true ->
  contains (lit "</ref>") body = false ->
  sub re_DOTALL ref_re [] (lit "<ref" ++ attrs ++ lit ">" ++ body ++ lit "</ref>" ++ tail)
  = sub re_DOTALL ref_re [] tail.
Proof.
  intros Hattrs Hbody.
  assert (Hm : match_here re_DOTALL ref_re false
                 ((lit "<ref" ++ attrs ++ lit ">" ++ body ++ lit "</ref>") ++ tail)
               = Some ([], tail)).
  { rewrite <- !app_assoc. unfold match_here, ref_re.
    change (seqs (lits (lit "<ref") :: ?rs)) with (Seq (lits (lit "<ref")) (seqs rs)).
    rewrite run_Seq, (run_lits_here re_DOTALL eq_refl).
    change (seqs (Star ?r :: ?rs)) with (Seq (Star r) (seqs rs)).
    rewrite run_Seq, run_Star.
    erewrite (greedy_takes_run re_DOTALL eq_refl (lit ">") attrs
                (lit ">" ++ body ++ lit "</ref>" ++ tail));
      [reflexivity | exact Hattrs | reflexivity | | lia].
    change (seqs (lits (lit ">") :: ?rs)) with (Seq (lits (lit ">")) (seqs rs)).
    rewrite run_Seq, (run_lits_here re_DOTALL eq_refl).
    apply run_until; [reflexivity | exact Hbody | reflexivity]. }
  assert (Hnn : lit "<ref" ++ attrs ++ lit ">" ++ body ++ lit "</ref>" <> [])
    by (apply (lead_nonempty _ _ 0x3C (lit "ref")); reflexivity).
  replace (lit "<ref" ++ attrs ++ lit ">" ++ body ++ lit "</ref>" ++ tail)
    with ((lit "<ref" ++ attrs ++ lit ">" ++ body ++ lit "</ref>") ++ tail)
    by (rewrite <- !app_assoc; reflexivity).
  rewrite (sub_hit re_DOTALL _ [] _ _ _ Hnn Hm).
  reflexivity.
Qed.

(** *** Only markup *)

Lemma match_item_here it tail :
  item_ok it = true ->
  match_here no_flags markup_or_space_re false (item_text it ++ tail) = Some ([], tail).
Proof.
  intros Hok. destruct it as [c|body|body]; simpl in Hok.
  - apply match_here_space, Hok.
  - unfold match_here, markup_or_space_re. cbn [alts]. cbn [run item_text].
    rewrite <- !app_assoc. unfold template_re.
    rewrite (run_class_then (lit "}") (lit "{{") (lit "}}") body tail [] _ ([], tail));
      [reflexivity | exact Hok | reflexivity | reflexivity].
  - unfold match_here, markup_or_space_re. cbn [alts]. cbn [run item_text].
    rewrite <- !app_assoc. unfold template_re at 1.
    change (seqs (lits (lit "{{") :: ?rs)) with (Seq (lits (lit "{{")) (seqs rs)).
    rewrite run_Seq, (run_lits no_flags eq_refl).
    change (startswith (lit "{{") (lit "[[Kategori:" ++ body ++ lit "]]" ++ tail)) with false.
    cbn [or_else]. unfold category_re.
    rewrite (run_class_then (lit "]") (lit "[[Kategori:") (lit "]]") body tail [] _ ([], tail));
      [reflexivity | exact Hok | reflexivity | reflexivity].
Qed.

Lemma item_text_nonempty it : item_text it <> [].
Proof. destruct it; discriminate. Qed.

Lemma sub_items its :
  forallb item_ok its = true ->
  sub no_flags markup_or_space_re [] (items_text its) = [].
Proof.
  induction its as [|it its IH]; intros H; [reflexivity|].
  simpl in H. apply andb_prop in H as [Hit Hits].
  unfold items_text. cbn [map concat].
  rewrite (sub_hit no_flags _ [] _ _ _ (item_text_nonempty it) (match_item_here it _ Hit)).
  exact (IH Hits).
Qed.

Lemma lstrip_items its :
  forallb item_ok its = true ->
  exists its', lstrip (items_text its) = items_text its' /\ forallb item_ok its' = true.
Proof.
  induction its as [|it its IH]; intros H.
  - exists []. split; reflexivity.
  - simpl in H. apply andb_prop in H as [Hit Hits].
    destruct it as [c|body|body].
    + simpl in Hit. unfold items_text. cbn [map concat item_text app lstrip].
      rewrite Hit. exact (IH Hits).
    + exists (Template body :: its). split; [reflexivity|]. cbn [forallb]. rewrite Hit, Hits. reflexivity.
    + exists (Category body :: its). split; [reflexivity|]. cbn [forallb]. rewrite Hit, Hits. reflexivity.
Qed.

(** X2: a text made only of whitespace, closed templates and category
    links is include-only, whatever the case table. *)
Theorem only_markup_is_include_only ieq its :
  forallb item_ok its = true ->
  is_include_only ieq (items_text its) = Ok true.
Proof.
  intros H. unfold is_include_only.
  destruct (lstrip_items its H) as (its' & -> & H').
  destruct (existsb _ include_only_starts); [reflexivity|].
  rewrite (sub_items its' H'). reflexivity.
Qed.

(** *** Trimmed output *)

Lemma strip_head s c t : strip s = c :: t -> isspace c = false.
Proof.
  intros H. apply (lstrip_head (strip s) c t).
  unfold strip. rewrite lstrip_rstrip by apply lstrip_idem. exact H.
Qed.

Lemma strip_last s t c : strip s = t ++ [c] -> isspace c = false.
Proof.
  unfold strip, rstrip. intros H.
  apply (f_equal (@rev N)) in H. rewrite rev_involutive, rev_app_distr in H. simpl in H.
  exact (lstrip_head _ _ _ H).
Qed.

(** X3: the cleaned text neither starts nor ends with whitespace. *)
Theorem clean_wikitext_is_trimmed x :
  (forall c t, clean_wikitext x = c :: t -> isspace c = false)
  /\ (forall t c, clean_wikitext x = t ++ [c] -> isspace c = false).
Proof.
  unfold clean_wikitext. cbv zeta. split; intros a b H.
  - exact (strip_head _ _ _ H).
  - exact (strip_last _ _ _ H).
Qed.

(** *** Redirects and outer whitespace *)

Lemma lstrip_spaces ws s : forallb isspace ws = true -> lstrip (ws ++ s) = lstrip s.
Proof.
  induction ws as [|c ws IH]; intros H; [reflexivity|].
  simpl in H. apply andb_prop in H as [Hc Hws]. simpl. rewrite Hc. exact (IH Hws).
Qed.

Lemma rstrip_spaces s ws : forallb isspace ws = true -> rstrip (s ++ ws) = rstrip s.
Proof.
  intros H. unfold rstrip. rewrite rev_app_distr, lstrip_spaces; [reflexivity|].
  rewrite forallb_isspace_rev. exact H.
Qed.

Lemma strip_spaces ws1 s ws2 :
  forallb isspace ws1 = true -> forallb isspace ws2 = true ->
  strip (ws1 ++ s ++ ws2) = strip s.
Proof.
  intros H1 H2. unfold strip. rewrite (lstrip_spaces _ _ H1).
  destruct (lstrip_split s) as (ws & Hs & Hws).
  destruct (lstrip s) as [|c u] eqn:E.
  - rewrite app_nil_r in Hs. subst s.
    rewrite <- (app_nil_r (ws ++ ws2)), lstrip_spaces; [reflexivity|].
    rewrite forallb_app, Hws, H2. reflexivity.
  - rewrite Hs at 1. rewrite <- app_assoc, (lstrip_spaces _ _ Hws).
    change ((c :: u) ++ ws2) with (c :: (u ++ ws2)).
    rewrite (lstrip_fixed (c :: u ++ ws2) c (u ++ ws2) eq_refl (lstrip_head _ _ _ E)).
    change (c :: u ++ ws2) with ((c :: u) ++ ws2). apply rstrip_spaces, H2.
Qed.

(** X4: whitespace around a text does not change whether it is a
    redirect. *)
Theorem is_redirect_outer_whitespace lower ws1 text ws2 :
  forallb isspace ws1 = true -> forallb isspace ws2 = true ->
  is_redirect lower (ws1 ++ text ++ ws2) = is_redirect lower text.
Proof. intros H1 H2. unfold is_redirect. rewrite (strip_spaces _ _ _ H1 H2). reflexivity. Qed.

(** *** Process_article never raises *)

Lemma process_article_returns lower ieq mw_parse title text w :
  exists r logs,
    process_article lower ieq mw_parse title text w = (Ok r, after w logs)
    /\ forallb is_log logs = true.
Proof.
  unfold process_article, logging_debug, logging_info, logging_error, bind, ret, lift.
  rewrite emit_after.
  destruct (is_redirect lower text).
  - rewrite emit_after, after_after. eexists _, _. split; reflexivity.
  - destruct (mw_parse text) as [wikicode|e].
    + destruct (is_include_only_returns ieq (clean_wikitext wikicode)) as [b ->].
      destruct b; [|destruct (is_meaningful_article (clean_wikitext wikicode))];
        cbn [negb]; rewrite emit_after, after_after; eexists _, _; split; reflexivity.
    + rewrite emit_after, after_after. eexists _, _. split; reflexivity.
Qed.

(* ===================================================================== *)
(** ** More on [generate_questions] *)
(* ===================================================================== *)

Lemma within_refl f w : within f 0 w w.
Proof. repeat split; try lia. exists []. rewrite app_nil_r. reflexivity. Qed.

Lemma within_after f w es : within f 0 w (after w es).
Proof. repeat split; simpl; try lia. exists es. reflexivity. Qed.

Lemma within_trans f n m w1 w2 w3 :
  within f n w1 w2 -> within f m w2 w3 -> within f (n + m) w1 w3.
Proof.
  intros (Ha & [t1 Ht1] & Hf1) (Hb & [t2 Ht2] & Hf2). repeat split; try lia.
  - exists (t1 ++ t2). rewrite Ht2, Ht1, app_assoc. reflexivity.
  - intros path Hp. rewrite (Hf2 path Hp). apply Hf1, Hp.
Qed.

Section GeneratorMore.

Variable json_loads : str -> result json.
Variable chat_completions_create : nat -> request -> result (option str).

Local Abbreviation generate := (generate_questions json_loads chat_completions_create).
Local Abbreviation loop := (attempt_loop json_loads chat_completions_create).

Lemma attempt_cases response :
  (exists e, attempt_error json_loads response = Some e)
  \/ (exists body qa, response = Ok (Some body) /\ json_loads body = Ok qa).
Proof.
  destruct response as [[body|]|e]; simpl; eauto.
  destruct (json_loads body) as [qa|e] eqn:E; eauto.
Qed.

Lemma loop_within a cache_file attempts :
  forall w, exists v w',
    loop a cache_file attempts w = (Ok v, w')
    /\ within cache_file (length attempts) w w'.
Proof.
  induction attempts as [|attempt rest IH]; intros w.
  - eexists _, _. split; [reflexivity|].
    unfold logging_error. simpl. apply (within_after cache_file w).
  - destruct (attempt_cases (chat_completions_create (api_calls w) (chat_request a)))
      as [[e He]|(body & qa & Hresp & Hbody)].
    + rewrite (attempt_fails _ _ _ _ _ _ _ _ He).
      destruct (IH (World (files w) (S (api_calls w))
                      (trace w ++ failed_attempt a attempt e))) as (v & w' & Hrun & Hw).
      exists v, w'. split; [exact Hrun|].
      change (length (attempt :: rest)) with (1 + length rest)%nat.
      refine (within_trans _ _ _ _ _ _ _ Hw).
      repeat split; simpl; try lia. eexists. reflexivity.
    + destruct (Hash.encode (Json.dumps qa)) as [written|e] eqn:Hwrite.
      * rewrite (attempt_succeeds _ _ _ _ _ _ _ _ _ _ Hresp Hbody Hwrite).
        eexists _, _. split; [reflexivity|].
        repeat split; simpl; try lia.
        -- eexists. reflexivity.
        -- intros path Hp. apply lookup_insert_ne. congruence.
      * rewrite (attempt_write_fails _ _ _ _ _ _ _ _ _ _ Hresp Hbody Hwrite).
        destruct (IH (World (<[cache_file := []]> (files w)) (S (api_calls w))
                        (trace w ++ failed_attempt a attempt e)))
          as (v & w' & Hrun & Hw).
        exists v, w'. split; [exact Hrun|].
        change (length (attempt :: rest)) with (1 + length rest)%nat.
        refine (within_trans _ _ _ _ _ _ _ Hw).
        repeat split; simpl; try lia.
        -- eexists. reflexivity.
        -- intros path Hp. apply lookup_insert_ne. congruence.
Qed.

Lemma generate_hash_raises a cache_dir e w :
  article_hash a = Raise e ->
  generate a cache_dir w =
  (Raise e, after w [Logged DEBUG (lit "Generating questions for article: " ++ title a)]).
Proof.
  intros H. unfold generate_questions, bind, logging_debug, lift.
  rewrite emit_after, H. reflexivity.
Qed.

Lemma generate_within a cache_dir w :
  let (r, w') := generate a cache_dir w in
  (api_calls w <= api_calls w' <= api_calls w + max_retries)%nat
  /\ (exists tr, trace w' = trace w ++ tr)
  /\ forall path,
       (forall h, article_hash a = Ok h -> path <> cache_path cache_dir h) ->
       files w' !! path = files w !! path.
Proof.
  destruct (article_hash a) as [h|e] eqn:Hh.
  - destruct (files w !! cache_path cache_dir h) as [text|] eqn:Hlook.
    + rewrite (generate_hit _ _ _ _ _ _ _ Hh Hlook).
      simpl. repeat split; try lia. eexists. reflexivity.
    + rewrite (generate_miss _ _ _ _ _ _ Hh Hlook).
      destruct (loop_within a (cache_path cache_dir h) (seq 0 max_retries)
                  (after w [Logged DEBUG (lit "Generating questions for article: " ++ title a)]))
        as (v & w' & -> & Hw).
      pose proof (within_trans _ _ _ _ _ _ (within_after (cache_path cache_dir h) w _) Hw)
        as (Hc & Ht & Hf).
      rewrite length_seq in Hc. simpl in Hc.
      repeat split; try lia; [exact Ht|].
      intros path Hp. apply Hf, Hp. reflexivity.
  - rewrite (generate_hash_raises _ _ _ _ Hh). simpl. repeat split; try lia.
    eexists. reflexivity.
Qed.

(** X13: when the digest exists and the cache has no file for it,
    [generate_questions] returns: no error of the service or of the
    parsing of an answer gets out of it. *)
Theorem generate_miss_returns a cache_dir h w :
  article_hash a = Ok h ->
  files w !! cache_path cache_dir h = None ->
  exists v w', generate a cache_dir w = (Ok v, w').
Proof.
  intros Hh Hmiss. rewrite (generate_miss _ _ _ _ _ _ Hh Hmiss).
  destruct (loop_within a (cache_path cache_dir h) (seq 0 max_retries)
              (after w [Logged DEBUG (lit "Generating questions for article: " ++ title a)]))
    as (v & w' & Hrun & _).
  eauto.
Qed.





End GeneratorMore.

(** *** The digest and the cache path *)

Lemma encode_scalar s :
  forallb scalar s = true -> exists bytes, Hash.encode s = Ok bytes.
Proof.
  induction s as [|c t IH]; intros H; [exists []; reflexivity|].
  simpl in H. apply andb_prop in H as [Hc Ht].
  destruct (IH Ht) as [rest Hrest]. simpl. rewrite Hrest.
  unfold scalar in Hc. apply andb_prop in Hc as [Hmax Hsur].
  apply negb_true_iff in Hsur.
  unfold Hash.utf8_char. rewrite Hsur, Hmax.
  destruct (c <? 0x80); [eauto|]. destruct (c <? 0x800); [eauto|].
  destruct (c <? 0x10000); eauto.
Qed.

Lemma encode_surrogate s c :
  In c s -> (0xD800 <=? c) && (c <=? 0xDFFF) = true ->
  Hash.encode s = Raise UnicodeEncodeError.
Proof.
  intros Hin Hc. induction s as [|d t IH]; [destruct Hin|].
  simpl. destruct Hin as [->|Hin].
  - assert (Hu : Hash.utf8_char c = None).
    { unfold Hash.utf8_char. rewrite Hc. apply andb_prop in Hc as [Hlo _].
      apply N.leb_le in Hlo.
      replace (c <? 0x80) with false by (symmetry; apply N.ltb_ge; lia).
      replace (c <? 0x800) with false by (symmetry; apply N.ltb_ge; lia).
      reflexivity. }
    rewrite Hu. reflexivity.
  - rewrite (IH Hin). destruct (Hash.utf8_char d); reflexivity.
Qed.

Lemma hex_digit_hex d : d < 16 -> hex (Hash.hex_digit d) = true.
Proof.
  intros H. unfold Hash.hex_digit, hex.
  destruct (d <? 10) eqn:E.
  - apply N.ltb_lt in E. apply orb_true_iff. left.
    apply andb_true_iff. split; apply N.leb_le; lia.
  - apply N.ltb_ge in E. apply orb_true_iff. right.
    apply andb_true_iff. split; apply N.leb_le; lia.
Qed.

Lemma le_bytes_small width x : Forall (fun b => b < 256) (Hash.le_bytes width x).
Proof.
  unfold Hash.le_bytes. apply List.Forall_forall. intros b Hb.
  apply in_map_iff in Hb as (i & <- & _).
  change 0xFF with (N.ones 8). rewrite N.land_ones. apply N.mod_lt. discriminate.
Qed.

Lemma le_bytes_length width x : length (Hash.le_bytes width x) = width.
Proof. unfold Hash.le_bytes. rewrite length_map, length_seq. reflexivity. Qed.

Lemma md5_bytes msg :
  length (Hash.md5 msg) = 16%nat /\ Forall (fun b => b < 256) (Hash.md5 msg).
Proof.
  unfold Hash.md5.
  destruct (fold_left Hash.block _ _) as [[[a b] c] d].
  split.
  - rewrite !length_app, !le_bytes_length. reflexivity.
  - repeat (apply Forall_app; split); apply le_bytes_small.
Qed.

Lemma hexdigest_hex digest :
  Forall (fun b => b < 256) digest ->
  length (Hash.hexdigest digest) = (2 * length digest)%nat
  /\ forallb hex (Hash.hexdigest digest) = true.
Proof.
  unfold Hash.hexdigest. induction 1 as [|b bs Hb _ [IHl IHh]]; [split; reflexivity|].
  cbn [flat_map app length forallb]. rewrite IHl, IHh. split; [lia|].
  rewrite !hex_digit_hex; [reflexivity | apply N.mod_lt; discriminate |].
  apply N.Div0.div_lt_upper_bound. exact Hb.
Qed.

Lemma hex_not_slash h t : hex h = true -> startswith (lit "/") (h :: t) = false.
Proof.
  intros H. change (lit "/") with [0x2F]. cbn [startswith].
  destruct (0x2F =? h) eqn:E; [|reflexivity].
  apply N.eqb_eq in E. subst h. discriminate.
Qed.

(** X17: for a title and a content without surrogates the digest
    exists and is 32 lowercase hexadecimal digits, and the cache file is
    below the cache directory and named after the digest. *)
Theorem digest_and_path a cache_dir :
  forallb scalar (title a ++ content a) = true ->
  exists h,
    article_hash a = Ok h
    /\ length h = 32%nat
    /\ forallb hex h = true
    /\ startswith cache_dir (cache_path cache_dir h) = true
    /\ endswith (h ++ lit ".json") (cache_path cache_dir h) = true.
Proof.
  intros Hs. destruct (encode_scalar _ Hs) as [bytes Hb].
  unfold article_hash. rewrite Hb. eexists. split; [reflexivity|].
  destruct (md5_bytes bytes) as [Hlen Hsmall].
  destruct (hexdigest_hex _ Hsmall) as [Hl Hh]. rewrite Hlen in Hl.
  split; [exact Hl|]. split; [exact Hh|].
  set (h := Hash.hexdigest (Hash.md5 bytes)) in *.
  destruct h as [|c t] eqn:E; [discriminate|].
  simpl in Hh. apply andb_prop in Hh as [Hc _].
  unfold cache_path, os_path_join.
  change ((c :: t) ++ lit ".json") with (c :: (t ++ lit ".json")).
  rewrite (hex_not_slash c _ Hc).
  assert (Hend : forall pre x : str, endswith x (pre ++ x) = true).
  { intros pre x. unfold endswith. rewrite rev_app_distr. apply startswith_self. }
  destruct (bool_decide (cache_dir = []) || endswith (lit "/") cache_dir).
  - split; [apply startswith_self | apply Hend].
  - split; [apply startswith_self|].
    rewrite app_assoc. apply Hend.
Qed.

(** X18: a surrogate in the title or in the content makes
    [generate_questions] raise [UnicodeEncodeError] before it looks at the
    cache or calls the service. *)
Theorem surrogate_raises_first json_loads chat_completions_create a cache_dir c w :
  In c (title a ++ content a) ->
  (0xD800 <=? c) && (c <=? 0xDFFF) = true ->
  generate_questions json_loads chat_completions_create a cache_dir w =
  (Raise UnicodeEncodeError,
   after w [Logged DEBUG (lit "Generating questions for article: " ++ title a)]).
Proof.
  intros Hin Hc. apply generate_hash_raises.
  unfold article_hash. rewrite (encode_surrogate _ _ Hin Hc). reflexivity.
Qed.

(* ===================================================================== *)
(** ** What [clean_wikitext] removes *)
(* ===================================================================== *)

Section SubSkips.

Variable fl : flags.
Hypothesis case_sensitive : IGNORECASE fl = None.

Lemma sub_step p rest repl c s :
  startswith p (c :: s) = false ->
  sub fl (seqs (lits p :: rest)) repl (c :: s) = c :: sub fl (seqs (lits p :: rest)) repl s.
Proof.
  intros H. unfold sub. rewrite scan_cons, (match_here_head fl case_sensitive _ _ _ _ H).
  reflexivity.
Qed.

Lemma sub_skip a p rest repl u s :
  forallb (outside [a]) u = true ->
  sub fl (seqs (lits (a :: p) :: rest)) repl (u ++ s)
  = u ++ sub fl (seqs (lits (a :: p) :: rest)) repl s.
Proof.
  induction u as [|c u IH]; intros H; [reflexivity|].
  cbn [forallb] in H. apply andb_prop in H as [Hc Hu].
  cbn [app]. rewrite sub_step, (IH Hu); [reflexivity|].
  cbn [startswith]. unfold outside in Hc. cbn [existsb] in Hc.
  rewrite orb_false_r in Hc. apply negb_true_iff in Hc. now rewrite Hc.
Qed.

End SubSkips.

Lemma outside_weaken cs ds u :
  forallb (fun d => existsb (fun p => p =? d) cs) ds = true ->
  forallb (outside cs) u = true -> forallb (outside ds) u = true.
Proof.
  intros Hsub H. rewrite forallb_forall in *. intros c Hc. specialize (H c Hc).
  unfold outside in *. apply negb_true_iff in H. apply negb_true_iff.
  destruct (existsb _ ds) eqn:E; [|reflexivity].
  apply existsb_exists in E as (d & Hd & Hdc). apply N.eqb_eq in Hdc. subst d.
  rewrite (Hsub c Hd) in H. discriminate.
Qed.

Ltac narrow H := refine (outside_weaken _ _ _ _ H); reflexivity.

Lemma outside_app cs (u v : str) :
  forallb (outside cs) (u ++ v) = forallb (outside cs) u && forallb (outside cs) v.
Proof. apply forallb_app. Qed.

Lemma template_skip u s :
  forallb (outside (lit "{")) u = true ->
  sub no_flags template_re [] (u ++ s) = u ++ sub no_flags template_re [] s.
Proof.
  intros H. unfold template_re. change (lit "{{") with (0x7B :: lit "{").
  apply (sub_skip no_flags eq_refl). exact H.
Qed.

Lemma category_skip u s :
  forallb (outside (lit "[")) u = true ->
  sub no_flags category_re [] (u ++ s) = u ++ sub no_flags category_re [] s.
Proof.
  intros H. unfold category_re. change (lit "[[Kategori:") with (0x5B :: lit "[Kategori:").
  apply (sub_skip no_flags eq_refl). exact H.
Qed.

Lemma external_link_skip u s :
  forallb (outside (lit "[")) u = true ->
  sub no_flags external_link_re [] (u ++ s) = u ++ sub no_flags external_link_re [] s.
Proof.
  intros H. unfold external_link_re. change (lit "[http") with (0x5B :: lit "http").
  apply (sub_skip no_flags eq_refl). exact H.
Qed.

Lemma comment_skip u s :
  forallb (outside (lit "<")) u = true ->
  sub re_DOTALL comment_re [] (u ++ s) = u ++ sub re_DOTALL comment_re [] s.
Proof.
  intros H. unfold comment_re. change (lit "<!--") with (0x3C :: lit "!--").
  apply (sub_skip re_DOTALL eq_refl). exact H.
Qed.

Lemma ref_skip u s :
  forallb (outside (lit "<")) u = true ->
  sub re_DOTALL ref_re [] (u ++ s) = u ++ sub re_DOTALL ref_re [] s.
Proof.
  intros H. unfold ref_re. change (lit "<ref") with (0x3C :: lit "ref").
  apply (sub_skip re_DOTALL eq_refl). exact H.
Qed.

Lemma link_skip u s :
  forallb (outside (lit "[")) u = true ->
  sub no_flags link_re [RGroup 1] (u ++ s) = u ++ sub no_flags link_re [RGroup 1] s.
Proof.
  intros H. unfold link_re. change (lit "[[") with (0x5B :: lit "[").
  apply (sub_skip no_flags eq_refl). exact H.
Qed.

Lemma category_removed body tail :
  forallb (outside (lit "]")) body = true ->
  sub no_flags category_re [] (lit "[[Kategori:" ++ body ++ lit "]]" ++ tail)
  = sub no_flags category_re [] tail.
Proof.
  intros H. unfold category_re.
  rewrite (sub_class_then (lit "]") (lit "[[Kategori:") (lit "]]") body tail []);
    [reflexivity | vm_compute; discriminate | exact H | reflexivity].
Qed.

(** X5: a template whose body has no closing brace, after a text without
    an opening brace, leaves nothing behind: the text is cleaned as if the
    template were not there. *)
Theorem clean_template pre body tail :
  forallb (outside (lit "{")) pre = true ->
  forallb (outside (lit "}")) body = true ->
  clean_wikitext (pre ++ lit "{{" ++ body ++ lit "}}" ++ tail) = clean_wikitext (pre ++ tail).
Proof.
  intros Hpre Hbody. unfold clean_wikitext. cbv zeta.
  rewrite (template_skip pre _ Hpre), (template_removed _ _ Hbody), <- (template_skip pre _ Hpre).
  reflexivity.
Qed.

(** X6: a category link whose body has no opening brace and no closing
    bracket, after a text without opening braces and brackets, leaves
    nothing behind. *)
Theorem clean_category pre body tail :
  forallb (outside (lit "{[")) pre = true ->
  forallb (outside (lit "{]")) body = true ->
  clean_wikitext (pre ++ lit "[[Kategori:" ++ body ++ lit "]]" ++ tail)
  = clean_wikitext (pre ++ tail).
Proof.
  intros Hpre Hbody.
  assert (Hp1 : forallb (outside (lit "{")) pre = true) by narrow Hpre.
  assert (Hp2 : forallb (outside (lit "[")) pre = true) by narrow Hpre.
  assert (Hb1 : forallb (outside (lit "{")) body = true) by narrow Hbody.
  assert (Hb2 : forallb (outside (lit "]")) body = true) by narrow Hbody.
  unfold clean_wikitext. cbv zeta.
  set (item := lit "[[Kategori:" ++ body ++ lit "]]").
  assert (Hi1 : forallb (outside (lit "{")) item = true).
  { unfold item. rewrite !outside_app, Hb1. reflexivity. }
  replace (pre ++ lit "[[Kategori:" ++ body ++ lit "]]" ++ tail) with (pre ++ item ++ tail)
    by (unfold item; rewrite <- !app_assoc; reflexivity).
  rewrite (template_skip pre _ Hp1), (template_skip item _ Hi1).
  rewrite (category_skip pre _ Hp2). unfold item at 1. rewrite <- !app_assoc.
  rewrite (category_removed _ _ Hb2).
  rewrite <- (category_skip pre _ Hp2), <- (template_skip pre _ Hp1).
  reflexivity.
Qed.

Lemma category_step_bracket s :
  startswith (lit "[Kategori:") s = false ->
  sub no_flags category_re [] (0x5B :: s) = 0x5B :: sub no_flags category_re [] s.
Proof.
  intros H. unfold category_re. apply (sub_step no_flags eq_refl).
  change (lit "[[Kategori:") with (0x5B :: lit "[Kategori:"). cbn [startswith].
  rewrite N.eqb_refl. exact H.
Qed.

(** X7: an external link [[http...]] whose body has no brace or bracket
    to open markup and no closing bracket, after a text without opening
    braces and brackets, leaves nothing behind. *)
Theorem clean_external_link pre body tail :
  forallb (outside (lit "{[")) pre = true ->
  forallb (outside (lit "{[]")) body = true ->
  clean_wikitext (pre ++ lit "[http" ++ body ++ lit "]" ++ tail)
  = clean_wikitext (pre ++ tail).
Proof.
  intros Hpre Hbody.
  assert (Hp1 : forallb (outside (lit "{")) pre = true) by narrow Hpre.
  assert (Hp2 : forallb (outside (lit "[")) pre = true) by narrow Hpre.
  assert (Hb1 : forallb (outside (lit "{")) body = true) by narrow Hbody.
  assert (Hb2 : forallb (outside (lit "[")) body = true) by narrow Hbody.
  assert (Hb3 : forallb (outside (lit "]")) body = true) by narrow Hbody.
  unfold clean_wikitext. cbv zeta.
  set (inner := lit "http" ++ body ++ lit "]").
  assert (Hi1 : forallb (outside (lit "{")) (0x5B :: inner) = true).
  { unfold inner. cbn [forallb]. rewrite !outside_app, Hb1. reflexivity. }
  assert (Hi2 : forallb (outside (lit "[")) inner = true).
  { unfold inner. rewrite !outside_app, Hb2. reflexivity. }
  replace (pre ++ lit "[http" ++ body ++ lit "]" ++ tail)
    with (pre ++ (0x5B :: inner) ++ tail)
    by (unfold inner; change (lit "[http") with (0x5B :: lit "http"); cbn [app];
        rewrite <- !app_assoc; reflexivity).
  rewrite (template_skip pre _ Hp1), (template_skip _ _ Hi1).
  rewrite (category_skip pre _ Hp2).
  change ((0x5B :: inner) ++ ?t) with (0x5B :: (inner ++ t)).
  rewrite category_step_bracket by (unfold inner; reflexivity).
  rewrite (category_skip inner _ Hi2).
  rewrite (external_link_skip pre _ Hp2).
  change (0x5B :: inner ++ ?t) with ((0x5B :: inner) ++ t).
  replace ((0x5B :: inner) ++ sub no_flags category_re [] (sub no_flags template_re [] tail))
    with (lit "[http" ++ body ++ lit "]"
            ++ sub no_flags category_re [] (sub no_flags template_re [] tail))
    by (unfold inner; change (lit "[http") with (0x5B :: lit "http"); cbn [app];
        rewrite <- !app_assoc; reflexivity).
  rewrite (external_link_removed _ _ Hb3).
  rewrite <- (external_link_skip pre _ Hp2), <- (category_skip pre _ Hp2),
    <- (template_skip pre _ Hp1).
  reflexivity.
Qed.

Lemma contains_absent a p (s : str) :
  forallb (outside [a]) s = true -> contains (a :: p) s = false.
Proof.
  induction s as [|c s IH]; [reflexivity|].
  cbn [forallb contains startswith]. intros H. apply andb_prop in H as [Hc Hs].
  unfold outside in Hc. cbn [existsb] in Hc. rewrite orb_false_r in Hc.
  apply negb_true_iff in Hc. rewrite Hc, (IH Hs). reflexivity.
Qed.

(** X8: a comment whose body opens no template or link and does not
    hold its own closing marker, after a text in which no markup opens,
    leaves nothing behind. *)
Theorem clean_comment pre body tail :
  forallb (outside (lit "{[<")) pre = true ->
  forallb (outside (lit "{[")) body = true ->
  contains (lit "-->") body = false ->
  clean_wikitext (pre ++ lit "<!--" ++ body ++ lit "-->" ++ tail)
  = clean_wikitext (pre ++ tail).
Proof.
  intros Hpre Hbody Hclose.
  assert (Hp1 : forallb (outside (lit "{")) pre = true) by narrow Hpre.
  assert (Hp2 : forallb (outside (lit "[")) pre = true) by narrow Hpre.
  assert (Hp3 : forallb (outside (lit "<")) pre = true) by narrow Hpre.
  assert (Hb1 : forallb (outside (lit "{")) body = true) by narrow Hbody.
  assert (Hb2 : forallb (outside (lit "[")) body = true) by narrow Hbody.
  unfold clean_wikitext. cbv zeta.
  set (item := lit "<!--" ++ body ++ lit "-->").
  assert (Hi1 : forallb (outside (lit "{")) item = true).
  { unfold item. rewrite !outside_app, Hb1. reflexivity. }
  assert (Hi2 : forallb (outside (lit "[")) item = true).
  { unfold item. rewrite !outside_app, Hb2. reflexivity. }
  replace (pre ++ lit "<!--" ++ body ++ lit "-->" ++ tail) with (pre ++ item ++ tail)
    by (unfold item; rewrite <- !app_assoc; reflexivity).
  rewrite (template_skip pre _ Hp1), (template_skip item _ Hi1).
  rewrite (category_skip pre _ Hp2), (category_skip item _ Hi2).
  rewrite (external_link_skip pre _ Hp2), (external_link_skip item _ Hi2).
  rewrite (comment_skip pre _ Hp3). unfold item at 1. rewrite <- !app_assoc.
  rewrite (comment_removed _ _ Hclose).
  rewrite <- (comment_skip pre _ Hp3), <- (external_link_skip pre _ Hp2),
    <- (category_skip pre _ Hp2), <- (template_skip pre _ Hp1).
  reflexivity.
Qed.

Lemma comment_step_angle s :
  startswith (lit "!--") s = false ->
  sub re_DOTALL comment_re [] (0x3C :: s) = 0x3C :: sub re_DOTALL comment_re [] s.
Proof.
  intros H. unfold comment_re. apply (sub_step re_DOTALL eq_refl).
  change (lit "<!--") with (0x3C :: lit "!--"). cbn [startswith].
  rewrite N.eqb_refl. exact H.
Qed.

(** X9: a reference [<ref ...>...</ref>] whose attributes and body open
    no markup, the attributes without [>], after a text in which no
    markup opens, leaves nothing behind. *)
Theorem clean_ref pre attrs body tail :
  forallb (outside (lit "{[<")) pre = true ->
  forallb (outside (lit "{[<>")) attrs = true ->
  forallb (outside (lit "{[<")) body = true ->
  clean_wikitext (pre ++ lit "<ref" ++ attrs ++ lit ">" ++ body ++ lit "</ref>" ++ tail)
  = clean_wikitext (pre ++ tail).
Proof.
  intros Hpre Hattrs Hbody.
  assert (Hp1 : forallb (outside (lit "{")) pre = true) by narrow Hpre.
  assert (Hp2 : forallb (outside (lit "[")) pre = true) by narrow Hpre.
  assert (Hp3 : forallb (outside (lit "<")) pre = true) by narrow Hpre.
  assert (Ha1 : forallb (outside (lit "{")) attrs = true) by narrow Hattrs.
  assert (Ha2 : forallb (outside (lit "[")) attrs = true) by narrow Hattrs.
  assert (Ha3 : forallb (outside (lit "<")) attrs = true) by narrow Hattrs.
  assert (Ha4 : forallb (outside (lit ">")) attrs = true) by narrow Hattrs.
  assert (Hb1 : forallb (outside (lit "{")) body = true) by narrow Hbody.
  assert (Hb2 : forallb (outside (lit "[")) body = true) by narrow Hbody.
  assert (Hb3 : forallb (outside (lit "<")) body = true) by narrow Hbody.
  unfold clean_wikitext. cbv zeta.
  set (open := lit "ref" ++ attrs ++ lit ">" ++ body).
  assert (Ho1 : forallb (outside (lit "{")) open = true).
  { unfold open. rewrite !outside_app, Ha1, Hb1. reflexivity. }
  assert (Ho2 : forallb (outside (lit "[")) open = true).
  { unfold open. rewrite !outside_app, Ha2, Hb2. reflexivity. }
  assert (Ho3 : forallb (outside (lit "<")) open = true).
  { unfold open. rewrite !outside_app, Ha3, Hb3. reflexivity. }
  set (item := 0x3C :: open ++ lit "</ref>").
  assert (Hi1 : forallb (outside (lit "{")) item = true).
  { unfold item. cbn [forallb]. rewrite !outside_app, Ho1. reflexivity. }
  assert (Hi2 : forallb (outside (lit "[")) item = true).
  { unfold item. cbn [forallb]. rewrite !outside_app, Ho2. reflexivity. }
  assert (Hitem : lit "<ref" ++ attrs ++ lit ">" ++ body ++ lit "</ref>" = item).
  { unfold item, open. change (lit "<ref") with (0x3C :: lit "ref"). cbn [app].
    rewrite <- !app_assoc. reflexivity. }
  replace (pre ++ lit "<ref" ++ attrs ++ lit ">" ++ body ++ lit "</ref>" ++ tail)
    with (pre ++ item ++ tail)
    by (rewrite <- Hitem, <- !app_assoc; reflexivity).
  rewrite (template_skip pre _ Hp1), (template_skip item _ Hi1).
  rewrite (category_skip pre _ Hp2), (category_skip item _ Hi2).
  rewrite (external_link_skip pre _ Hp2), (external_link_skip item _ Hi2).
  set (T := sub no_flags external_link_re [] _).
  (* the comment pass goes over the reference *)
  rewrite (comment_skip pre _ Hp3).
  assert (Hover : sub re_DOTALL comment_re [] (item ++ T)
                  = item ++ sub re_DOTALL comment_re [] T).
  { unfold item. cbn [app]. rewrite <- app_assoc.
    rewrite comment_step_angle by (unfold open; reflexivity).
    rewrite (comment_skip open _ Ho3).
    change (lit "</ref>" ++ T) with (0x3C :: (lit "/ref>" ++ T)).
    rewrite comment_step_angle by reflexivity.
    rewrite (comment_skip (lit "/ref>") _ eq_refl).
    rewrite <- !app_assoc. reflexivity. }
  rewrite Hover.
  rewrite (ref_skip pre _ Hp3). rewrite <- Hitem at 1. rewrite <- !app_assoc.
  rewrite (ref_removed _ _ _ Ha4 (contains_absent _ _ _ Hb3)).
  rewrite <- (ref_skip pre _ Hp3), <- (comment_skip pre _ Hp3).
  unfold T.
  rewrite <- (external_link_skip pre _ Hp2),
    <- (category_skip pre _ Hp2), <- (template_skip pre _ Hp1).
  reflexivity.
Qed.

Lemma startswith_sep p target sep rest :
  forallb (outside [sep]) p = true ->
  startswith p target = false ->
  startswith p (target ++ sep :: rest) = false.
Proof.
  revert target. induction p as [|a p IH]; intros target Hp H; [discriminate|].
  cbn [forallb] in Hp. apply andb_prop in Hp as [Ha Hp].
  destruct target as [|b t]; cbn [app startswith] in *.
  - unfold outside in Ha. cbn [existsb] in Ha. rewrite orb_false_r in Ha.
    apply negb_true_iff in Ha. rewrite N.eqb_sym in Ha. now rewrite Ha.
  - destruct (a =? b); [apply IH; assumption | reflexivity].
Qed.

Lemma startswith_head_outside a p (u s : str) :
  u <> [] -> forallb (outside [a]) u = true -> startswith (a :: p) (u ++ s) = false.
Proof.
  destruct u as [|c u]; [congruence|]. intros _ H.
  cbn [forallb] in H. apply andb_prop in H as [Hc _].
  unfold outside in Hc. cbn [existsb] in Hc. rewrite orb_false_r in Hc.
  apply negb_true_iff in Hc. cbn [app startswith]. now rewrite Hc.
Qed.

Lemma external_link_step_bracket s :
  startswith (lit "http") s = false ->
  sub no_flags external_link_re [] (0x5B :: s) = 0x5B :: sub no_flags external_link_re [] s.
Proof.
  intros H. unfold external_link_re. apply (sub_step no_flags eq_refl).
  change (lit "[http") with (0x5B :: lit "http"). cbn [startswith].
  rewrite N.eqb_refl. exact H.
Qed.

Lemma clean_wikitext_passes text :
  clean_wikitext text = strip (sub no_flags link_re [RGroup 1] (early_passes text)).
Proof. reflexivity. Qed.

Lemma early_passes_skip u s :
  forallb (outside (lit "{[<")) u = true ->
  early_passes (u ++ s) = u ++ early_passes s.
Proof.
  intros H.
  assert (H1 : forallb (outside (lit "{")) u = true) by narrow H.
  assert (H2 : forallb (outside (lit "[")) u = true) by narrow H.
  assert (H3 : forallb (outside (lit "<")) u = true) by narrow H.
  unfold early_passes.
  rewrite (template_skip u _ H1), (category_skip u _ H2), (external_link_skip u _ H2),
    (comment_skip u _ H3), (ref_skip u _ H3).
  reflexivity.
Qed.

Lemma early_passes_link inner s :
  forallb (outside (lit "{[<")) inner = true ->
  inner <> [] ->
  (forall t, startswith (lit "Kategori:") (inner ++ t) = false) ->
  (forall t, startswith (lit "http") (inner ++ t) = false) ->
  early_passes (lit "[[" ++ inner ++ s) = lit "[[" ++ inner ++ early_passes s.
Proof.
  intros H Hne Hcat Hhttp.
  assert (H1 : forallb (outside (lit "{")) inner = true) by narrow H.
  assert (H2 : forallb (outside (lit "[")) inner = true) by narrow H.
  assert (H3 : forallb (outside (lit "<")) inner = true) by narrow H.
  unfold early_passes.
  (* templates *)
  rewrite (template_skip (lit "[[") _ eq_refl), (template_skip inner _ H1).
  set (T1 := sub no_flags template_re [] s).
  (* categories *)
  change (lit "[[" ++ inner ++ T1) with (0x5B :: 0x5B :: inner ++ T1).
  rewrite category_step_bracket.
  2: { change (lit "[Kategori:") with (0x5B :: lit "Kategori:"). cbn [startswith].
       rewrite N.eqb_refl. apply Hcat. }
  rewrite category_step_bracket.
  2: { change (lit "[Kategori:") with (0x5B :: lit "Kategori:").
       apply startswith_head_outside; assumption. }
  rewrite (category_skip inner _ H2).
  set (T2 := sub no_flags category_re [] T1).
  (* addresses *)
  rewrite external_link_step_bracket by reflexivity.
  rewrite external_link_step_bracket by apply Hhttp.
  rewrite (external_link_skip inner _ H2).
  set (T3 := sub no_flags external_link_re [] T2).
  (* comments and references *)
  change (0x5B :: 0x5B :: inner ++ T3) with (lit "[[" ++ inner ++ T3).
  rewrite (comment_skip (lit "[[") _ eq_refl), (comment_skip inner _ H3).
  rewrite (ref_skip (lit "[[") _ eq_refl), (ref_skip inner _ H3).
  reflexivity.
Qed.

(** X10: an internal link with a label, in the place of which the label
    is cleaned as plain text: the target and the label open no markup,
    the target is neither a category nor an address, and no markup opens
    before the link. *)
Theorem clean_link_label pre target label tail :
  forallb (outside (lit "{[<")) pre = true ->
  forallb (outside (lit "{[<|]")) target = true ->
  startswith (lit "Kategori:") target = false ->
  startswith (lit "http") target = false ->
  label <> [] ->
  forallb (outside (lit "{[<]")) label = true ->
  clean_wikitext (pre ++ lit "[[" ++ target ++ lit "|" ++ label ++ lit "]]" ++ tail)
  = clean_wikitext (pre ++ label ++ tail).
Proof.
  intros Hpre Htarget Hcat Hhttp Hne Hlabel.
  assert (Ht0 : forallb (outside (lit "{[<")) target = true) by narrow Htarget.
  assert (Ht1 : forallb (outside (lit "|]")) target = true) by narrow Htarget.
  assert (Hl0 : forallb (outside (lit "{[<")) label = true) by narrow Hlabel.
  assert (Hl1 : forallb (outside (lit "]")) label = true) by narrow Hlabel.
  assert (Hp2 : forallb (outside (lit "[")) pre = true) by narrow Hpre.
  assert (Hl2 : forallb (outside (lit "[")) label = true) by narrow Hlabel.
  rewrite !clean_wikitext_passes.
  set (inner := target ++ 0x7C :: label ++ lit "]]").
  assert (Hinner : forallb (outside (lit "{[<")) inner = true).
  { unfold inner. rewrite outside_app, Ht0. cbn [forallb andb].
    rewrite outside_app, Hl0. reflexivity. }
  replace (pre ++ lit "[[" ++ target ++ lit "|" ++ label ++ lit "]]" ++ tail)
    with (pre ++ lit "[[" ++ inner ++ tail).
  2: { unfold inner. change (lit "|") with [0x7C]. rewrite <- !app_assoc. cbn [app].
       rewrite <- !app_assoc. reflexivity. }
  rewrite (early_passes_skip pre _ Hpre).
  rewrite (early_passes_link inner tail Hinner).
  2: { unfold inner. destruct target; discriminate. }
  2: { intros t. unfold inner. rewrite <- app_assoc. cbn [app].
       apply startswith_sep; [reflexivity | exact Hcat]. }
  2: { intros t. unfold inner. rewrite <- app_assoc. cbn [app].
       apply startswith_sep; [reflexivity | exact Hhttp]. }
  rewrite (link_skip pre _ Hp2).
  assert (Hm := match_link_label target label (early_passes tail) Ht1 Hne Hl1).
  assert (Hnn : lit "[[" ++ target ++ lit "|" ++ label ++ lit "]]" <> [])
    by (change (lit "[[") with [0x5B; 0x5B]; discriminate).
  replace (lit "[[" ++ inner ++ early_passes tail)
    with ((lit "[[" ++ target ++ lit "|" ++ label ++ lit "]]") ++ early_passes tail).
  2: { unfold inner. change (lit "|") with [0x7C]. rewrite <- !app_assoc. cbn [app].
       rewrite <- !app_assoc. reflexivity. }
  replace (lit "[[" ++ target ++ lit "|" ++ label ++ lit "]]" ++ early_passes tail)
    with ((lit "[[" ++ target ++ lit "|" ++ label ++ lit "]]") ++ early_passes tail) in Hm
    by (rewrite <- !app_assoc; reflexivity).
  rewrite (sub_hit no_flags _ _ _ _ _ Hnn Hm).
  cbn [expand flat_map group]. 
  rewrite (early_passes_skip pre _ Hpre), (early_passes_skip label _ Hl0).
  rewrite (link_skip pre _ Hp2), (link_skip label _ Hl2).
  cbn. rewrite ?app_nil_r. reflexivity.
Qed.

(** X11: an internal link without a label, in the place of which its
    target is cleaned as plain text, under the same conditions. *)
Theorem clean_link_bare pre target tail :
  forallb (outside (lit "{[<")) pre = true ->
  target <> [] ->
  forallb (outside (lit "{[<|]")) target = true ->
  startswith (lit "Kategori:") target = false ->
  startswith (lit "http") target = false ->
  clean_wikitext (pre ++ lit "[[" ++ target ++ lit "]]" ++ tail)
  = clean_wikitext (pre ++ target ++ tail).
Proof.
  intros Hpre Hne Htarget Hcat Hhttp.
  assert (Ht0 : forallb (outside (lit "{[<")) target = true) by narrow Htarget.
  assert (Ht1 : forallb (outside (lit "|]")) target = true) by narrow Htarget.
  assert (Ht2 : forallb (outside (lit "[")) target = true) by narrow Htarget.
  assert (Hp2 : forallb (outside (lit "[")) pre = true) by narrow Hpre.
  rewrite !clean_wikitext_passes.
  set (inner := target ++ 0x5D :: lit "]").
  assert (Hinner : forallb (outside (lit "{[<")) inner = true).
  { unfold inner. rewrite outside_app, Ht0. reflexivity. }
  assert (Hshape : forall t, lit "[[" ++ inner ++ t = (lit "[[" ++ target ++ lit "]]") ++ t).
  { intros t. unfold inner. change (lit "]]") with (0x5D :: lit "]").
    rewrite <- !app_assoc. reflexivity. }
  replace (pre ++ lit "[[" ++ target ++ lit "]]" ++ tail)
    with (pre ++ lit "[[" ++ inner ++ tail)
    by (rewrite Hshape, <- !app_assoc; reflexivity).
  rewrite (early_passes_skip pre _ Hpre).
  rewrite (early_passes_link inner tail Hinner).
  2: { unfold inner. destruct target; discriminate. }
  2: { intros t. unfold inner. rewrite <- app_assoc. cbn [app].
       apply startswith_sep; [reflexivity | exact Hcat]. }
  2: { intros t. unfold inner. rewrite <- app_assoc. cbn [app].
       apply startswith_sep; [reflexivity | exact Hhttp]. }
  rewrite (link_skip pre _ Hp2).
  assert (Hm := match_link_target target (early_passes tail) Hne Ht1).
  assert (Hnn : lit "[[" ++ target ++ lit "]]" <> [])
    by (change (lit "[[") with [0x5B; 0x5B]; discriminate).
  rewrite Hshape.
  replace (lit "[[" ++ target ++ lit "]]" ++ early_passes tail)
    with ((lit "[[" ++ target ++ lit "]]") ++ early_passes tail) in Hm
    by (rewrite <- !app_assoc; reflexivity).
  rewrite (sub_hit no_flags _ _ _ _ _ Hnn Hm).
  rewrite (early_passes_skip pre _ Hpre), (early_passes_skip target _ Ht0).
  rewrite (link_skip pre _ Hp2), (link_skip target _ Ht2).
  cbn. rewrite ?app_nil_r. reflexivity.
Qed.

(* ===================================================================== *)
(** ** The selection of ids in [main] *)
(* ===================================================================== *)

Lemma range_1_length n : length (range_1 n) = n.
Proof. unfold range_1. now rewrite length_map, length_seq. Qed.

Lemma range_1_In n id : In id (range_1 n) <-> (1 <= id <= Z.of_nat n)%Z.
Proof.
  unfold range_1. rewrite in_map_iff. split.
  - intros (k & <- & Hk). apply in_seq in Hk. lia.
  - intros H. exists (Z.to_nat id). split; [lia|]. apply in_seq. lia.
Qed.

Lemma range_1_NoDup n : List.NoDup (range_1 n).
Proof.
  unfold range_1. generalize (seq_NoDup n 1).
  induction 1 as [|k l Hk _ IH]; cbn [map]; constructor; [|exact IH].
  rewrite in_map_iff. intros (j & Hj & Hin).
  apply Nat2Z.inj in Hj. now subst.
Qed.

Lemma slice_upto_firstn n l : exists k, slice_upto n l = firstn k l.
Proof. unfold slice_upto. destruct (n <? 0)%Z; eauto. Qed.

Lemma firstn_NoDup {A} k (l : list A) : List.NoDup l -> List.NoDup (firstn k l).
Proof.
  intros H. rewrite <- (firstn_skipn k l) in H. now apply NoDup_app_remove_r in H.
Qed.

Lemma firstn_In {A} k (l : list A) x : In x (firstn k l) -> In x l.
Proof. intros H. rewrite <- (firstn_skipn k l). apply in_or_app. now left. Qed.

Section SelectionFacts.

Variable shuffle : Z -> list Z -> list Z.
Hypothesis shuffle_permutes : forall seed l, Permutation (shuffle seed l) l.

Lemma selected_ids limit seed total_articles :
  let ids := selected_article_ids shuffle limit seed total_articles in
  List.NoDup ids
  /\ (forall id, In id ids -> (1 <= id <= Z.of_nat total_articles)%Z)
  /\ length ids = selected_count limit total_articles.
Proof.
  cbv zeta. unfold selected_article_ids.
  set (count := match limit with
                | Some n => if (n =? 0)%Z then Z.of_nat total_articles else n
                | None => Z.of_nat total_articles end).
  pose proof (shuffle_permutes seed (range_1 total_articles)) as Hperm.
  set (l := shuffle seed (range_1 total_articles)) in *.
  assert (Hlen : length l = total_articles).
  { rewrite (Permutation_length Hperm). apply range_1_length. }
  split; [|split].
  - destruct (slice_upto_firstn count l) as [k ->]. apply firstn_NoDup.
    apply (Permutation_NoDup (Permutation_sym Hperm)), range_1_NoDup.
  - intros id Hid. destruct (slice_upto_firstn count l) as [k Hk]. rewrite Hk in Hid.
    apply firstn_In in Hid. apply range_1_In. apply (Permutation_in _ Hperm Hid).
  - unfold slice_upto, selected_count, count.
    destruct limit as [n|].
    + destruct (Z.eqb_spec n 0) as [->|Hn].
      * replace (Z.of_nat total_articles <? 0)%Z with false by (symmetry; apply Z.ltb_ge; lia).
        rewrite length_firstn, Hlen. lia.
      * destruct (Z.ltb_spec n 0); rewrite length_firstn, Hlen; lia.
    + replace (Z.of_nat total_articles <? 0)%Z with false by (symmetry; apply Z.ltb_ge; lia).
      rewrite length_firstn, Hlen. lia.
Qed.

End SelectionFacts.

(* ===================================================================== *)
(** ** [process_articles] *)
(* ===================================================================== *)

Lemma add_items_acc title context items : forall dataset,
  add_items title context items dataset =
  match add_items title context items [] with
  | Ok new => Ok (dataset ++ new)
  | Raise e => Raise e
  end.
Proof.
  induction items as [|qa rest IH]; intros dataset; cbn [add_items].
  - now rewrite app_nil_r.
  - destruct (subscript qa _); [|reflexivity].
    destruct (subscript qa _); [|reflexivity].
    rewrite (IH (dataset ++ _)), (IH ([] ++ _)).
    destruct (add_items title context rest []); [|reflexivity].
    cbn [app]. now rewrite <- app_assoc.
Qed.

Lemma subscript_record qa question answer :
  record_values qa = Some (question, answer) ->
  subscript qa (lit "spørgsmål") = Ok question /\ subscript qa (lit "svar") = Ok answer.
Proof.
  destruct qa; try discriminate. cbn [record_values subscript].
  destruct (dict_get _ fields); [|discriminate].
  destruct (dict_get _ fields); [|discriminate].
  intros [= <- <-]. auto.
Qed.

Lemma subscript_no_record qa :
  record_values qa = None ->
  exists e, bad_record e /\
    match subscript qa (lit "spørgsmål") with
    | Raise e' => e' = e
    | Ok _ => subscript qa (lit "svar") = Raise e
    end.
Proof.
  unfold bad_record.
  destruct qa; cbn [record_values subscript]; try (intros _; eexists; split; [|reflexivity]; cbn; auto).
  destruct (dict_get _ fields).
  - destruct (dict_get _ fields); [discriminate|]. intros _.
    eexists; split; [|reflexivity]; cbn; auto.
  - intros _. eexists; split; [|reflexivity]; cbn; auto.
Qed.

Lemma add_items_records title context items pairs :
  records items = Some pairs ->
  add_items title context items [] = Ok (entries title context pairs).
Proof.
  revert pairs. induction items as [|qa rest IH]; intros pairs.
  - intros [= <-]. reflexivity.
  - cbn [records]. destruct (record_values qa) as [[question answer]|] eqn:Hqa; [|discriminate].
    destruct (records rest) as [more|]; [|discriminate].
    intros [= <-]. cbn [add_items].
    destruct (subscript_record _ _ _ Hqa) as [-> ->].
    rewrite add_items_acc, (IH more eq_refl). reflexivity.
Qed.

Lemma add_items_no_records title context items :
  records items = None ->
  exists e, bad_record e /\ add_items title context items [] = Raise e.
Proof.
  induction items as [|qa rest IH]; [discriminate|].
  cbn [records]. destruct (record_values qa) as [[question answer]|] eqn:Hqa.
  - destruct (records rest) as [more|]; [discriminate|].
    intros _. destruct (IH eq_refl) as (e & He & Hrun).
    exists e. split; [exact He|].
    cbn [add_items]. destruct (subscript_record _ _ _ Hqa) as [-> ->].
    rewrite add_items_acc, Hrun. reflexivity.
  - intros _. destruct (subscript_no_record _ Hqa) as (e & He & Hsub).
    exists e. split; [exact He|]. cbn [add_items].
    destruct (subscript qa (lit "spørgsmål")); [rewrite Hsub; reflexivity | now subst].
Qed.

Lemma rows_of_answer title context qa pairs :
  answer_rows qa = Some pairs ->
  exists items, iter_json qa = Ok items
    /\ add_items title context items [] = Ok (entries title context pairs).
Proof.
  destruct qa as [| | | |s|items|fields]; try discriminate; cbn [answer_rows iter_json].
  - destruct s; [|discriminate]. intros [= <-]. exists []. auto.
  - intros H. exists items. split; [reflexivity|]. now apply add_items_records.
  - destruct fields; [|discriminate]. intros [= <-]. exists []. auto.
Qed.

Lemma no_rows_of_answer title context qa :
  answer_rows qa = None ->
  exists e, bad_record e /\
    match iter_json qa with
    | Ok items => add_items title context items [] = Raise e
    | Raise e' => e' = e
    end.
Proof.
  unfold bad_record.
  destruct qa as [| | | |s|items|fields]; cbn [answer_rows iter_json];
    try (intros _; eexists; split; [|reflexivity]; cbn; auto).
  - destruct s as [|c s]; [discriminate|]. intros _. cbn [map add_items subscript].
    eexists; split; [|reflexivity]; cbn; auto.
  - intros H. apply add_items_no_records, H.
  - destruct fields as [|[k v] fields]; [discriminate|]. intros _. cbn [map add_items subscript fst].
    eexists; split; [|reflexivity]; cbn; auto.
Qed.

Lemma extend_nil {A} (run : result (list A) * world) : extend [] run = run.
Proof. destruct run as [[new|e] w]; reflexivity. Qed.

Lemma extend_extend {A} (d1 d2 : list A) run :
  extend d1 (extend d2 run) = extend (d1 ++ d2) run.
Proof. destruct run as [[new|e] w]; cbn; [now rewrite app_assoc | reflexivity]. Qed.

Section BatchFacts.

Variable lower : str -> str.
Variable ieq : N -> N -> bool.
Variable mw_parse : str -> result str.
Variable json_loads : str -> result json.
Variable chat_completions_create : nat -> request -> result (option str).

Local Abbreviation from := (process_articles_from lower ieq mw_parse json_loads chat_completions_create).
Local Abbreviation batch := (process_articles lower ieq mw_parse json_loads chat_completions_create).
Local Abbreviation one := (process_article lower ieq mw_parse).
Local Abbreviation generate := (generate_questions json_loads chat_completions_create).

Lemma from_acc db cache_dir article_ids : forall dataset w,
  from db cache_dir article_ids dataset w =
  extend dataset (from db cache_dir article_ids [] w).
Proof.
  induction article_ids as [|article_id rest IH]; intros dataset w.
  - cbn. now rewrite app_nil_r.
  - cbn [process_articles_from].
    destruct (select_article db article_id) as [[title text]|]; [|apply IH].
    unfold bind.
    destruct (one title text w) as [[[a|]|e] w1]; [| apply IH | reflexivity].
    destruct (generate a cache_dir w1) as [[qa|e] w2]; [|reflexivity].
    unfold lift. destruct (iter_json qa) as [items|e]; [|reflexivity].
    rewrite add_items_acc.
    destruct (add_items title (content a) items []) as [new|e]; [|reflexivity].
    rewrite (IH (dataset ++ new)), (IH ([] ++ new)), extend_extend. reflexivity.
Qed.

Lemma from_app db cache_dir ids1 ids2 : forall dataset w,
  from db cache_dir (ids1 ++ ids2) dataset w =
  match from db cache_dir ids1 dataset w with
  | (Ok dataset1, w1) => from db cache_dir ids2 dataset1 w1
  | (Raise e, w1) => (Raise e, w1)
  end.
Proof.
  induction ids1 as [|article_id rest IH]; intros dataset w; [reflexivity|].
  cbn [app process_articles_from].
  destruct (select_article db article_id) as [[title text]|]; [|apply IH].
  unfold bind.
  destruct (one title text w) as [[[a|]|e] w1]; [| apply IH | reflexivity].
  destruct (generate a cache_dir w1) as [[qa|e] w2]; [|reflexivity].
  unfold lift. destruct (iter_json qa) as [items|e]; [|reflexivity].
  destruct (add_items title (content a) items dataset) as [new|e]; [|reflexivity].
  apply IH.
Qed.

(** X19: a batch over [ids1 ++ ids2] is the batch over [ids1] followed,
    in the world it leaves, by the batch over [ids2], the rows of the
    second after those of the first; an exception ends it where it is
    raised. *)
Theorem batch_app db cache_dir ids1 ids2 w :
  batch db (ids1 ++ ids2) cache_dir w =
  match batch db ids1 cache_dir w with
  | (Ok dataset1, w1) => extend dataset1 (batch db ids2 cache_dir w1)
  | (Raise e, w1) => (Raise e, w1)
  end.
Proof.
  unfold process_articles. rewrite from_app.
  destruct (from db cache_dir ids1 [] w) as [[dataset1|e] w1]; [|reflexivity].
  apply from_acc.
Qed.

Lemma batch_absent db cache_dir article_id rest w :
  select_article db article_id = None ->
  batch db (article_id :: rest) cache_dir w = batch db rest cache_dir w.
Proof. unfold process_articles. cbn [process_articles_from]. now intros ->. Qed.

Lemma batch_skipped db cache_dir article_id rest title text w w1 :
  select_article db article_id = Some (title, text) ->
  one title text w = (Ok None, w1) ->
  batch db (article_id :: rest) cache_dir w = batch db rest cache_dir w1.
Proof.
  unfold process_articles. cbn [process_articles_from]. intros -> H.
  unfold bind. now rewrite H.
Qed.

Lemma batch_kept db cache_dir article_id rest title text a qa w w1 w2 :
  select_article db article_id = Some (title, text) ->
  one title text w = (Ok (Some a), w1) ->
  generate a cache_dir w1 = (Ok qa, w2) ->
  batch db (article_id :: rest) cache_dir w =
  match iter_json qa with
  | Ok items =>
      match add_items title (content a) items [] with
      | Ok rows => extend rows (batch db rest cache_dir w2)
      | Raise e => (Raise e, w2)
      end
  | Raise e => (Raise e, w2)
  end.
Proof.
  unfold process_articles. cbn [process_articles_from]. intros -> H1 H2.
  unfold bind. rewrite H1, H2. unfold lift.
  destruct (iter_json qa) as [items|e]; [|reflexivity].
  destruct (add_items title (content a) items []) as [rows|e]; [|reflexivity].
  apply from_acc.
Qed.

(** X21: for an article that is kept and an answer whose items are all
    records with both keys, the batch gets one row for each record, in
    order, with the title of the table, the content of the article and
    the values of the record, before the rows of the later ids. *)
Theorem batch_rows db cache_dir article_id rest title text a qa pairs w w1 w2 :
  select_article db article_id = Some (title, text) ->
  one title text w = (Ok (Some a), w1) ->
  generate a cache_dir w1 = (Ok qa, w2) ->
  answer_rows qa = Some pairs ->
  batch db (article_id :: rest) cache_dir w =
  extend (entries title (content a) pairs) (batch db rest cache_dir w2).
Proof.
  intros Hs H1 H2 Hrows. rewrite (batch_kept _ _ _ _ _ _ _ _ _ _ _ Hs H1 H2).
  destruct (rows_of_answer title (content a) qa pairs Hrows) as (items & -> & ->).
  reflexivity.
Qed.

(** X22: an answer that cannot be iterated, or one of whose items is not
    a record with both keys, ends the batch with a [KeyError] or a
    [TypeError], in the world [generate_questions] left: the later ids
    are not processed. *)
Theorem batch_aborts db cache_dir article_id rest title text a qa w w1 w2 :
  select_article db article_id = Some (title, text) ->
  one title text w = (Ok (Some a), w1) ->
  generate a cache_dir w1 = (Ok qa, w2) ->
  answer_rows qa = None ->
  exists e, bad_record e /\ batch db (article_id :: rest) cache_dir w = (Raise e, w2).
Proof.
  intros Hs H1 H2 Hrows. rewrite (batch_kept _ _ _ _ _ _ _ _ _ _ _ Hs H1 H2).
  destruct (no_rows_of_answer title (content a) qa Hrows) as (e & He & Hrun).
  exists e. split; [exact He|].
  destruct (iter_json qa) as [items|e']; [now rewrite Hrun | now subst].
Qed.

(** X20: ids that select no row give no rows and leave the world as it
    is. *)
Theorem batch_unknown db cache_dir article_ids w :
  (forall article_id, In article_id article_ids -> select_article db article_id = None) ->
  batch db article_ids cache_dir w = (Ok [], w).
Proof.
  induction article_ids as [|article_id rest IH]; intros H; [reflexivity|].
  rewrite batch_absent; [|apply H; now left].
  apply IH. intros i Hi. apply H. now right.
Qed.

(** *** What a batch changes *)

Lemma batch_frame_refl d w : batch_frame d 0 w w.
Proof. repeat split; try lia. exists []. now rewrite app_nil_r. Qed.

Lemma batch_frame_trans d n m w1 w2 w3 :
  batch_frame d n w1 w2 -> batch_frame d m w2 w3 -> batch_frame d (n + m) w1 w3.
Proof.
  intros (Ha & [t1 Ht1] & Hf1) (Hb & [t2 Ht2] & Hf2). repeat split; try lia.
  - exists (t1 ++ t2). rewrite Ht2, Ht1, app_assoc. reflexivity.
  - intros path Hp. rewrite (Hf2 path Hp). apply Hf1, Hp.
Qed.

Lemma batch_frame_weaken d n m w w' : (n <= m)%nat -> batch_frame d n w w' -> batch_frame d m w w'.
Proof. intros H (Ha & Ht & Hf). repeat split; try assumption; try lia. nia. Qed.

Lemma one_frame d title text w :
  batch_frame d 0 w (snd (one title text w)).
Proof.
  destruct (process_article_returns lower ieq mw_parse title text w) as (r & logs & -> & _).
  repeat split; cbn; try lia. eexists. reflexivity.
Qed.

Lemma generate_frame d a w :
  batch_frame d 1 w (snd (generate a d w)).
Proof.
  pose proof (generate_within json_loads chat_completions_create a d w) as H.
  destruct (generate a d w) as [r w']. destruct H as (Hc & Ht & Hf).
  repeat split; cbn [snd]; try lia; [exact Ht|].
  intros path Hp. apply Hf. intros h _ ->. apply Hp. now exists h.
Qed.

Lemma from_frame db d article_ids : forall dataset w,
  batch_frame d (length article_ids) w (snd (from db d article_ids dataset w)).
Proof.
  induction article_ids as [|article_id rest IH]; intros dataset w.
  - apply batch_frame_refl.
  - cbn [process_articles_from length].
    destruct (select_article db article_id) as [[title text]|].
    2: { eapply batch_frame_weaken; [|apply IH]. lia. }
    unfold bind.
    pose proof (one_frame d title text w) as H1.
    destruct (one title text w) as [[[a|]|e] w1]; cbn [snd] in H1.
    + pose proof (generate_frame d a w1) as H2.
      pose proof (batch_frame_trans _ _ _ _ _ _ H1 H2) as H12. cbn [Nat.add] in H12.
      destruct (generate a d w1) as [[qa|e] w2]; cbn [snd] in H2, H12.
      * unfold lift. destruct (iter_json qa) as [items|e].
        -- destruct (add_items title (content a) items dataset) as [new|e].
           ++ apply (batch_frame_trans _ 1 _ _ _ _ H12 (IH new w2)).
           ++ eapply batch_frame_weaken; [|exact H12]. lia.
        -- eapply batch_frame_weaken; [|exact H12]. lia.
      * eapply batch_frame_weaken; [|exact H12]. lia.
    + eapply batch_frame_weaken;
        [|apply (batch_frame_trans _ 0 _ _ _ _ H1 (IH dataset w1))]. lia.
    + eapply batch_frame_weaken; [|exact H1]. lia.
Qed.

(** *** Where the rows come from *)

Lemma one_kept name text a w w1 :
  one name text w = (Ok (Some a), w1) ->
  name = title a
  /\ is_redirect lower text = false
  /\ match mw_parse text with
     | Ok wikicode =>
         content a = clean_wikitext wikicode
         /\ is_meaningful_article (content a) = true
         /\ is_include_only ieq (content a) = Ok false
     | Raise _ => content a = text
     end.
Proof.
  intros Hrun.
  destruct (is_redirect lower text) eqn:Hred.
  - rewrite (process_article_redirect _ _ _ _ _ _ Hred) in Hrun. discriminate.
  - apply (f_equal fst) in Hrun. cbn [fst] in Hrun.
    destruct (mw_parse text) as [wikicode|e] eqn:Hparse.
    + rewrite (process_article_parsed _ _ _ _ _ _ _ Hred Hparse) in Hrun.
      destruct (is_include_only ieq (clean_wikitext wikicode)) as [[|]|e] eqn:Hinc;
        try discriminate.
      destruct (is_meaningful_article (clean_wikitext wikicode)) eqn:Hm; [|discriminate].
      injection Hrun as <-. cbn. auto.
    + unfold process_article, logging_debug, logging_error, bind, ret in Hrun.
      rewrite emit_after, Hred, Hparse in Hrun. cbn in Hrun. injection Hrun as <-. auto.
Qed.

Lemma add_items_rows title context items : forall dataset rows,
  add_items title context items dataset = Ok rows ->
  exists new, rows = dataset ++ new
    /\ Forall (fun row => entry_title row = title /\ entry_context row = context) new.
Proof.
  induction items as [|qa rest IH]; intros dataset rows; cbn [add_items].
  - intros [= <-]. exists []. split; [now rewrite app_nil_r | constructor].
  - destruct (subscript qa _) as [question|]; [|discriminate].
    destruct (subscript qa _) as [answer|]; [|discriminate].
    intros H. apply IH in H as (new & -> & Hnew).
    exists (QaEntry title context question answer :: new).
    split; [now rewrite <- app_assoc|]. constructor; [now cbn | exact Hnew].
Qed.

Lemma from_rows db d article_ids : forall dataset w rows w',
  from db d article_ids dataset w = (Ok rows, w') ->
  exists new, rows = dataset ++ new /\ Forall (row_source lower mw_parse db article_ids) new.
Proof.
  assert (Hmono : forall i ids row, row_source lower mw_parse db ids row -> row_source lower mw_parse db (i :: ids) row).
  { intros i ids row (j & text & Hin & H). exists j, text. split; [now right | exact H]. }
  induction article_ids as [|article_id rest IH]; intros dataset w rows w'.
  - intros [= <- <-]. exists []. split; [now rewrite app_nil_r | constructor].
  - cbn [process_articles_from].
    destruct (select_article db article_id) as [[title text]|] eqn:Hsel.
    2: { intros H. apply IH in H as (new & -> & Hnew). exists new. split; [reflexivity|].
         eapply List.Forall_impl; [|exact Hnew]. apply Hmono. }
    unfold bind.
    destruct (one title text w) as [[[a|]|e] w1] eqn:H1; [| |discriminate].
    2: { intros H. apply IH in H as (new & -> & Hnew). exists new. split; [reflexivity|].
         eapply List.Forall_impl; [|exact Hnew]. apply Hmono. }
    destruct (generate a d w1) as [[qa|e] w2]; [|discriminate].
    unfold lift. destruct (iter_json qa) as [items|e]; [|discriminate].
    destruct (add_items title (content a) items dataset) as [mid|e] eqn:Hadd; [|discriminate].
    intros H. apply IH in H as (new & -> & Hnew).
    apply add_items_rows in Hadd as (added & -> & Hadded).
    exists (added ++ new). split; [now rewrite <- app_assoc|].
    apply Forall_app. split.
    + destruct (one_kept _ _ _ _ _ H1) as (_ & Hred & Hc).
      eapply List.Forall_impl; [|exact Hadded].
      intros row [Ht Hx]. exists article_id, text.
      split; [now left|]. rewrite Ht, Hx. split; [exact Hsel|]. split; [exact Hred|].
      destruct (mw_parse text); [|exact Hc]. destruct Hc as (Hc1 & Hc2 & _). auto.
    + eapply List.Forall_impl; [|exact Hnew]. apply Hmono.
Qed.

End BatchFacts.

(* ===================================================================== *)
(** ** [preprocess_wikipedia_dump] *)
(* ===================================================================== *)

Lemma element_induction (P : element -> Prop) :
  (forall tag text children, Forall P children -> P (Element tag text children)) ->
  forall e, P e.
Proof.
  intros H. fix IH 1. intros [tag text children]. apply H.
  induction children as [|c cs IHcs]; constructor; [apply IH | exact IHcs].
Qed.

Lemma walk_eq tag text children :
  walk (Element tag text children) =
  let elem := Element tag text (snd (walk_all children)) in
  if endswith (lit "page") tag then
    (fst (walk_all children) ++
       match page_row elem with Some row => [row] | None => [] end,
     Element tag None [])
  else (fst (walk_all children), elem).
Proof.
  cbn [walk].
  match goal with
  | |- (let '(_, _) := ?each children in _) = _ =>
      assert (E : forall cs, each cs = walk_all cs)
  end.
  { induction cs as [|c cs IH]; [reflexivity|].
    rewrite IH. unfold walk_all. cbn [flat_map map fst snd].
    destruct (walk c); reflexivity. }
  rewrite E. unfold walk_all. cbn [fst snd]. reflexivity.
Qed.

Lemma find_below_eq tag t x children :
  find_below tag (Element t x children) =
  match children with
  | [] => None
  | c :: rest =>
      if bool_decide (tag_of c = tag) then Some c
      else match find_below tag c with
           | Some found => Some found
           | None => find_below tag (Element t x rest)
           end
  end.
Proof. destruct children; reflexivity. Qed.

Lemma page_row_ok elem row : page_row elem = Some row -> row_ok row.
Proof.
  unfold page_row.
  destruct (find_below _ elem); [|discriminate].
  destruct (find_below _ elem); [|discriminate].
  destruct (text_of e) as [[|a t]|]; try discriminate;
  destruct (text_of e0) as [[|b c]|]; try discriminate.
  cbn. intros [= <-]. split; discriminate.
Qed.

Lemma walk_rows_ok e : Forall row_ok (fst (walk e)).
Proof.
  induction e as [tag text children IH] using element_induction.
  rewrite walk_eq. cbv zeta.
  assert (Hall : Forall row_ok (fst (walk_all children))).
  { unfold walk_all. cbn [fst].
    induction IH as [|c cs Hc _ IHcs]; [constructor|].
    cbn [flat_map]. apply Forall_app. split; assumption. }
  destruct (endswith _ tag); cbn [fst]; [|exact Hall].
  apply Forall_app. split; [exact Hall|].
  destruct (page_row _) eqn:E; [|constructor].
  constructor; [|constructor]. eapply page_row_ok, E.
Qed.

(** *** Insertion *)

Lemma max_rowid_app db r :
  max_rowid (db ++ [r]) =
  Some (match max_rowid db with None => row_id r | Some m => Z.max m (row_id r) end).
Proof.
  induction db as [|r0 db IH]; [reflexivity|].
  cbn [app max_rowid]. rewrite IH. f_equal.
  destruct (max_rowid db); lia.
Qed.

Lemma next_rowid_insert db title content :
  next_rowid (insert_article db title content) = (next_rowid db + 1)%Z.
Proof.
  unfold insert_article, next_rowid. rewrite max_rowid_app. cbn [row_id].
  destruct (max_rowid db); lia.
Qed.

Lemma fold_insert rows : forall db,
  fold_left (fun db row => insert_article db (fst row) (snd row)) rows db =
  db ++ number_from (next_rowid db) rows.
Proof.
  induction rows as [|row rows IH]; intros db; cbn [fold_left number_from].
  - now rewrite app_nil_r.
  - rewrite IH, next_rowid_insert. unfold insert_article at 1.
    fold (next_rowid db). now rewrite <- app_assoc.
Qed.

Lemma number_from_lookup rows : forall start i r,
  number_from start rows !! i = Some r ->
  row_id r = (start + Z.of_nat i)%Z /\ rows !! i = Some (row_title r, row_content r).
Proof.
  induction rows as [|row rows IH]; intros start i r; [discriminate|].
  destruct i as [|i]; cbn [number_from].
  - intros [= <-]. cbn. split; [lia|]. now destruct row.
  - intros H. apply IH in H as [H1 H2]. split; [lia|exact H2].
Qed.

Lemma number_from_length rows start : length (number_from start rows) = length rows.
Proof. revert start; induction rows; intros; cbn; auto. Qed.

Lemma number_from_rows rows start :
  map (fun r => (row_title r, row_content r)) (number_from start rows) = rows.
Proof.
  revert start; induction rows as [|[t c] rows IH]; intros; cbn; [reflexivity|].
  now rewrite IH.
Qed.

Lemma import_appends document db :
  preprocess_wikipedia_dump document db =
  db ++ number_from (next_rowid db) (fst (walk document)).
Proof. apply fold_insert. Qed.

(** X26: the importer keeps the rows of the table and puts new ones
    after them, with consecutive ids from the next free one on, each
    with a title and a content that are not empty. *)
Theorem import_grows document db :
  exists new,
    preprocess_wikipedia_dump document db = db ++ new /\
    (forall i r, new !! i = Some r ->
       row_id r = (next_rowid db + Z.of_nat i)%Z /\
       row_title r <> [] /\ row_content r <> []).
Proof.
  exists (number_from (next_rowid db) (fst (walk document))).
  split; [apply import_appends|].
  intros i r H. apply number_from_lookup in H as [H1 H2]. split; [exact H1|].
  pose proof (walk_rows_ok document) as Hok.
  rewrite List.Forall_forall in Hok.
  apply list_elem_of_lookup_2 in H2. apply list_elem_of_In in H2.
  apply Hok in H2. exact H2.
Qed.

(** *** Selection from a fresh table *)

Lemma select_number_from rows : forall start i row,
  rows !! i = Some row ->
  select_article (number_from start rows) (start + Z.of_nat i) = Some row.
Proof.
  induction rows as [|r rows IH]; intros start i row; [discriminate|].
  destruct i as [|i]; cbn [number_from select_article row_id row_title row_content].
  - intros [= <-]. rewrite Z.add_0_r, Z.eqb_refl. now destruct r.
  - intros H. cbn [lookup list_lookup] in H.
    destruct (Z.eqb_spec start (start + Z.of_nat (S i))); [lia|].
    replace (start + Z.of_nat (S i))%Z with ((start + 1) + Z.of_nat i)%Z by lia.
    now apply IH.
Qed.

Lemma fresh_table_ids document article_id :
  let db := preprocess_wikipedia_dump document [] in
  (1 <= article_id <= Z.of_nat (length db))%Z ->
  exists title content,
    select_article db article_id = Some (title, content) /\
    title <> [] /\ content <> [].
Proof.
  cbv zeta. rewrite import_appends. cbn [app]. change (next_rowid []) with 1%Z.
  rewrite number_from_length. intros H.
  set (rows := fst (walk document)) in *.
  destruct (lookup_lt_is_Some_2 rows (Z.to_nat (article_id - 1))) as [[t c] Hrow]; [lia|].
  exists t, c.
  pose proof (select_number_from rows 1 _ _ Hrow) as Hsel.
  replace (1 + Z.of_nat (Z.to_nat (article_id - 1)))%Z with article_id in Hsel by lia.
  split; [exact Hsel|].
  pose proof (walk_rows_ok document) as Hok. rewrite List.Forall_forall in Hok.
  apply list_elem_of_lookup_2 in Hrow. apply list_elem_of_In in Hrow.
  apply (Hok _ Hrow).
Qed.

(** *** Another namespace *)

Lemma find_below_absent tag e : has_tag tag e = false -> find_below tag e = None.
Proof.
  induction e as [t x children IH] using element_induction.
  cbn [has_tag]. intros H. apply orb_false_iff in H as [_ H].
  induction IH as [|c cs Hc _ IHcs]; [reflexivity|].
  rewrite find_below_eq. cbn [existsb] in H. apply orb_false_iff in H as [Hc' Hcs].
  specialize (Hc Hc'). rewrite Hc.
  destruct c as [tc xc cc]. cbn [has_tag] in Hc'. apply orb_false_iff in Hc' as [Htc _].
  cbn [tag_of]. rewrite Htc. apply IHcs, Hcs.
Qed.

Lemma walk_absent tag e :
  has_tag tag e = false -> has_tag tag (snd (walk e)) = false.
Proof.
  induction e as [t x children IH] using element_induction.
  cbn [has_tag]. intros H. apply orb_false_iff in H as [Ht H].
  rewrite walk_eq. cbv zeta.
  destruct (endswith _ t); cbn [snd has_tag existsb]; rewrite Ht; [reflexivity|].
  cbn [orb]. unfold walk_all. cbn [snd].
  induction IH as [|c cs Hc _ IHcs]; [reflexivity|].
  cbn [existsb] in H. apply orb_false_iff in H as [Hc' Hcs].
  cbn [map existsb]. rewrite (Hc Hc'). apply IHcs, Hcs.
Qed.

Lemma walk_no_title e :
  has_tag (wiki_tag (lit "title")) e = false -> fst (walk e) = [].
Proof.
  induction e as [t x children IH] using element_induction.
  intros H. pose proof H as H0.
  cbn [has_tag] in H. apply orb_false_iff in H as [Ht H].
  rewrite walk_eq. cbv zeta.
  assert (Hall : fst (walk_all children) = []).
  { unfold walk_all. cbn [fst]. clear H0.
    induction IH as [|c cs Hc _ IHcs]; [reflexivity|].
    cbn [existsb] in H. apply orb_false_iff in H as [Hc' Hcs].
    cbn [flat_map]. rewrite (Hc Hc'), (IHcs Hcs). reflexivity. }
  destruct (endswith _ t); cbn [fst]; [|exact Hall].
  rewrite Hall. cbn [app].
  unfold page_row. rewrite find_below_absent; [reflexivity|].
  cbn [has_tag]. rewrite Ht. cbn [orb]. unfold walk_all. cbn [snd].
  clear Hall H0 IH. induction children as [|c cs IHcs]; [reflexivity|].
  cbn [existsb] in H. apply orb_false_iff in H as [Hc' Hcs].
  cbn [map existsb]. rewrite (walk_absent _ _ Hc'). apply IHcs, Hcs.
Qed.

(** X28: from a document in which no element has the [title] tag of
    the export-0.11 namespace, nothing is imported. *)
Theorem import_other_namespace document db :
  has_tag (wiki_tag (lit "title")) document = false ->
  preprocess_wikipedia_dump document db = db.
Proof.
  intros H. rewrite import_appends, (walk_no_title _ H). apply app_nil_r.
Qed.

(** *** A flat export *)

Lemma walk_simple_page title text :
  walk (simple_page title text) =
  (match simple_row (title, text) with Some row => [row] | None => [] end,
   Element (wiki_tag (lit "page")) None []).
Proof.
  destruct title as [[|a t]|], text as [[|b c]|]; vm_compute; reflexivity.
Qed.

Lemma walk_simple_pages pages :
  walk_all (map (fun p => simple_page (fst p) (snd p)) pages)
  = (omap simple_row pages,
     map (fun _ => Element (wiki_tag (lit "page")) None []) pages).
Proof.
  unfold walk_all. induction pages as [|[title text] pages IH]; [reflexivity|].
  injection IH as IH1 IH2.
  cbn [map flat_map fst snd]. rewrite IH1, IH2, walk_simple_page. cbn [fst snd].
  f_equal. cbn [omap list_omap]. fold (omap simple_row pages).
  destruct (simple_row (title, text)); reflexivity.
Qed.

(** X29: from an export whose pages are a title and a revision with a
    text, below a root that is not itself a page, the importer takes
    the pages that have a title and a text, both not empty, in the order
    of the export. *)
Theorem flat_export_rows root_tag root_text pages db :
  endswith (lit "page") root_tag = false ->
  preprocess_wikipedia_dump
    (Element root_tag root_text (map (fun p => simple_page (fst p) (snd p)) pages)) db
  = db ++ number_from (next_rowid db) (omap simple_row pages).
Proof.
  intros Hroot. rewrite import_appends, walk_eq. cbv zeta.
  rewrite Hroot, walk_simple_pages. reflexivity.
Qed.

(* ===================================================================== *)
(** ** The whole of a call and of a batch *)
(* ===================================================================== *)

(** X1: [process_article] never raises, whatever the parser does: it
    returns, and all it leaves in the world are log records. *)
Theorem process_article_never_raises lower ieq mw_parse title text w :
  exists r logs,
    process_article lower ieq mw_parse title text w = (Ok r, after w logs)
    /\ forallb is_log logs = true.
Proof. apply process_article_returns. Qed.

(** X12: a call of [generate_questions] makes at most three calls to the
    service, only adds to the events, and changes no file but the cache
    file of the article. *)
Theorem generate_questions_frame json_loads chat_completions_create a cache_dir w :
  let (r, w') := generate_questions json_loads chat_completions_create a cache_dir w in
  (api_calls w <= api_calls w' <= api_calls w + max_retries)%nat
  /\ (exists tr, trace w' = trace w ++ tr)
  /\ forall path,
       (forall h, article_hash a = Ok h -> path <> cache_path cache_dir h) ->
       files w' !! path = files w !! path.
Proof. apply generate_within. Qed.


(** X23: a batch makes at most three calls to the service for each id,
    only adds to the events, and changes no file but cache files of its
    cache directory; so it is whether it returns or raises. *)
Theorem process_articles_frame
    lower ieq mw_parse json_loads chat_completions_create db article_ids cache_dir w :
  let (r, w') := process_articles lower ieq mw_parse json_loads chat_completions_create
                   db article_ids cache_dir w in
  (api_calls w <= api_calls w' <= api_calls w + max_retries * length article_ids)%nat
  /\ (exists tr, trace w' = trace w ++ tr)
  /\ forall path, ~ cache_file_of cache_dir path -> files w' !! path = files w !! path.
Proof.
  pose proof (from_frame lower ieq mw_parse json_loads chat_completions_create
                db cache_dir article_ids [] w) as H.
  unfold process_articles.
  destruct (process_articles_from _ _ _ _ _ _ _ _ _ _) as [r w']. exact H.
Qed.

(** X24: every row of the dataset a batch returns comes from an id of
    the batch: its title is the title of that row of the table, whose
    text is not a redirect, and its context is the cleaned text, which
    is meaningful, or the raw text when the parser raised on it. *)
Theorem rows_come_from_articles
    lower ieq mw_parse json_loads chat_completions_create db article_ids cache_dir
    w rows w' :
  process_articles lower ieq mw_parse json_loads chat_completions_create
    db article_ids cache_dir w = (Ok rows, w') ->
  Forall (row_source lower mw_parse db article_ids) rows.
Proof.
  intros H. unfold process_articles in H.
  destruct (from_rows lower ieq mw_parse json_loads chat_completions_create
              db cache_dir article_ids [] w rows w' H) as (new & Heq & Hnew).
  cbn [app] in Heq. subst rows. exact Hnew.
Qed.

(** X25: when the shuffle permutes its list, the ids [main] selects are
    distinct ids between 1 and the number of rows; there are as many as
    there are rows without a limit or with the limit 0, as many as the
    limit says but no more than there are rows for a positive limit,
    and a negative limit leaves that many out. *)
Theorem selection_is_a_sample shuffle limit seed total_articles :
  (forall seed l, Permutation (shuffle seed l) l) ->
  let ids := selected_article_ids shuffle limit seed total_articles in
  List.NoDup ids
  /\ (forall id, In id ids -> (1 <= id <= Z.of_nat total_articles)%Z)
  /\ length ids = selected_count limit total_articles.
Proof. intros H. apply selected_ids, H. Qed.

(** X27: after an import into an empty table, every id [main] selects
    from the count of the rows selects a row, with a title and a content
    that are not empty: no selected id is passed over for want of a
    row. *)
Theorem selected_ids_are_imported shuffle document limit seed article_id :
  (forall seed l, Permutation (shuffle seed l) l) ->
  let db := preprocess_wikipedia_dump document [] in
  In article_id (selected_article_ids shuffle limit seed (length db)) ->
  exists title content,
    select_article db article_id = Some (title, content)
    /\ title <> [] /\ content <> [].
Proof.
  intros Hperm db Hin. apply fresh_table_ids.
  destruct (selected_ids shuffle Hperm limit seed (length db)) as (_ & Hrange & _).
  apply Hrange, Hin.
Qed.

(* ===================================================================== *)
(** ** The further statements at concrete inputs *)
(* ===================================================================== *)

Lemma only_markup_is_include_only_witness :
  forallb item_ok [Template (lit "Infoboks by"); Blank 10; Category (lit "Byer")] = true
  /\ is_include_only Demo.ascii_ieq
       (items_text [Template (lit "Infoboks by"); Blank 10; Category (lit "Byer")])
     = Ok true.
Proof.
  split; [reflexivity|].
  apply (only_markup_is_include_only Demo.ascii_ieq). reflexivity.
Defined.

Lemma is_redirect_outer_whitespace_witness :
  forallb isspace (lit "  ") = true
  /\ forallb isspace (lit " ") = true
  /\ is_redirect Demo.ascii_lower (lit "  " ++ lit "#Redirect [[Aarhus]]" ++ lit " ")
     = is_redirect Demo.ascii_lower (lit "#Redirect [[Aarhus]]").
Proof.
  split; [reflexivity|]. split; [reflexivity|].
  apply (is_redirect_outer_whitespace Demo.ascii_lower); reflexivity.
Defined.

Lemma clean_template_witness :
  forallb (outside (lit "{")) (lit "Aarhus ") = true
  /\ forallb (outside (lit "}")) (lit "Infoboks|navn=Aarhus") = true
  /\ clean_wikitext (lit "Aarhus " ++ lit "{{" ++ lit "Infoboks|navn=Aarhus" ++ lit "}}"
                       ++ lit "er en by.")
     = clean_wikitext (lit "Aarhus " ++ lit "er en by.").
Proof.
  split; [reflexivity|]. split; [reflexivity|].
  apply clean_template; reflexivity.
Defined.

Lemma clean_category_witness :
  forallb (outside (lit "{[")) (lit "Aarhus er en by. ") = true
  /\ forallb (outside (lit "{]")) (lit "Byer i Danmark") = true
  /\ clean_wikitext (lit "Aarhus er en by. " ++ lit "[[Kategori:" ++ lit "Byer i Danmark"
                       ++ lit "]]" ++ lit " Slut.")
     = clean_wikitext (lit "Aarhus er en by. " ++ lit " Slut.").
Proof.
  split; [reflexivity|]. split; [reflexivity|].
  apply clean_category; reflexivity.
Defined.

Lemma clean_external_link_witness :
  forallb (outside (lit "{[")) (lit "Se ") = true
  /\ forallb (outside (lit "{[]")) (lit "://aarhus.dk Aarhus") = true
  /\ clean_wikitext (lit "Se " ++ lit "[http" ++ lit "://aarhus.dk Aarhus" ++ lit "]"
                       ++ lit " for mere.")
     = clean_wikitext (lit "Se " ++ lit " for mere.").
Proof.
  split; [reflexivity|]. split; [reflexivity|].
  apply clean_external_link; reflexivity.
Defined.

Lemma clean_comment_witness :
  forallb (outside (lit "{[<")) (lit "Aarhus ") = true
  /\ forallb (outside (lit "{[")) (lit " skjult -- > ") = true
  /\ contains (lit "-->") (lit " skjult -- > ") = false
  /\ clean_wikitext (lit "Aarhus " ++ lit "<!--" ++ lit " skjult -- > " ++ lit "-->"
                       ++ lit "er en by.")
     = clean_wikitext (lit "Aarhus " ++ lit "er en by.").
Proof.
  split; [reflexivity|]. split; [reflexivity|]. split; [reflexivity|].
  apply clean_comment; reflexivity.
Defined.

Lemma clean_ref_witness :
  forallb (outside (lit "{[<")) (lit "Aarhus") = true
  /\ forallb (outside (lit "{[<>")) (lit " name=a") = true
  /\ forallb (outside (lit "{[<")) (lit "Kilde, 2020") = true
  /\ clean_wikitext (lit "Aarhus" ++ lit "<ref" ++ lit " name=a" ++ lit ">"
                       ++ lit "Kilde, 2020" ++ lit "</ref>" ++ lit " er en by.")
     = clean_wikitext (lit "Aarhus" ++ lit " er en by.").
Proof.
  split; [reflexivity|]. split; [reflexivity|]. split; [reflexivity|].
  apply clean_ref; reflexivity.
Defined.

Lemma clean_link_label_witness :
  forallb (outside (lit "{[<")) (lit "Aarhus ligger i ") = true
  /\ forallb (outside (lit "{[<|]")) (lit "Jylland") = true
  /\ startswith (lit "Kategori:") (lit "Jylland") = false
  /\ startswith (lit "http") (lit "Jylland") = false
  /\ lit "det jyske" <> []
  /\ forallb (outside (lit "{[<]")) (lit "det jyske") = true
  /\ clean_wikitext (lit "Aarhus ligger i " ++ lit "[[" ++ lit "Jylland" ++ lit "|"
                       ++ lit "det jyske" ++ lit "]]" ++ lit ".")
     = clean_wikitext (lit "Aarhus ligger i " ++ lit "det jyske" ++ lit ".").
Proof.
  assert (Hne : lit "det jyske" <> []) by (vm_compute; discriminate).
  split; [reflexivity|]. split; [reflexivity|]. split; [reflexivity|].
  split; [reflexivity|]. split; [exact Hne|]. split; [reflexivity|].
  apply clean_link_label; first [exact Hne | reflexivity].
Defined.

Lemma clean_link_bare_witness :
  forallb (outside (lit "{[<")) (lit "Aarhus ligger i ") = true
  /\ lit "Jylland" <> []
  /\ forallb (outside (lit "{[<|]")) (lit "Jylland") = true
  /\ startswith (lit "Kategori:") (lit "Jylland") = false
  /\ startswith (lit "http") (lit "Jylland") = false
  /\ clean_wikitext (lit "Aarhus ligger i " ++ lit "[[" ++ lit "Jylland" ++ lit "]]"
                       ++ lit ".")
     = clean_wikitext (lit "Aarhus ligger i " ++ lit "Jylland" ++ lit ".").
Proof.
  assert (Hne : lit "Jylland" <> []) by (vm_compute; discriminate).
  split; [reflexivity|]. split; [exact Hne|]. split; [reflexivity|].
  split; [reflexivity|]. split; [reflexivity|].
  apply clean_link_bare; first [exact Hne | reflexivity].
Defined.

Lemma generate_miss_returns_witness :
  article_hash Demo.aarhus = Ok Demo.aarhus_hash
  /\ files Demo.empty_world !! cache_path (lit "qa_cache") Demo.aarhus_hash = None
  /\ exists v w',
       generate_questions Demo.loads Demo.api_down Demo.aarhus (lit "qa_cache")
         Demo.empty_world = (Ok v, w').
Proof.
  assert (Hh : article_hash Demo.aarhus = Ok Demo.aarhus_hash)
    by (vm_compute; reflexivity).
  assert (Hmiss : files Demo.empty_world !! cache_path (lit "qa_cache") Demo.aarhus_hash
                  = None) by (vm_compute; reflexivity).
  split; [exact Hh|]. split; [exact Hmiss|].
  exact (generate_miss_returns Demo.loads Demo.api_down Demo.aarhus (lit "qa_cache")
           Demo.aarhus_hash Demo.empty_world Hh Hmiss).
Defined.




Lemma digest_and_path_witness :
  forallb scalar (title Demo.aarhus ++ content Demo.aarhus) = true
  /\ exists h,
       article_hash Demo.aarhus = Ok h
       /\ length h = 32%nat
       /\ forallb hex h = true
       /\ startswith (lit "qa_cache") (cache_path (lit "qa_cache") h) = true
       /\ endswith (h ++ lit ".json") (cache_path (lit "qa_cache") h) = true.
Proof.
  split; [reflexivity|].
  apply (digest_and_path Demo.aarhus (lit "qa_cache")). reflexivity.
Defined.

Lemma surrogate_raises_first_witness :
  In 0xD800 (title (Article (lit "Aarhus") [0xD800])
             ++ content (Article (lit "Aarhus") [0xD800]))
  /\ (0xD800 <=? 0xD800) && (0xD800 <=? 0xDFFF) = true
  /\ generate_questions Demo.loads Demo.api_down (Article (lit "Aarhus") [0xD800])
       (lit "qa_cache") Demo.empty_world
     = (Raise UnicodeEncodeError,
        after Demo.empty_world
          [Logged DEBUG (lit "Generating questions for article: "
                         ++ title (Article (lit "Aarhus") [0xD800]))]).
Proof.
  assert (Hin : In 0xD800 (title (Article (lit "Aarhus") [0xD800])
                           ++ content (Article (lit "Aarhus") [0xD800]))).
  { apply in_or_app. right. left. reflexivity. }
  split; [exact Hin|]. split; [reflexivity|].
  exact (surrogate_raises_first Demo.loads Demo.api_down (Article (lit "Aarhus") [0xD800])
           (lit "qa_cache") 0xD800 Demo.empty_world Hin eq_refl).
Defined.

Lemma batch_unknown_witness :
  (forall article_id, In article_id [7%Z; 9%Z] -> select_article Sample.db article_id = None)
  /\ process_articles Demo.ascii_lower Demo.ascii_ieq Demo.parse_ok Demo.loads
       Demo.api_down Sample.db [7%Z; 9%Z] (lit "qa_cache") Demo.empty_world
     = (Ok [], Demo.empty_world).
Proof.
  assert (H : forall article_id, In article_id [7%Z; 9%Z] ->
                select_article Sample.db article_id = None).
  { intros article_id [<-|[<-|[]]]; reflexivity. }
  split; [exact H|].
  exact (batch_unknown Demo.ascii_lower Demo.ascii_ieq Demo.parse_ok Demo.loads
           Demo.api_down Sample.db (lit "qa_cache") [7%Z; 9%Z] Demo.empty_world H).
Defined.

Lemma batch_rows_witness :
  let w1 := after Demo.empty_world
              [Logged DEBUG (lit "Processing article: Aarhus");
               Logged DEBUG (lit "Processed article: Aarhus")] in
  let w2 := snd (generate_questions Demo.loads Sample.api_answers Sample.long_aarhus
                   (lit "qa_cache") w1) in
  select_article Sample.db 1 = Some (lit "Aarhus", Demo.long_text)
  /\ process_article Demo.ascii_lower Demo.ascii_ieq Demo.parse_ok
       (lit "Aarhus") Demo.long_text Demo.empty_world = (Ok (Some Sample.long_aarhus), w1)
  /\ generate_questions Demo.loads Sample.api_answers Sample.long_aarhus
       (lit "qa_cache") w1 = (Ok Demo.five_pairs, w2)
  /\ answer_rows Demo.five_pairs = Some Sample.five_values
  /\ process_articles Demo.ascii_lower Demo.ascii_ieq Demo.parse_ok Demo.loads
       Sample.api_answers Sample.db [1%Z; 2%Z] (lit "qa_cache") Demo.empty_world
     = extend (entries (lit "Aarhus") (content Sample.long_aarhus) Sample.five_values)
         (process_articles Demo.ascii_lower Demo.ascii_ieq Demo.parse_ok Demo.loads
            Sample.api_answers Sample.db [2%Z] (lit "qa_cache") w2).
Proof.
  cbv zeta.
  assert (H1 : process_article Demo.ascii_lower Demo.ascii_ieq Demo.parse_ok
                 (lit "Aarhus") Demo.long_text Demo.empty_world
               = (Ok (Some Sample.long_aarhus),
                  after Demo.empty_world
                    [Logged DEBUG (lit "Processing article: Aarhus");
                     Logged DEBUG (lit "Processed article: Aarhus")]))
    by (vm_compute; reflexivity).
  assert (H2 : generate_questions Demo.loads Sample.api_answers Sample.long_aarhus
                 (lit "qa_cache")
                 (after Demo.empty_world
                    [Logged DEBUG (lit "Processing article: Aarhus");
                     Logged DEBUG (lit "Processed article: Aarhus")])
               = (Ok Demo.five_pairs,
                  snd (generate_questions Demo.loads Sample.api_answers Sample.long_aarhus
                         (lit "qa_cache")
                         (after Demo.empty_world
                            [Logged DEBUG (lit "Processing article: Aarhus");
                             Logged DEBUG (lit "Processed article: Aarhus")]))))
    by (vm_compute; reflexivity).
  assert (Hs : select_article Sample.db 1 = Some (lit "Aarhus", Demo.long_text))
    by (vm_compute; reflexivity).
  assert (Hrows : answer_rows Demo.five_pairs = Some Sample.five_values)
    by (vm_compute; reflexivity).
  split; [exact Hs|]. split; [exact H1|]. split; [exact H2|]. split; [exact Hrows|].
  exact (batch_rows Demo.ascii_lower Demo.ascii_ieq Demo.parse_ok Demo.loads
           Sample.api_answers Sample.db (lit "qa_cache") 1%Z [2%Z]
           (lit "Aarhus") Demo.long_text Sample.long_aarhus Demo.five_pairs
           Sample.five_values Demo.empty_world _ _ Hs H1 H2 Hrows).
Defined.

Lemma batch_aborts_witness :
  let w1 := after Demo.empty_world
              [Logged DEBUG (lit "Processing article: Aarhus");
               Logged DEBUG (lit "Processed article: Aarhus")] in
  let w2 := snd (generate_questions Sample.loads_incomplete Sample.api_incomplete
                   Sample.long_aarhus (lit "qa_cache") w1) in
  select_article Sample.db 1 = Some (lit "Aarhus", Demo.long_text)
  /\ process_article Demo.ascii_lower Demo.ascii_ieq Demo.parse_ok
       (lit "Aarhus") Demo.long_text Demo.empty_world = (Ok (Some Sample.long_aarhus), w1)
  /\ generate_questions Sample.loads_incomplete Sample.api_incomplete Sample.long_aarhus
       (lit "qa_cache") w1 = (Ok Sample.incomplete, w2)
  /\ answer_rows Sample.incomplete = None
  /\ exists e,
       bad_record e
       /\ process_articles Demo.ascii_lower Demo.ascii_ieq Demo.parse_ok
            Sample.loads_incomplete Sample.api_incomplete Sample.db [1%Z; 3%Z]
            (lit "qa_cache") Demo.empty_world
          = (Raise e, w2).
Proof.
  cbv zeta.
  assert (H1 : process_article Demo.ascii_lower Demo.ascii_ieq Demo.parse_ok
                 (lit "Aarhus") Demo.long_text Demo.empty_world
               = (Ok (Some Sample.long_aarhus),
                  after Demo.empty_world
                    [Logged DEBUG (lit "Processing article: Aarhus");
                     Logged DEBUG (lit "Processed article: Aarhus")]))
    by (vm_compute; reflexivity).
  assert (H2 : generate_questions Sample.loads_incomplete Sample.api_incomplete
                 Sample.long_aarhus (lit "qa_cache")
                 (after Demo.empty_world
                    [Logged DEBUG (lit "Processing article: Aarhus");
                     Logged DEBUG (lit "Processed article: Aarhus")])
               = (Ok Sample.incomplete,
                  snd (generate_questions Sample.loads_incomplete Sample.api_incomplete
                         Sample.long_aarhus (lit "qa_cache")
                         (after Demo.empty_world
                            [Logged DEBUG (lit "Processing article: Aarhus");
                             Logged DEBUG (lit "Processed article: Aarhus")]))))
    by (vm_compute; reflexivity).
  assert (Hs : select_article Sample.db 1 = Some (lit "Aarhus", Demo.long_text))
    by (vm_compute; reflexivity).
  assert (Hrows : answer_rows Sample.incomplete = None) by (vm_compute; reflexivity).
  split; [exact Hs|]. split; [exact H1|]. split; [exact H2|]. split; [exact Hrows|].
  exact (batch_aborts Demo.ascii_lower Demo.ascii_ieq Demo.parse_ok
           Sample.loads_incomplete Sample.api_incomplete Sample.db (lit "qa_cache")
           1%Z [3%Z] (lit "Aarhus") Demo.long_text Sample.long_aarhus Sample.incomplete
           Demo.empty_world _ _ Hs H1 H2 Hrows).
Defined.

Lemma rows_come_from_articles_witness :
  let run := process_articles Demo.ascii_lower Demo.ascii_ieq Demo.parse_ok Demo.loads
               Sample.api_answers Sample.db [2%Z; 1%Z; 3%Z] (lit "qa_cache")
               Demo.empty_world in
  run = (Ok (entries (lit "Aarhus") Demo.long_content Sample.five_values), snd run)
  /\ Forall (row_source Demo.ascii_lower Demo.parse_ok Sample.db [2%Z; 1%Z; 3%Z])
       (entries (lit "Aarhus") Demo.long_content Sample.five_values).
Proof.
  cbv zeta.
  assert (H : process_articles Demo.ascii_lower Demo.ascii_ieq Demo.parse_ok Demo.loads
                Sample.api_answers Sample.db [2%Z; 1%Z; 3%Z] (lit "qa_cache")
                Demo.empty_world
              = (Ok (entries (lit "Aarhus") Demo.long_content Sample.five_values),
                 snd (process_articles Demo.ascii_lower Demo.ascii_ieq Demo.parse_ok
                        Demo.loads Sample.api_answers Sample.db [2%Z; 1%Z; 3%Z]
                        (lit "qa_cache") Demo.empty_world)))
    by (vm_compute; reflexivity).
  split; [exact H|].
  exact (rows_come_from_articles Demo.ascii_lower Demo.ascii_ieq Demo.parse_ok Demo.loads
           Sample.api_answers Sample.db [2%Z; 1%Z; 3%Z] (lit "qa_cache")
           Demo.empty_world _ _ H).
Defined.

Lemma reverse_permutes seed l : Permutation (Sample.reverse seed l) l.
Proof. unfold Sample.reverse. apply Permutation_sym, Permutation_rev. Qed.

Lemma selection_is_a_sample_witness :
  (forall seed l, Permutation (Sample.reverse seed l) l)
  /\ (let ids := selected_article_ids Sample.reverse (Some 2%Z) 42%Z 5 in
      List.NoDup ids
      /\ (forall id, In id ids -> (1 <= id <= Z.of_nat 5)%Z)
      /\ length ids = selected_count (Some 2%Z) 5).
Proof.
  split; [exact reverse_permutes|].
  exact (selection_is_a_sample Sample.reverse (Some 2%Z) 42%Z 5 reverse_permutes).
Defined.

Lemma selected_ids_are_imported_witness :
  (forall seed l, Permutation (Sample.reverse seed l) l)
  /\ In 2%Z (selected_article_ids Sample.reverse None 0%Z
               (length (preprocess_wikipedia_dump Sample.export [])))
  /\ exists title content,
       select_article (preprocess_wikipedia_dump Sample.export []) 2%Z
       = Some (title, content)
       /\ title <> [] /\ content <> [].
Proof.
  assert (Hin : In 2%Z (selected_article_ids Sample.reverse None 0%Z
                          (length (preprocess_wikipedia_dump Sample.export [])))).
  { left. reflexivity. }
  split; [exact reverse_permutes|]. split; [exact Hin|].
  exact (selected_ids_are_imported Sample.reverse Sample.export None 0%Z 2%Z
           reverse_permutes Hin).
Defined.

Lemma import_other_namespace_witness :
  has_tag (wiki_tag (lit "title")) Sample.old_export = false
  /\ preprocess_wikipedia_dump Sample.old_export Sample.db = Sample.db.
Proof.
  split; [vm_compute; reflexivity|].
  apply (import_other_namespace Sample.old_export Sample.db). vm_compute. reflexivity.
Defined.

Lemma flat_export_rows_witness :
  endswith (lit "page") (wiki_tag (lit "mediawiki")) = false
  /\ preprocess_wikipedia_dump Sample.export []
     = [] ++ number_from (next_rowid [])
               (omap simple_row
                  [(Some (lit "Aarhus"), Some (lit "Aarhus er en by."));
                   (Some (lit "Tom"), None);
                   (Some (lit "Odense"), Some (lit "Odense er en by."))]).
Proof.
  split; [vm_compute; reflexivity|].
  apply (flat_export_rows (wiki_tag (lit "mediawiki")) None
           [(Some (lit "Aarhus"), Some (lit "Aarhus er en by."));
            (Some (lit "Tom"), None);
            (Some (lit "Odense"), Some (lit "Odense er en by."))] []).
  vm_compute. reflexivity.
Defined.

